(** * Zuno AI chat client: the message-exchange orchestration

    A shallow embedding of the orchestration core of the chat client:
    - [App.tsx]: [handleSendMessage], [handleNewChat], the hydrate and the
      persist effects;
    - [services/geminiService.ts]: [getAIClient], [startChatStream],
      [processImageTask];
    - [types.ts]: [Role], [Message].

    JavaScript strings are modelled as [string]; a character outside ASCII
    is a run of characters above code 127, which the ASCII-only operations
    used by the program (the edit-intent pattern, decimal digits) never
    confuse with an ASCII letter or digit. *)

From Stdlib Require Import ZArith Lia Ascii String List Bool.
From stdpp Require Import base option list gmap strings pretty.

Open Scope string_scope.
Open Scope list_scope.
Open Scope Z_scope.

(** ** JavaScript primitives used by the program *)

Module Js.

(** Truthiness of a string: only the empty string is falsy. *)
Definition truthy (s : string) : bool := negb (String.eqb s "").

(** [s || d] on a string that is always defined. *)
Definition orElse (s d : string) : string := if truthy s then s else d.

(** [v || d] on a string that may be [undefined]. *)
Definition orDefault (v : option string) (d : string) : string :=
  match v with
  | Some s => orElse s d
  | None => d
  end.

(** [String.prototype.includes]. *)
Fixpoint includes (s sub : string) : bool :=
  String.prefix sub s
  || match s with
     | EmptyString => false
     | String _ rest => includes rest sub
     end.

(** [Number.prototype.toString] on an integer: its decimal numeral. *)
Definition Number_toString (n : Z) : string := pretty n.

(** A thrown value; [message] is [err.message], undefined for a thrown
    value that carries none. *)
Record Error := mkError { message : option string }.

Definition new_Error (msg : string) : Error := mkError (Some msg).

End Js.

(** ** Regular expressions: a disjunction of literals with the [i] flag *)

Module RegExp.

Record t := mk { alternatives : list string; ignoreCase : bool }.

Definition isLowerLetter (c : ascii) : bool :=
  (97 <=? Z.of_N (N_of_ascii c)) && (Z.of_N (N_of_ascii c) <=? 122).

(** Canonicalize of a pattern without the [u] flag: the upper-case form of
    the character; a character above code 127 is never mapped into ASCII. *)
Definition Canonicalize (ignoreCase : bool) (c : ascii) : ascii :=
  if ignoreCase && isLowerLetter c
  then ascii_of_N (N_of_ascii c - 32)
  else c.

Definition sameCharacter (ic : bool) (a b : ascii) : bool :=
  Ascii.eqb (Canonicalize ic a) (Canonicalize ic b).

(** The literal [lit] matches at the start of [s]. *)
Fixpoint matchLiteral (ic : bool) (lit s : string) : bool :=
  match lit, s with
  | EmptyString, _ => true
  | String _ _, EmptyString => false
  | String a lit', String b s' => sameCharacter ic a b && matchLiteral ic lit' s'
  end.

(** Some alternative matches at the start of [s]. *)
Definition matchHere (r : t) (s : string) : bool :=
  existsb (fun lit => matchLiteral (ignoreCase r) lit s) (alternatives r).

(** [RegExp.prototype.test] without the [g] flag: a match at some index. *)
Fixpoint test (r : t) (s : string) : bool :=
  matchHere r s
  || match s with
     | EmptyString => false
     | String _ rest => test r rest
     end.

End RegExp.

(** ** The data model ([types.ts]) *)

Inductive Role := USER | MODEL.

Definition Role_eqb (a b : Role) : bool :=
  match a, b with
  | USER, USER | MODEL, MODEL => true
  | _, _ => false
  end.

(** The string value of the enum member. *)
Definition Role_value (r : Role) : string :=
  match r with
  | USER => "user"
  | MODEL => "model"
  end.

(** A JavaScript [Date]: a time value in milliseconds since the epoch, or
    the invalid date (time value NaN). *)
Inductive Date := TimeValue (ms : Z) | InvalidDate.

Module ImageData.
Record t := mk { data : string; mimeType : string }.
End ImageData.

Module Message.
Record t := mk {
  id : string;
  role : Role;
  content : string;
  timestamp : Date;
  image : option ImageData.t
}.

Definition withContent (m : t) (c : string) : t :=
  mk (id m) (role m) c (timestamp m) (image m).
End Message.

(** ** Dates: time values, their ISO 8601 text and its parsing

    [Date.prototype.toISOString] and the ISO branch of [Date.parse], by the
    day-number arithmetic of the language definition. *)

Module DateTime.

Definition msPerSecond : Z := 1000.
Definition msPerMinute : Z := 60000.
Definition msPerHour : Z := 3600000.
Definition msPerDay : Z := 86400000.

(** The largest magnitude of a time value. *)
Definition maxTime : Z := 8640000000000000.

Definition Day (t : Z) : Z := t / msPerDay.
Definition TimeWithinDay (t : Z) : Z := t mod msPerDay.

Definition isLeapYear (y : Z) : bool :=
  ((y mod 4 =? 0) && negb (y mod 100 =? 0)) || (y mod 400 =? 0).

Definition DaysInYear (y : Z) : Z := if isLeapYear y then 366 else 365.

(** Day number of the first day of year [y]. *)
Definition DayFromYear (y : Z) : Z :=
  365 * (y - 1970) + (y - 1969) / 4 - (y - 1901) / 100 + (y - 1601) / 400.

(** The year a day number falls in: the largest [y] whose first day is not
    after [d], found from an estimate that is off by at most one. *)
Definition YearFromDay (d : Z) : Z :=
  let y := 1970 + d * 400 / 146097 in
  if d <? DayFromYear y then y - 1
  else if DayFromYear (y + 1) <=? d then y + 1
  else y.

Definition YearFromTime (t : Z) : Z := YearFromDay (Day t).

Definition DayWithinYear (t : Z) : Z := Day t - DayFromYear (YearFromTime t).

(** Day within the year on which month [m] (0 = January) starts; 12 gives
    the length of the year. *)
Definition monthStart (leap : bool) (m : Z) : Z :=
  let l := if leap then 1 else 0 in
  match m with
  | 0 => 0
  | 1 => 31
  | 2 => 59 + l
  | 3 => 90 + l
  | 4 => 120 + l
  | 5 => 151 + l
  | 6 => 181 + l
  | 7 => 212 + l
  | 8 => 243 + l
  | 9 => 273 + l
  | 10 => 304 + l
  | 11 => 334 + l
  | _ => 365 + l
  end.

Definition monthOfDay (leap : bool) (d : Z) : Z :=
  if d <? monthStart leap 1 then 0
  else if d <? monthStart leap 2 then 1
  else if d <? monthStart leap 3 then 2
  else if d <? monthStart leap 4 then 3
  else if d <? monthStart leap 5 then 4
  else if d <? monthStart leap 6 then 5
  else if d <? monthStart leap 7 then 6
  else if d <? monthStart leap 8 then 7
  else if d <? monthStart leap 9 then 8
  else if d <? monthStart leap 10 then 9
  else if d <? monthStart leap 11 then 10
  else 11.

Definition MonthFromTime (t : Z) : Z :=
  monthOfDay (isLeapYear (YearFromTime t)) (DayWithinYear t).

Definition DateFromTime (t : Z) : Z :=
  DayWithinYear t
  - monthStart (isLeapYear (YearFromTime t)) (MonthFromTime t) + 1.

Definition HourFromTime (t : Z) : Z := (t / msPerHour) mod 24.
Definition MinFromTime (t : Z) : Z := (t / msPerMinute) mod 60.
Definition SecFromTime (t : Z) : Z := (t / msPerSecond) mod 60.
Definition msFromTime (t : Z) : Z := t mod msPerSecond.

Definition MakeTime (hour min sec ms : Z) : Z :=
  hour * msPerHour + min * msPerMinute + sec * msPerSecond + ms.

Definition MakeDay (year month date : Z) : Z :=
  let ym := year + month / 12 in
  let mn := month mod 12 in
  DayFromYear ym + monthStart (isLeapYear ym) mn + date - 1.

Definition MakeDate (day time : Z) : Z := day * msPerDay + time.

Definition TimeClip (t : Z) : Date :=
  if maxTime <? Z.abs t then InvalidDate else TimeValue t.

(** *** Printing *)

Definition digitChar (d : Z) : ascii := ascii_of_N (Z.to_N (48 + d)).

(** The [width] low decimal digits of [n], most significant first. *)
Fixpoint padded (width : nat) (n : Z) : string :=
  match width with
  | O => ""
  | S w => String (digitChar ((n / 10 ^ Z.of_nat w) mod 10)) (padded w n)
  end.

Definition yearText (y : Z) : string :=
  if (0 <=? y) && (y <=? 9999) then padded 4 y
  else (if 0 <=? y then "+" else "-") +:+ padded 6 (Z.abs y).

(** [toISOString] of a finite time value. *)
Definition toISOString (t : Z) : string :=
  yearText (YearFromTime t)
  +:+ "-" +:+ padded 2 (MonthFromTime t + 1)
  +:+ "-" +:+ padded 2 (DateFromTime t)
  +:+ "T" +:+ padded 2 (HourFromTime t)
  +:+ ":" +:+ padded 2 (MinFromTime t)
  +:+ ":" +:+ padded 2 (SecFromTime t)
  +:+ "." +:+ padded 3 (msFromTime t)
  +:+ "Z".

(** *** Parsing *)

Definition readDigit (c : ascii) : option Z :=
  let n := Z.of_N (N_of_ascii c) in
  if (48 <=? n) && (n <=? 57) then Some (n - 48) else None.

Fixpoint readNumber (width : nat) (acc : Z) (s : string) : option (Z * string) :=
  match width with
  | O => Some (acc, s)
  | S w =>
      match s with
      | String c rest => d ← readDigit c; readNumber w (acc * 10 + d) rest
      | EmptyString => None
      end
  end.

Definition expect (c : ascii) (s : string) : option string :=
  match s with
  | String c' rest => if Ascii.eqb c c' then Some rest else None
  | EmptyString => None
  end.

(** Four digits, or a sign and six digits; minus zero is not a year. *)
Definition readYear (s : string) : option (Z * string) :=
  match s with
  | String "+"%char rest => readNumber 6 0 rest
  | String "-"%char rest =>
      '(y, r) ← readNumber 6 0 rest;
      if y =? 0 then None else Some (- y, r)
  | _ => readNumber 4 0 s
  end.

Definition daysInMonth (y month : Z) : Z :=
  monthStart (isLeapYear y) month - monthStart (isLeapYear y) (month - 1).

(** The complete date-time form in UTC with every field in range; [None]
    for any other text. *)
Definition parseISO (s : string) : option Z :=
  '(y, s) ← readYear s;
  s ← expect "-" s;
  '(mo, s) ← readNumber 2 0 s;
  s ← expect "-" s;
  '(d, s) ← readNumber 2 0 s;
  s ← expect "T" s;
  '(h, s) ← readNumber 2 0 s;
  s ← expect ":" s;
  '(mi, s) ← readNumber 2 0 s;
  s ← expect ":" s;
  '(sec, s) ← readNumber 2 0 s;
  s ← expect "." s;
  '(ms, s) ← readNumber 3 0 s;
  s ← expect "Z" s;
  if String.eqb s ""
     && (1 <=? mo) && (mo <=? 12)
     && (1 <=? d) && (d <=? daysInMonth y mo)
     && (h <=? 23) && (mi <=? 59) && (sec <=? 59)
  then Some (MakeDate (MakeDay y (mo - 1) d) (MakeTime h mi sec ms))
  else None.

(** [Date.parse] wrapped in a [Date]: the ISO form is parsed as the language
    defines; for any other text the result is the implementation's own
    ([legacy]). *)
Definition parse (legacy : string -> Date) (s : string) : Date :=
  match parseISO s with
  | Some t => TimeClip t
  | None => legacy s
  end.

End DateTime.

(** ** JSON documents and the stored text *)

#[local] Set Warnings "-register-all".

(** A JSON document. Numbers are integers: the program stores none. *)
Inductive JSON :=
  | JNull
  | JBool (b : bool)
  | JNumber (n : Z)
  | JString (s : string)
  | JArray (elements : list JSON)
  | JObject (members : list (string * JSON)).

(** The text held under a key of [localStorage]. JSON text is represented
    by the document it denotes, [JSON.stringify] builds that document and
    [JSON.parse] gives it back; [Malformed] is a text that is not JSON. *)
Inductive StoredText :=
  | Document (j : JSON)
  | Malformed (raw : string).

Module Json.

(** The value of property [k] of a parsed object; the last of duplicate
    keys wins. *)
Definition getProp (k : string) (members : list (string * JSON)) : option JSON :=
  fold_left (fun found kv => if String.eqb k kv.1 then Some kv.2 else found)
            members None.

Definition asString (j : JSON) : option string :=
  match j with
  | JString s => Some s
  | _ => None
  end.

Definition asRole (j : JSON) : option Role :=
  s ← asString j;
  if String.eqb s "user" then Some USER
  else if String.eqb s "model" then Some MODEL
  else None.

(** [Date.prototype.toJSON]: the ISO text, or null for the invalid date. *)
Definition Date_toJSON (d : Date) : JSON :=
  match d with
  | TimeValue t => JString (DateTime.toISOString t)
  | InvalidDate => JNull
  end.

Definition ImageData_toJSON (i : ImageData.t) : JSON :=
  JObject [("data", JString (ImageData.data i));
           ("mimeType", JString (ImageData.mimeType i))].

(** Serialisation of a message: its properties in creation order; a
    property whose value is [undefined] is left out. *)
Definition Message_toJSON (m : Message.t) : JSON :=
  JObject ([("id", JString (Message.id m));
            ("role", JString (Role_value (Message.role m)));
            ("content", JString (Message.content m));
            ("timestamp", Date_toJSON (Message.timestamp m))]
           ++ match Message.image m with
              | Some i => [("image", ImageData_toJSON i)]
              | None => []
              end).

(** [JSON.stringify(messages)]. *)
Definition stringify (ms : list Message.t) : StoredText :=
  Document (JArray (map Message_toJSON ms)).

(** [JSON.parse]. *)
Definition parse (text : StoredText) : Js.Error + JSON :=
  match text with
  | Document j => inr j
  | Malformed _ => inl (Js.new_Error "Unexpected token in JSON")
  end.

(** [new Date(v)] for a property value [v] of a parsed object ([None]: the
    property is absent). Arrays and objects are left out of the model. *)
Definition new_Date (legacy : string -> Date) (v : option JSON) : option Date :=
  match v with
  | None => Some InvalidDate
  | Some JNull => Some (TimeValue 0)
  | Some (JBool b) => Some (TimeValue (if b then 1 else 0))
  | Some (JNumber n) => Some (DateTime.TimeClip n)
  | Some (JString s) => Some (DateTime.parse legacy s)
  | Some (JArray _) | Some (JObject _) => None
  end.

Definition asImageData (v : option JSON) : option (option ImageData.t) :=
  match v with
  | None => Some None
  | Some (JObject ms) =>
      d ← getProp "data" ms ≫= asString;
      t ← getProp "mimeType" ms ≫= asString;
      Some (Some (ImageData.mk d t))
  | Some _ => None
  end.

(** One element of the parsed array read at the type [Message] the program
    asserts for it, with its timestamp rebuilt:
    [{...msg, timestamp: new Date(msg.timestamp)}]. [None] when the element
    does not have the shape of a message. *)
Definition hydrateMessage (legacy : string -> Date) (j : JSON) : option Message.t :=
  match j with
  | JObject ms =>
      i ← getProp "id" ms ≫= asString;
      r ← getProp "role" ms ≫= asRole;
      c ← getProp "content" ms ≫= asString;
      ts ← new_Date legacy (getProp "timestamp" ms);
      im ← asImageData (getProp "image" ms);
      Some (Message.mk i r c ts im)
  | _ => None
  end.

(** [parsed.map(msg => ...)] on the parsed document. *)
Definition hydrateMessages (legacy : string -> Date) (j : JSON)
  : option (list Message.t) :=
  match j with
  | JArray elements => mapM (hydrateMessage legacy) elements
  | _ => None
  end.

End Json.

(** ** The provider's request and response shapes (from the SDK) *)

Module Part.
Record t := mk { text : option string; inlineData : option ImageData.t }.

Definition ofText (s : string) : t := mk (Some s) None.
Definition ofInlineData (i : ImageData.t) : t := mk None (Some i).
End Part.

Module Content.
Record t := mk { role : option string; parts : option (list Part.t) }.
End Content.

Module Config.
Record t := mk {
  systemInstruction : string;
  temperature : Z * Z;          (* numerator, denominator *)
  topP : Z * Z;
  topK : Z;
  thinkingConfig : option Z     (* thinkingBudget *)
}.
End Config.

Module Request.
Record t := mk {
  model : string;
  contents : list Content.t;
  config : option Config.t
}.
End Request.

Module Candidate.
Record t := mk { content : option Content.t }.
End Candidate.

(** [GenerateContentResponse] as [processImageTask] reads it. *)
Module Response.
Record t := mk { candidates : option (list Candidate.t) }.
End Response.

(** One chunk of a streamed response; [text] is the chunk's [text]
    accessor. *)
Module Chunk.
Record t := mk { text : option string }.
End Chunk.

(** What iterating a streamed response yields: its chunks in order, then
    the end of the stream or an error thrown by the iteration. *)
Module Stream.
Record t := mk { chunks : list Chunk.t; failure : option Js.Error }.
End Stream.

(** A call made to the provider over the network. *)
Inductive NetworkCall :=
  | GenerateContentStream (request : Request.t)
  | GenerateContent (request : Request.t).

(** ** The environment and the state of the running application *)

(** What the program takes from outside: the configured credential, the
    provider's answers, the clock, the user's answer to a confirmation
    prompt, the watermark transform (drawn on a canvas) and the date parser
    of the implementation for texts that are not in the ISO form. *)
Record Env := mkEnv {
  API_KEY : option string;
  generateContentStream : Request.t -> Js.Error + Stream.t;
  generateContent : Request.t -> Js.Error + Response.t;
  clock : nat -> Z;
  confirm : string -> bool;
  applyWatermark : string -> string -> string;
  legacyDateParse : string -> Date
}.

(** The React state of [App], the variable [streamContent] captured by the
    fragment callback of the submission in flight, and the observable
    effects: every value the transcript has taken, the local storage, the
    network calls made, the confirmation prompts shown, and the number of
    clock readings taken. *)
Record World := mkWorld {
  messages : list Message.t;
  isLoading : bool;
  isStreaming : bool;
  isThinking : bool;
  error : option string;
  streamContent : string;
  transcripts : list (list Message.t);
  localStorage : gmap string StoredText;
  network : list NetworkCall;
  prompts : list string;
  clockReads : nat
}.

Definition STORAGE_KEY : string := "zuno_chat_history".

(** ** Computations: state passing with exceptions *)

Inductive Outcome (A : Type) :=
  | Returned (a : A)
  | Thrown (e : Js.Error).
Arguments Returned {A} a.
Arguments Thrown {A} e.

Definition M (A : Type) : Type := World -> Outcome A * World.

Definition ret {A} (a : A) : M A := fun w => (Returned a, w).

Definition throw {A} (e : Js.Error) : M A := fun w => (Thrown e, w).

Definition bind {A B} (m : M A) (k : A -> M B) : M B :=
  fun w =>
    match m w with
    | (Returned a, w') => k a w'
    | (Thrown e, w') => (Thrown e, w')
    end.

Notation "x <- c1 ;; c2" := (bind c1 (fun x => c2))
  (at level 100, c1 at next level, right associativity).
Notation "c1 ;; c2" := (bind c1 (fun _ => c2))
  (at level 100, right associativity).

(** [try { body } catch (err) { handler }]. *)
Definition tryCatch {A} (body : M A) (handler : Js.Error -> M A) : M A :=
  fun w =>
    match body w with
    | (Returned a, w') => (Returned a, w')
    | (Thrown e, w') => handler e w'
    end.

(** [try { body } finally { cleanup }]. *)
Definition tryFinally {A} (body : M A) (cleanup : M unit) : M A :=
  fun w =>
    match body w with
    | (r, w') =>
        match cleanup w' with
        | (Returned _, w'') => (r, w'')
        | (Thrown e, w'') => (Thrown e, w'')
        end
    end.

Definition get {A} (f : World -> A) : M A := fun w => (Returned (f w), w).

Definition modify (f : World -> World) : M unit := fun w => (Returned tt, f w).

(** The world a computation leaves, and its outcome. *)
Definition exec {A} (m : M A) (w : World) : World := (m w).2.
Definition outcome {A} (m : M A) (w : World) : Outcome A := (m w).1.

(** *** Updates of the world *)

Definition withMessages (ms : list Message.t) (w : World) : World :=
  mkWorld ms (isLoading w) (isStreaming w) (isThinking w) (error w)
          (streamContent w) (transcripts w ++ [ms]) (localStorage w)
          (network w) (prompts w) (clockReads w).

Definition withIsLoading (b : bool) (w : World) : World :=
  mkWorld (messages w) b (isStreaming w) (isThinking w) (error w)
          (streamContent w) (transcripts w) (localStorage w)
          (network w) (prompts w) (clockReads w).

Definition withIsStreaming (b : bool) (w : World) : World :=
  mkWorld (messages w) (isLoading w) b (isThinking w) (error w)
          (streamContent w) (transcripts w) (localStorage w)
          (network w) (prompts w) (clockReads w).

Definition withIsThinking (b : bool) (w : World) : World :=
  mkWorld (messages w) (isLoading w) (isStreaming w) b (error w)
          (streamContent w) (transcripts w) (localStorage w)
          (network w) (prompts w) (clockReads w).

Definition withError (e : option string) (w : World) : World :=
  mkWorld (messages w) (isLoading w) (isStreaming w) (isThinking w) e
          (streamContent w) (transcripts w) (localStorage w)
          (network w) (prompts w) (clockReads w).

Definition withStreamContent (s : string) (w : World) : World :=
  mkWorld (messages w) (isLoading w) (isStreaming w) (isThinking w) (error w)
          s (transcripts w) (localStorage w)
          (network w) (prompts w) (clockReads w).

Definition withLocalStorage (st : gmap string StoredText) (w : World) : World :=
  mkWorld (messages w) (isLoading w) (isStreaming w) (isThinking w) (error w)
          (streamContent w) (transcripts w) st
          (network w) (prompts w) (clockReads w).

Definition withNetworkCall (c : NetworkCall) (w : World) : World :=
  mkWorld (messages w) (isLoading w) (isStreaming w) (isThinking w) (error w)
          (streamContent w) (transcripts w) (localStorage w)
          (network w ++ [c]) (prompts w) (clockReads w).

Definition withPrompt (p : string) (w : World) : World :=
  mkWorld (messages w) (isLoading w) (isStreaming w) (isThinking w) (error w)
          (streamContent w) (transcripts w) (localStorage w)
          (network w) (prompts w ++ [p]) (clockReads w).

Definition withClockRead (w : World) : World :=
  mkWorld (messages w) (isLoading w) (isStreaming w) (isThinking w) (error w)
          (streamContent w) (transcripts w) (localStorage w)
          (network w) (prompts w) (S (clockReads w)).

(** *** The clock, the storage and the dialogs *)

(** [Date.now()]. *)
Definition Date_now (env : Env) : M Z :=
  fun w => (Returned (clock env (clockReads w)), withClockRead w).

(** [new Date()]. *)
Definition new_Date_now (env : Env) : M Date :=
  t <- Date_now env ;; ret (TimeValue t).

Definition localStorage_getItem (k : string) : M (option StoredText) :=
  get (fun w => localStorage w !! k).

Definition localStorage_setItem (k : string) (v : StoredText) : M unit :=
  modify (fun w => withLocalStorage (<[k := v]> (localStorage w)) w).

Definition localStorage_removeItem (k : string) : M unit :=
  modify (fun w => withLocalStorage (delete k (localStorage w)) w).

(** [confirm(text)]: the prompt is shown and the user answers. *)
Definition window_confirm (env : Env) (text : string) : M bool :=
  fun w => (Returned (confirm env text), withPrompt text w).

(** ** [services/geminiService.ts]: the model gateway *)

Module ChatOptions.
Record t := mk { thinking : option bool; image : option ImageData.t }.
End ChatOptions.

Module ImageTaskResult.
Record t := mk { text : string; image : option ImageData.t }.
End ImageTaskResult.

(** [getAIClient]: the client holds the key. *)
Definition getAIClient (env : Env) : M string :=
  match API_KEY env with
  | Some key =>
      if Js.truthy key then ret key
      else throw (Js.new_Error "API Key is not configured in the environment.")
  | None => throw (Js.new_Error "API Key is not configured in the environment.")
  end.

Definition ai_models_generateContentStream (env : Env) (req : Request.t)
  : M Stream.t :=
  fun w =>
    match generateContentStream env req with
    | inr s => (Returned s, withNetworkCall (GenerateContentStream req) w)
    | inl e => (Thrown e, withNetworkCall (GenerateContentStream req) w)
    end.

Definition ai_models_generateContent (env : Env) (req : Request.t)
  : M Response.t :=
  fun w =>
    match generateContent env req with
    | inr r => (Returned r, withNetworkCall (GenerateContent req) w)
    | inl e => (Thrown e, withNetworkCall (GenerateContent req) w)
    end.

(** The model of a chat request. *)
Definition chatModel (options : ChatOptions.t) : string :=
  if match ChatOptions.thinking options with Some b => b | None => false end
     || match ChatOptions.image options with Some _ => true | None => false end
  then "gemini-3-pro-preview"
  else "gemini-3-flash-preview".

Definition formattedHistory (history : list Message.t) : list Content.t :=
  map (fun msg =>
         Content.mk
           (Some (match Message.role msg with
                  | USER => "user"
                  | MODEL => "model"
                  end))
           (Some [Part.ofText (Message.content msg)]))
      history.

(** The parts of the new turn: the image first when there is one. *)
Definition newTurnParts (newMessage : string) (options : ChatOptions.t)
  : list Part.t :=
  match ChatOptions.image options with
  | Some i => [Part.ofInlineData (ImageData.mk (ImageData.data i) (ImageData.mimeType i))]
  | None => []
  end ++ [Part.ofText newMessage].

Definition chatConfig (options : ChatOptions.t) : Config.t :=
  Config.mk
    "You are Zuno, a helpful AI assistant. Format your responses with clear markdown. Be direct, intelligent, and helpful."
    (7, 10) (95, 100) 64
    (match ChatOptions.thinking options with
     | Some true => Some 32768
     | _ => None
     end).

Definition chatRequest (history : list Message.t) (newMessage : string)
    (options : ChatOptions.t) : Request.t :=
  Request.mk (chatModel options)
    (formattedHistory history
     ++ [Content.mk (Some "user") (Some (newTurnParts newMessage options))])
    (Some (chatConfig options)).

(** [c.text || ""]: the fragment a chunk delivers. *)
Definition chunkText (c : Chunk.t) : string := Js.orDefault (Chunk.text c) "".

(** [for await (const chunk of streamResponse)]: the body of the loop on
    each chunk delivered. *)
Fixpoint forAwaitChunks (onChunk : string -> M unit) (chunks : list Chunk.t)
    (fullText : string) : M string :=
  match chunks with
  | [] => ret fullText
  | c :: rest =>
      let text := chunkText c in
      onChunk text ;;
      forAwaitChunks onChunk rest (fullText +:+ text)
  end.

(** What the [catch] block of [startChatStream] throws for [error]. *)
Definition gatewayError (error : Js.Error) : Js.Error :=
  if match Js.message error with
     | Some m => Js.includes m "entity was not found"
     | None => false
     end
  then Js.new_Error "The API configuration seems invalid. Please check your project settings."
  else error.

Definition startChatStream (env : Env) (history : list Message.t)
    (newMessage : string) (onChunk : string -> M unit)
    (options : ChatOptions.t) : M string :=
  _ <- getAIClient env ;;
  tryCatch
    (streamResponse <- ai_models_generateContentStream env
                         (chatRequest history newMessage options) ;;
     fullText <- forAwaitChunks onChunk (Stream.chunks streamResponse) "" ;;
     match Stream.failure streamResponse with
     | Some e => throw e
     | None => ret fullText
     end)
    (fun error => throw (gatewayError error)).

(** [response.candidates?.[0]?.content?.parts]. *)
Definition responseParts (response : Response.t) : option (list Part.t) :=
  cs ← Response.candidates response;
  c ← head cs;
  ct ← Candidate.content c;
  Content.parts ct.

(** The body of the loop over the parts, on the pair
    [(resultText, resultImage)]. *)
Definition scanPart (acc : string * option ImageData.t) (part : Part.t)
  : string * option ImageData.t :=
  match Part.inlineData part with
  | Some d => (acc.1, Some (ImageData.mk (ImageData.data d) (ImageData.mimeType d)))
  | None =>
      match Part.text part with
      | Some t => if Js.truthy t then (acc.1 +:+ t, acc.2) else acc
      | None => acc
      end
  end.

Definition scanResponse (response : Response.t) : string * option ImageData.t :=
  match responseParts response with
  | Some ps => fold_left scanPart ps ("", None)
  | None => ("", None)
  end.

(** The request of an image task: the image part, when there is one, is
    put before the text part. *)
Definition imageTaskRequest (prompt : string) (imageData : option ImageData.t)
  : Request.t :=
  let model := "gemini-2.5-flash-image" in
  let parts :=
    (match imageData with
     | Some i => [Part.ofInlineData (ImageData.mk (ImageData.data i) (ImageData.mimeType i))]
     | None => []
     end ++ [Part.ofText prompt])%list in
  Request.mk model [Content.mk None (Some parts)] None.

Definition processImageTask (env : Env) (prompt : string)
    (imageData : option ImageData.t) : M ImageTaskResult.t :=
  _ <- getAIClient env ;;
  tryCatch
    (response <- ai_models_generateContent env
                   (imageTaskRequest prompt imageData) ;;
     let result := scanResponse response in
     ret (ImageTaskResult.mk
            (Js.orElse result.1 "Here is your edited image.")
            result.2))
    (fun error => throw error).

(** ** [App.tsx]: the orchestrator *)

Definition setError (e : option string) : M unit := modify (withError e).
Definition setIsLoading (b : bool) : M unit := modify (withIsLoading b).
Definition setIsStreaming (b : bool) : M unit := modify (withIsStreaming b).
Definition setIsThinking (b : bool) : M unit := modify (withIsThinking b).

(** The persist effect, which React runs when [messages] has changed. *)
Definition persistEffect : M unit :=
  ms <- get messages ;;
  if 0 <? Z.of_nat (length ms)
  then localStorage_setItem STORAGE_KEY (Json.stringify ms)
  else ret tt.

(** [setMessages(prev => update(prev))]. Updates are applied in the order
    they are queued, and the persist effect follows each new value. *)
Definition setMessages (update : list Message.t -> list Message.t) : M unit :=
  modify (fun w => withMessages (update (messages w)) w) ;;
  persistEffect.

(** [if (savedHistory)]: the stored text is not the empty string. *)
Definition truthyText (text : StoredText) : bool :=
  match text with
  | Document _ => true
  | Malformed raw => Js.truthy raw
  end.

(** The hydrate effect, run once when the application starts. A document
    that is not an array of messages is outside the typed model; the
    transcript is then left as it is. *)
Definition hydrateEffect (env : Env) : M unit :=
  savedHistory <- localStorage_getItem STORAGE_KEY ;;
  match savedHistory with
  | Some text =>
      if truthyText text then
        tryCatch
          (match Json.parse text with
           | inl err => throw err
           | inr parsed =>
               match Json.hydrateMessages (legacyDateParse env) parsed with
               | Some hydratedMessages => setMessages (fun _ => hydratedMessages)
               | None => ret tt
               end
           end)
          (fun err => ret tt)
      else ret tt
  | None => ret tt
  end.

Definition editIntent : RegExp.t :=
  RegExp.mk ["filter"; "add"; "remove"; "change"; "replace"; "edit"; "make"] true.

(** [image && !isThinking && /.../i.test(content)]. *)
Definition isEditRequest (content : string) (image : option ImageData.t)
    (thinking : bool) : bool :=
  match image with
  | Some _ => negb thinking && RegExp.test editIntent content
  | None => false
  end.

Inductive Path := ImageEditPath | ChatStreamPath.

(** [if (isEditRequest && image) ... else ...]. *)
Definition route (content : string) (image : option ImageData.t)
    (thinking : bool) : Path :=
  if isEditRequest content image thinking
     && match image with Some _ => true | None => false end
  then ImageEditPath
  else ChatStreamPath.

(** The update of the transcript made for a fragment. *)
Definition overwriteContent (modelMessageId streamContent : string)
    (prev : list Message.t) : list Message.t :=
  map (fun msg =>
         if String.eqb (Message.id msg) modelMessageId
         then Message.withContent msg streamContent
         else msg)
      prev.

(** The fragment callback passed to [startChatStream]. *)
Definition onChunk (modelMessageId : string) (chunk : string) : M unit :=
  modify (fun w => withStreamContent (streamContent w +:+ chunk) w) ;;
  current <- get streamContent ;;
  setMessages (overwriteContent modelMessageId current).

Definition imageEditPath (env : Env) (content : string) (image : ImageData.t)
    (modelMessageId : string) : M unit :=
  response <- processImageTask env (Js.orElse content "Process this image")
                (Some image) ;;
  let finalImage :=
    match ImageTaskResult.image response with
    | Some fi =>
        Some (ImageData.mk
                (applyWatermark env (ImageData.data fi) (ImageData.mimeType fi))
                (ImageData.mimeType fi))
    | None => None
    end in
  now <- new_Date_now env ;;
  let modelMessage :=
    Message.mk modelMessageId MODEL (ImageTaskResult.text response) now finalImage in
  setMessages (fun prev => prev ++ [modelMessage]).

Definition chatStreamPath (env : Env) (content : string)
    (image : option ImageData.t) (thinking : bool)
    (snapshot : list Message.t) (userMessage : Message.t)
    (modelMessageId : string) : M unit :=
  modify (withStreamContent "") ;;
  now <- new_Date_now env ;;
  let initialModelMessage := Message.mk modelMessageId MODEL "" now None in
  let historyForAPI := snapshot ++ [userMessage] in
  setMessages (fun prev => prev ++ [initialModelMessage]) ;;
  setIsStreaming true ;;
  setIsLoading false ;;
  _ <- startChatStream env (removelast historyForAPI)
         (Js.orElse content "Analyze the uploaded content")
         (onChunk modelMessageId)
         (ChatOptions.mk (Some thinking) image) ;;
  ret tt.

(** The message shown for a failure. *)
Definition errorContent (err : Js.Error) : string :=
  "**Error:** "
  +:+ Js.orDefault (Js.message err)
        "I'm having trouble processing that request. Please try again.".

(** The update of the transcript made by the [catch] block. *)
Definition reconcileError (errorMessage : Message.t) (prev : list Message.t)
  : list Message.t :=
  match last prev with
  | Some lastMsg =>
      if Role_eqb (Message.role lastMsg) MODEL
         && String.eqb (Message.content lastMsg) ""
      then removelast prev ++ [errorMessage]
      else prev ++ [errorMessage]
  | None => prev ++ [errorMessage]
  end.

Definition catchBlock (env : Env) (err : Js.Error) : M unit :=
  setError (Some (Js.orDefault (Js.message err) "An unexpected error occurred.")) ;;
  t <- Date_now env ;;
  now <- new_Date_now env ;;
  let errorMessage :=
    Message.mk (Js.Number_toString t) MODEL (errorContent err) now None in
  setMessages (reconcileError errorMessage).

(** What the handler holds when it enters its [try] block: the transcript
    of the render it was created in, the mode flag and the user's message. *)
Module Submission.
Record t := mk {
  snapshot : list Message.t;
  thinking : bool;
  userMessage : Message.t
}.
End Submission.

(** [handleSendMessage] up to its [try] block. *)
Definition beginSubmission (env : Env) (content : string)
    (image : option ImageData.t) : M Submission.t :=
  snapshot <- get messages ;;
  thinking <- get isThinking ;;
  setError None ;;
  t <- Date_now env ;;
  now <- new_Date_now env ;;
  let userMessage :=
    Message.mk (Js.Number_toString t) USER
      (Js.orElse content
         (match image with Some _ => "Analyze this image" | None => "" end))
      now image in
  setMessages (fun prev => prev ++ [userMessage]) ;;
  setIsLoading true ;;
  ret (Submission.mk snapshot thinking userMessage).

Definition tryBlock (env : Env) (content : string)
    (image : option ImageData.t) (sub : Submission.t) : M unit :=
  t1 <- Date_now env ;;
  let modelMessageId := Js.Number_toString (t1 + 1) in
  match route content image (Submission.thinking sub), image with
  | ImageEditPath, Some img => imageEditPath env content img modelMessageId
  | _, _ =>
      chatStreamPath env content image (Submission.thinking sub)
        (Submission.snapshot sub) (Submission.userMessage sub) modelMessageId
  end.

Definition finallyBlock : M unit :=
  setIsLoading false ;; setIsStreaming false.

Definition handleSendMessage (env : Env) (content : string)
    (image : option ImageData.t) : M unit :=
  sub <- beginSubmission env content image ;;
  tryFinally
    (tryCatch (tryBlock env content image sub) (catchBlock env))
    finallyBlock.

Definition handleNewChat (env : Env) : M unit :=
  ms <- get messages ;;
  if Nat.eqb (length ms) 0 then ret tt
  else
    confirmed <- window_confirm env "Start a new chat? Current history will be cleared." ;;
    if confirmed then
      setMessages (fun _ => []) ;;
      setError None ;;
      localStorage_removeItem STORAGE_KEY
    else ret tt.

(** The thinking-mode button. *)
Definition toggleThinking : M unit :=
  thinking <- get isThinking ;;
  setIsThinking (negb thinking).

(** The application as it starts on a given local storage. *)
Definition initialWorld (storage : gmap string StoredText) : World :=
  mkWorld [] false false false None "" [] storage [] [] 0.

(** ** The words of the specification, for comparison with the code *)

Module Spec.

(** The edit-intent keywords. *)
Definition keywords : list string :=
  ["filter"; "add"; "remove"; "change"; "replace"; "edit"; "make"].

Definition lowerChar (c : ascii) : ascii :=
  let n := Z.of_N (N_of_ascii c) in
  if (65 <=? n) && (n <=? 90) then ascii_of_N (N_of_ascii c + 32) else c.

Fixpoint toLowerCase (s : string) : string :=
  match s with
  | EmptyString => EmptyString
  | String c rest => String (lowerChar c) (toLowerCase rest)
  end.

(** [kw] is present in [s], letter case ignored: some run of [s] reads as
    [kw] once both are put in lower case. *)
Definition containsIgnoringCase (kw s : string) : Prop :=
  exists before run after,
    s = before +:+ run +:+ after /\ toLowerCase run = toLowerCase kw.

(** The text matches the edit-intent pattern. *)
Definition editIntent (s : string) : Prop :=
  exists kw, In kw keywords /\ containsIgnoringCase kw s.

(** The concatenation of texts, in their order. *)
Definition joinAll (texts : list string) : string :=
  fold_right String.append "" texts.

(** A timestamp that is a point in time: a time value a [Date] can hold. *)
Definition pointInTime (d : Date) : Prop :=
  match d with
  | TimeValue t => - DateTime.maxTime <= t <= DateTime.maxTime
  | InvalidDate => False
  end.

(** A message whose timestamp is a point in time. *)
Definition timestamped (m : Message.t) : Prop :=
  pointInTime (Message.timestamp m).

(** The texts of the text parts of a response, in order, and the data of
    its inline-data parts. *)
Definition textParts (ps : list Part.t) : list string := omap Part.text ps.

Definition inlineDataParts (ps : list Part.t) : list ImageData.t :=
  omap Part.inlineData ps.

(** A part as the provider builds it: it carries one kind of payload. *)
Definition onePayload (p : Part.t) : Prop :=
  Part.text p = None \/ Part.inlineData p = None.

Definition caption : string := "Here is your edited image.".

(** No credential is configured: the variable is unset or empty. *)
Definition noCredential (env : Env) : Prop :=
  API_KEY env = None \/ API_KEY env = Some "".

(** A content of a request carries an image. *)
Definition carriesImage (c : Content.t) : Prop :=
  exists ps p, Content.parts c = Some ps /\ In p ps /\ Part.inlineData p <> None.

(** A fragment callback that makes no call to the provider. *)
Definition makesNoCall (onFragment : string -> M unit) : Prop :=
  forall text w, network (exec (onFragment text) w) = network w.

(** The provider's name for the author of a message. *)
Definition providerRole (r : Role) : string :=
  match r with
  | USER => "user"
  | MODEL => "model"
  end.

(** The last entry of a transcript is a MODEL message with empty content. *)
Definition endsWithEmptyModelMessage (ms : list Message.t) : Prop :=
  exists lastMsg,
    last ms = Some lastMsg
    /\ Message.role lastMsg = MODEL /\ Message.content lastMsg = "".

End Spec.

(** ** Auxiliary definitions *)

(** Every character, for the checks made character by character. *)
Definition allAscii : list ascii :=
  map (fun n => ascii_of_N (N.of_nat n)) (seq 0 256).

(** *** Worlds reached while a handler runs *)

(** What the persist effect leaves in the storage for a transcript. *)
Definition persisted (ms : list Message.t) (storage : gmap string StoredText)
  : gmap string StoredText :=
  if 0 <? Z.of_nat (length ms)
  then <[STORAGE_KEY := Json.stringify ms]> storage
  else storage.

(** The world after a fragment has been delivered to the callback. *)
Definition deliver (modelMessageId : string) (w : World) (text : string) : World :=
  exec (onChunk modelMessageId text) w.

(** The world after the fragments [texts] have been delivered in order. *)
Definition delivered (mid : string) (texts : list string) (w : World) : World :=
  fold_left (deliver mid) texts w.

(** The message built for the text and image submitted in world [w], from
    the next two readings of the clock. *)
Definition userMessageOf (env : Env) (content : string)
    (image : option ImageData.t) (w : World) : Message.t :=
  Message.mk (Js.Number_toString (clock env (clockReads w))) USER
    (Js.orElse content
       (match image with Some _ => "Analyze this image" | None => "" end))
    (TimeValue (clock env (S (clockReads w)))) image.

(** The world when the handler enters its [try] block. *)
Definition submitted (env : Env) (content : string)
    (image : option ImageData.t) (w : World) : World :=
  exec (beginSubmission env content image) w.

(** The id given to the model's message of the submission made in [w]. *)
Definition modelMessageIdOf (env : Env) (w : World) : string :=
  Js.Number_toString (clock env (S (S (clockReads w))) + 1).

(** The placeholder of that submission, holding [text]. *)
Definition placeholderOf (env : Env) (w : World) (text : string) : Message.t :=
  Message.mk (modelMessageIdOf env w) MODEL text
    (TimeValue (clock env (S (S (S (clockReads w)))))) None.

(** The request the chat-stream path sends for a submission made in [w]. *)
Definition chatRequestOf (content : string) (image : option ImageData.t)
    (w : World) : Request.t :=
  chatRequest (messages w)
    (Js.orElse content "Analyze the uploaded content")
    (ChatOptions.mk (Some (isThinking w)) image).

(** The world of the chat-stream path when its request has gone out: the
    placeholder is in the transcript and the flags say "streaming". *)
Definition streamOpened (env : Env) (content : string)
    (image : option ImageData.t) (w : World) : World :=
  let w1 := submitted env content image w in
  let ms := messages w1 ++ [placeholderOf env w ""] in
  withNetworkCall (GenerateContentStream (chatRequestOf content image w))
    (withIsLoading false
       (withIsStreaming true
          (withLocalStorage (persisted ms (localStorage w1))
             (withMessages ms
                (withClockRead (withStreamContent "" (withClockRead w1))))))).

(** The message the [catch] block builds for [err] in world [w]. *)
Definition errorMessageOf (env : Env) (err : Js.Error) (w : World) : Message.t :=
  Message.mk (Js.Number_toString (clock env (clockReads w))) MODEL
    (errorContent err) (TimeValue (clock env (S (clockReads w)))) None.

(** *** A small program logic for invariants of the world *)

(** Every timestamp of the transcript is a point in time. *)
Definition timestampsValid (w : World) : Prop :=
  Forall Spec.timestamped (messages w).

(** [m] keeps the invariant [I] whatever its outcome, and a value it
    returns satisfies [R]. *)
Definition keeps {A} (I : World -> Prop) (R : A -> Prop) (m : M A) : Prop :=
  forall w, I w ->
    I (exec m w) /\ forall a, outcome m w = Returned a -> R a.

(** ** Concrete environments, for the examples *)

Module Example.

Definition helloStream : Stream.t :=
  Stream.mk [Chunk.mk (Some "Hel"); Chunk.mk (Some "lo, "); Chunk.mk (Some "world")]
            None.

Definition picture : ImageData.t := ImageData.mk "iVBORw0KGgo=" "image/png".

Definition editedParts : list Part.t :=
  [Part.ofText "Done: ";
   Part.ofInlineData (ImageData.mk "AAAA" "image/png");
   Part.ofText "sepia applied.";
   Part.ofInlineData (ImageData.mk "BBBB" "image/png")].

Definition edited : Response.t :=
  Response.mk
    (Some [Candidate.mk (Some (Content.mk (Some "model") (Some editedParts)))]).

(** A configured key, a provider that streams "Hel", "lo, ", "world" and
    answers an image task with [edited], a clock that advances by one
    millisecond per reading, a user who confirms. *)
Definition env : Env :=
  mkEnv (Some "test-key")
        (fun _ => inr helloStream)
        (fun _ => inr edited)
        (fun n => 1700000000000 + Z.of_nat n)
        (fun _ => true)
        (fun d _ => d)
        (fun _ => InvalidDate).

(** The same, without a credential. *)
Definition envWithoutKey : Env :=
  mkEnv None (generateContentStream env) (generateContent env) (clock env)
        (confirm env) (applyWatermark env) (legacyDateParse env).

(** The same, with a provider that fails every call with [e]. *)
Definition envFailing (e : Js.Error) : Env :=
  mkEnv (API_KEY env) (fun _ => inl e) (fun _ => inl e) (clock env)
        (confirm env) (applyWatermark env) (legacyDateParse env).

(** A transcript of one earlier exchange. *)
Definition earlier : list Message.t :=
  [Message.mk "1699999990000" USER "What is in this image?"
     (TimeValue 1699999990000) (Some picture);
   Message.mk "1699999990002" MODEL "A cat on a sofa."
     (TimeValue 1699999990003) None].

Definition worldWith (ms : list Message.t) : World :=
  mkWorld ms false false false None "" [ms] (persisted ms ∅) [] [] 0.

End Example.

(** ** [components/ChatInput.tsx]: the draft of a message *)

Module ChatInput.

(** A call made on the speech recogniser. *)
Inductive RecognitionCall := Start | Stop.

(** What the component takes from the browser: [String.prototype.trim],
    and whether a speech recogniser exists ([recognitionRef.current] is set
    when the component mounts only if it does). *)
Record Platform := mkPlatform {
  trim : string -> string;
  speechRecognition : bool
}.

(** The state of the component, and the calls made on the recogniser. *)
Record t := mk {
  input : string;
  isListening : bool;
  selectedImage : option ImageData.t;
  imagePreview : option string;
  recognitionCalls : list RecognitionCall
}.

Definition initial : t := mk "" false None None [].

(** One entry of [event.results]: its first alternative's transcript. *)
Module SpeechResult.
Record t := mk { isFinal : bool; transcript : string }.
End SpeechResult.

Module SpeechEvent.
Record t := mk { resultIndex : nat; results : list SpeechResult.t }.
End SpeechEvent.

(** [recognitionRef.current?.stop()] and [recognitionRef.current?.start()]. *)
Definition callRecognition (p : Platform) (c : RecognitionCall) (st : t) : t :=
  if speechRecognition p
  then mk (input st) (isListening st) (selectedImage st) (imagePreview st)
          (recognitionCalls st ++ [c])
  else st.

Definition setInput (update : string -> string) (st : t) : t :=
  mk (update (input st)) (isListening st) (selectedImage st) (imagePreview st)
     (recognitionCalls st).

Definition setIsListening (b : bool) (st : t) : t :=
  mk (input st) b (selectedImage st) (imagePreview st) (recognitionCalls st).

(** The loop of [onresult] over the results from [resultIndex] on. *)
Fixpoint collectFinal (rs : list SpeechResult.t) (finalTranscript : string)
  : string :=
  match rs with
  | [] => finalTranscript
  | r :: rest =>
      collectFinal rest
        (if SpeechResult.isFinal r
         then finalTranscript +:+ SpeechResult.transcript r
         else finalTranscript)
  end.

(** [recognition.onresult]. *)
Definition onresult (p : Platform) (event : SpeechEvent.t) (st : t) : t :=
  let finalTranscript :=
    collectFinal (drop (SpeechEvent.resultIndex event) (SpeechEvent.results event))
                 "" in
  if Js.truthy finalTranscript
  then setInput (fun prev =>
                   let trimmed := trim p prev in
                   if Js.truthy trimmed
                   then trimmed +:+ " " +:+ finalTranscript
                   else finalTranscript)
                st
  else st.

(** [recognition.onerror] and [recognition.onend]. *)
Definition onend (st : t) : t := setIsListening false st.

Definition toggleListening (p : Platform) (st : t) : t :=
  if isListening st
  then callRecognition p Stop st
  else setIsListening true (callRecognition p Start st).

(** [s.split(",")]: the runs of [s] between commas. *)
Fixpoint splitAtCommas (s : string) : list string :=
  match s with
  | EmptyString => [EmptyString]
  | String c rest =>
      if Ascii.eqb c ","
      then EmptyString :: splitAtCommas rest
      else match splitAtCommas rest with
           | seg :: segs => String c seg :: segs
           | [] => [String c EmptyString]
           end
  end.

(** The file chosen: its [type], and [reader.result] when the reader is
    done, which is null when the file could not be read. *)
Module File.
Record t := mk { type : string; result : option string }.
End File.

(** [handleImageUpload] with the [onloadend] of its reader. When the file
    could not be read the callback throws before it updates the state.
    [None] when the text read has no comma: [data] would be [undefined],
    which the type of the image does not have. *)
Definition handleImageUpload (files : list File.t) (st : t) : option t :=
  match head files with
  | Some file =>
      match File.result file with
      | Some result =>
          base64 ← splitAtCommas result !! 1%nat;
          Some (mk (input st) (isListening st)
                   (Some (ImageData.mk base64 (File.type file)))
                   (Some result)
                   (recognitionCalls st))
      | None => Some st
      end
  | None => Some st
  end.

Definition removeImage (st : t) : t :=
  mk (input st) (isListening st) None None (recognitionCalls st).

(** [handleSubmit]: the new state, and the arguments of [onSendMessage]
    when it is called. *)
Definition handleSubmit (p : Platform) (isLoading : bool) (st : t)
  : t * option (string * option ImageData.t) :=
  if (Js.truthy (trim p (input st))
      || match selectedImage st with Some _ => true | None => false end)
     && negb isLoading
  then
    let st1 := if isListening st then callRecognition p Stop st else st in
    (mk "" (isListening st1) None None (recognitionCalls st1),
     Some (trim p (input st), selectedImage st))
  else (st, None).

(** [handleKeyDown]: Enter without Shift submits. *)
Definition handleKeyDown (p : Platform) (isLoading : bool) (key : string)
    (shiftKey : bool) (st : t) : t * option (string * option ImageData.t) :=
  if String.eqb key "Enter" && negb shiftKey
  then handleSubmit p isLoading st
  else (st, None).

(** The [disabled] attribute of the submit button. *)
Definition submitDisabled (p : Platform) (isLoading : bool) (st : t) : bool :=
  (negb (Js.truthy (trim p (input st)))
   && negb (match selectedImage st with Some _ => true | None => false end))
  || isLoading.

End ChatInput.

(** ** [components/ChatMessage.tsx] *)

Module ChatMessage.

(** The address the image of a message is shown from. *)
Definition imageUrl (message : Message.t) : option string :=
  match Message.image message with
  | Some i =>
      Some ("data:" +:+ ImageData.mimeType i +:+ ";base64," +:+ ImageData.data i)
  | None => None
  end.

(** The copy button is shown for a MODEL message with content. *)
Definition showsCopyButton (message : Message.t) : bool :=
  negb (Role_eqb (Message.role message) USER)
  && Js.truthy (Message.content message).

End ChatMessage.

(** ** [App.tsx]: the input wired to the handler

    [<ChatInput onSendMessage={handleSendMessage}
                isLoading={isLoading || isStreaming} />]: a submit of the
    draft, on the draft and on the world. *)
Definition submitDraft (env : Env) (p : ChatInput.Platform)
    (st : ChatInput.t) (w : World) : ChatInput.t * World :=
  match ChatInput.handleSubmit p (isLoading w || isStreaming w) st with
  | (st', Some (text, image)) => (st', exec (handleSendMessage env text image) w)
  | (st', None) => (st', w)
  end.

(** A text without a comma. *)
Definition commaFree (s : string) : Prop :=
  ~ In ","%char (list_ascii_of_string s).

(** The transcript has entries and the storage holds its serialisation. *)
Definition stored (w : World) : Prop :=
  messages w <> []
  /\ localStorage w !! STORAGE_KEY = Some (Json.stringify (messages w)).

(** The parts of a response that carry no inline data. *)
Definition withoutInlineData (ps : list Part.t) : list Part.t :=
  List.filter (fun p => match Part.inlineData p with
                        | Some _ => false
                        | None => true
                        end) ps.

(** ** More concrete situations, for the examples *)

Module Scenario.

(** A provider whose stream delivers "Hel" and "lo" and then fails. *)
Definition envInterrupted (e : Js.Error) : Env :=
  mkEnv (API_KEY Example.env)
        (fun _ => inr (Stream.mk [Chunk.mk (Some "Hel"); Chunk.mk (Some "lo")]
                                 (Some e)))
        (generateContent Example.env) (clock Example.env)
        (confirm Example.env) (applyWatermark Example.env)
        (legacyDateParse Example.env).

(** The environment of the examples with a watermark that marks the data,
    and a clock that stops advancing long before the last time a [Date]
    can hold. *)
Definition envSteady : Env :=
  mkEnv (API_KEY Example.env) (generateContentStream Example.env)
        (generateContent Example.env)
        (fun n => 1700000000000 + Z.min (Z.of_nat n) 1000000)
        (confirm Example.env)
        (fun d _ => d +:+ "+mark")
        (legacyDateParse Example.env).

(** An answer to an image task whose first part carries a text and an
    image at once, with a second candidate. *)
Definition captioned : list Candidate.t :=
  [Candidate.mk
     (Some (Content.mk None
              (Some [Part.mk (Some "a caption") (Some Example.picture);
                     Part.ofText "Done."])));
   Candidate.mk (Some (Content.mk None (Some [Part.ofText "ignored"])))].

Definition envCaptioned : Env :=
  mkEnv (API_KEY Example.env) (generateContentStream Example.env)
        (fun _ => inr (Response.mk (Some captioned)))
        (clock Example.env) (confirm Example.env)
        (applyWatermark Example.env) (legacyDateParse Example.env).

(** A browser that trims spaces, with a speech recogniser. *)
Fixpoint dropSpaces (s : string) : string :=
  match s with
  | String " " rest => dropSpaces rest
  | _ => s
  end.

Definition reverse (s : string) : string :=
  string_of_list_ascii (rev (list_ascii_of_string s)).

Definition browser : ChatInput.Platform :=
  ChatInput.mkPlatform
    (fun s => reverse (dropSpaces (reverse (dropSpaces s))))
    true.

(** A draft with text and a picture, while dictation is on. *)
Definition draft : ChatInput.t :=
  ChatInput.mk "  make it brighter " true (Some Example.picture)
               (Some "data:image/png;base64,iVBORw0KGgo=") [ChatInput.Start].

End Scenario.

(** * Theorems *)

(** ** Strings and the edit-intent pattern *)

Section Strings.

Lemma append_cons (c : ascii) (s t : string) :
  String c s +:+ t = String c (s +:+ t).
Proof. reflexivity. Qed.

Lemma append_nil_l (s : string) : "" +:+ s = s.
Proof. reflexivity. Qed.

Lemma append_nil_r (s : string) : s +:+ "" = s.
Proof.
  induction s as [|c s IH]; [reflexivity | now rewrite append_cons, IH].
Qed.

Lemma append_assoc (a b c : string) : (a +:+ b) +:+ c = a +:+ (b +:+ c).
Proof.
  induction a as [|x a IH]; [reflexivity | now rewrite !append_cons, IH].
Qed.

Lemma allAscii_complete (a : ascii) : In a allAscii.
Proof.
  assert (H : existsb (Ascii.eqb a) allAscii = true).
  { destruct a as [[] [] [] [] [] [] [] []]; vm_compute; reflexivity. }
  apply existsb_exists in H. destruct H as [b [Hin Heq]].
  apply Ascii.eqb_eq in Heq. now subst.
Qed.

Lemma sameCharacter_lowerChar (a b : ascii) :
  RegExp.sameCharacter true a b = true <-> Spec.lowerChar a = Spec.lowerChar b.
Proof.
  assert (H : forallb (fun x => forallb (fun y =>
              Bool.eqb (RegExp.sameCharacter true x y)
                       (Ascii.eqb (Spec.lowerChar x) (Spec.lowerChar y)))
              allAscii) allAscii = true) by (vm_compute; reflexivity).
  rewrite forallb_forall in H. specialize (H a (allAscii_complete a)).
  rewrite forallb_forall in H. specialize (H b (allAscii_complete b)).
  apply Bool.eqb_prop in H. rewrite H. apply Ascii.eqb_eq.
Qed.

Lemma matchLiteral_run (lit s : string) :
  RegExp.matchLiteral true lit s = true
  <-> exists run after,
        s = run +:+ after /\ Spec.toLowerCase run = Spec.toLowerCase lit.
Proof.
  revert s. induction lit as [|a lit IH]; intros s.
  - split; [intros _ | reflexivity]. exists "", s. now split.
  - destruct s as [|b s].
    + split; [discriminate |]. intros (run & after & Hs & Hl).
      destruct run; [discriminate Hl | discriminate Hs].
    + cbn [RegExp.matchLiteral]. rewrite andb_true_iff, sameCharacter_lowerChar, IH.
      split.
      * intros (Hc & run & after & -> & Hl). exists (String b run), after.
        split; [reflexivity |]. cbn [Spec.toLowerCase]. now rewrite Hc, Hl.
      * intros (run & after & Hs & Hl). destruct run as [|c run]; [discriminate Hl |].
        rewrite append_cons in Hs. injection Hs as -> ->.
        cbn [Spec.toLowerCase] in Hl. injection Hl as Hc Hl.
        split; [now symmetry |]. now exists run, after.
Qed.

Lemma test_somewhere (r : RegExp.t) (s : string) :
  RegExp.test r s = true
  <-> exists before rest, s = before +:+ rest /\ RegExp.matchHere r rest = true.
Proof.
  induction s as [|c s IH]; cbn [RegExp.test]; rewrite orb_true_iff.
  - split.
    + intros [H | H]; [| discriminate]. now exists "", "".
    + intros (before & rest & Hs & H). left.
      destruct before; [| discriminate Hs]. now rewrite Hs.
  - rewrite IH. split.
    + intros [H | (before & rest & -> & H)].
      * now exists "", (String c s).
      * now exists (String c before), rest.
    + intros (before & rest & Hs & H). destruct before as [|b before].
      * left. now rewrite Hs.
      * right. rewrite append_cons in Hs. injection Hs as -> ->.
        now exists before, rest.
Qed.

(** The pattern of the program accepts exactly the texts in which one of
    the keywords is present, letter case ignored. *)
Lemma editIntent_test (s : string) :
  RegExp.test editIntent s = true <-> Spec.editIntent s.
Proof.
  rewrite test_somewhere. unfold Spec.editIntent, Spec.containsIgnoringCase.
  split.
  - intros (before & rest & -> & H). unfold RegExp.matchHere in H.
    apply existsb_exists in H. destruct H as (kw & Hin & H).
    apply matchLiteral_run in H. destruct H as (run & after & -> & Hl).
    exists kw. split; [exact Hin |]. now exists before, run, after.
  - intros (kw & Hin & before & run & after & -> & Hl).
    exists before, (run +:+ after). split; [reflexivity |].
    unfold RegExp.matchHere. apply existsb_exists. exists kw.
    split; [exact Hin |]. apply matchLiteral_run. now exists run, after.
Qed.

End Strings.

(** ** Routing of a submission *)

(** C1. A submission takes the image-edit path exactly when an image is
    attached, thinking mode is off and the text contains one of the
    keywords filter, add, remove, change, replace, edit, make in any letter
    case; without an image, with thinking mode on, or without a keyword it
    takes the chat-stream path. *)
Theorem route_image_edit_iff (content : string) (image : option ImageData.t)
    (thinking : bool) :
  (route content image thinking = ImageEditPath
   <-> (exists img, image = Some img) /\ thinking = false
       /\ Spec.editIntent content)
  /\ (image = None -> route content image thinking = ChatStreamPath)
  /\ (thinking = true -> route content image thinking = ChatStreamPath)
  /\ (~ Spec.editIntent content -> route content image thinking = ChatStreamPath).
Proof.
  assert (Hiff : route content image thinking = ImageEditPath
                 <-> (exists img, image = Some img) /\ thinking = false
                     /\ Spec.editIntent content).
  { rewrite <- editIntent_test. unfold route, isEditRequest.
    destruct image as [img|], thinking,
      (RegExp.test editIntent content); cbn; split;
      try discriminate; try reflexivity;
      try (intros (_ & H1 & H2); discriminate);
      try (intros ((? & H0) & _); discriminate).
    intros _. split; [now exists img | now split]. }
  split; [exact Hiff |].
  assert (Hchat : route content image thinking <> ImageEditPath ->
                  route content image thinking = ChatStreamPath).
  { destruct (route content image thinking); [intros H; now elim H | reflexivity]. }
  repeat split; intros H; apply Hchat; rewrite Hiff.
  - intros ((img & Himg) & _). congruence.
  - intros (_ & Ht & _). congruence.
  - intros (_ & _ & He). exact (H He).
Qed.

(** ** Running the handlers *)

(** Runs the state-passing primitives of a computation applied to a world;
    the updates of the transcript and the calls of the gateway are left to
    their run lemmas. *)
Ltac run_primitives :=
  unfold bind, modify, get, ret, Date_now, new_Date_now, setError,
    setIsLoading, setIsStreaming;
  unfold bind, Date_now, ret;
  cbn -[setMessages startChatStream processImageTask].

Section Runs.

Lemma setMessages_run (update : list Message.t -> list Message.t) (w : World) :
  setMessages update w
  = (Returned tt,
     withLocalStorage (persisted (update (messages w)) (localStorage w))
       (withMessages (update (messages w)) w)).
Proof.
  unfold setMessages, persistEffect, persisted, bind, modify, get. cbn.
  destruct (0 <? Z.of_nat (length (update (messages w)))); [reflexivity |].
  unfold ret. destruct w; reflexivity.
Qed.

Lemma onChunk_run (mid text : string) (w : World) :
  onChunk mid text w = (Returned tt, deliver mid w text).
Proof.
  unfold deliver, exec, onChunk. run_primitives.
  now rewrite setMessages_run.
Qed.

Lemma deliver_messages (mid text : string) (w : World) :
  messages (deliver mid w text)
  = overwriteContent mid (streamContent w +:+ text) (messages w).
Proof.
  unfold deliver, exec, onChunk. run_primitives.
  now rewrite setMessages_run.
Qed.

Lemma deliver_streamContent (mid text : string) (w : World) :
  streamContent (deliver mid w text) = streamContent w +:+ text.
Proof.
  unfold deliver, exec, onChunk. run_primitives.
  now rewrite setMessages_run.
Qed.

Lemma deliver_transcripts (mid text : string) (w : World) :
  transcripts (deliver mid w text)
  = transcripts w ++ [overwriteContent mid (streamContent w +:+ text) (messages w)].
Proof.
  unfold deliver, exec, onChunk. run_primitives.
  now rewrite setMessages_run.
Qed.

(** A fragment touches nothing but the transcript, its copy in the storage
    and the accumulator. *)
Lemma deliver_frame (mid text : string) (w : World) :
  network (deliver mid w text) = network w
  /\ prompts (deliver mid w text) = prompts w
  /\ clockReads (deliver mid w text) = clockReads w
  /\ isLoading (deliver mid w text) = isLoading w
  /\ isStreaming (deliver mid w text) = isStreaming w
  /\ isThinking (deliver mid w text) = isThinking w
  /\ error (deliver mid w text) = error w.
Proof.
  unfold deliver, exec, onChunk. run_primitives.
  rewrite setMessages_run. cbn. repeat split.
Qed.

Lemma overwriteContent_twice (mid a b : string) (l : list Message.t) :
  overwriteContent mid a (overwriteContent mid b l) = overwriteContent mid a l.
Proof.
  unfold overwriteContent. rewrite map_map. apply map_ext. intros m.
  destruct (String.eqb (Message.id m) mid) eqn:E; cbn; now rewrite E.
Qed.

Lemma overwriteContent_length (mid c : string) (l : list Message.t) :
  length (overwriteContent mid c l) = length l.
Proof. apply length_map. Qed.

Lemma overwriteContent_app (mid c : string) (l1 l2 : list Message.t) :
  overwriteContent mid c (l1 ++ l2)
  = overwriteContent mid c l1 ++ overwriteContent mid c l2.
Proof. apply map_app. Qed.

Lemma delivered_streamContent (mid : string) (texts : list string) (w : World) :
  streamContent (delivered mid texts w) = streamContent w +:+ Spec.joinAll texts.
Proof.
  revert w. induction texts as [|t ts IH]; intros w; cbn.
  - now rewrite append_nil_r.
  - unfold delivered in IH. rewrite IH, deliver_streamContent.
    apply append_assoc.
Qed.

Lemma delivered_messages (mid : string) (texts : list string) (w : World) :
  messages (delivered mid texts w)
  = match texts with
    | [] => messages w
    | _ => overwriteContent mid (streamContent w +:+ Spec.joinAll texts) (messages w)
    end.
Proof.
  revert w. induction texts as [|t ts IH]; intros w; [reflexivity |].
  cbn [delivered fold_left]. unfold delivered in IH. rewrite IH.
  rewrite deliver_streamContent, deliver_messages.
  destruct ts as [|t' ts].
  - cbn. now rewrite append_nil_r.
  - rewrite overwriteContent_twice. f_equal. apply append_assoc.
Qed.

Lemma delivered_transcripts (mid : string) (texts : list string) (w : World) :
  transcripts (delivered mid texts w)
  = transcripts w
    ++ map (fun n => overwriteContent mid
                       (streamContent w +:+ Spec.joinAll (take n texts))
                       (messages w))
           (seq 1 (length texts)).
Proof.
  revert w. induction texts as [|t ts IH]; intros w.
  - cbn. now rewrite app_nil_r.
  - cbn [delivered fold_left]. unfold delivered in IH. rewrite IH.
    rewrite deliver_transcripts, deliver_streamContent, deliver_messages.
    rewrite <- app_assoc. f_equal. cbn [length seq map app].
    f_equal.
    + cbn. now rewrite append_nil_r.
    + rewrite <- (seq_shift (length ts) 1), map_map. apply map_ext. intros n.
      rewrite overwriteContent_twice. cbn [take Spec.joinAll fold_right].
      f_equal. apply append_assoc.
Qed.

Lemma delivered_frame (mid : string) (texts : list string) (w : World) :
  network (delivered mid texts w) = network w
  /\ prompts (delivered mid texts w) = prompts w
  /\ clockReads (delivered mid texts w) = clockReads w
  /\ isThinking (delivered mid texts w) = isThinking w
  /\ error (delivered mid texts w) = error w.
Proof.
  revert w. induction texts as [|t ts IH]; intros w; [repeat split |].
  cbn [delivered fold_left]. unfold delivered in IH.
  destruct (IH (deliver mid w t)) as (-> & -> & -> & -> & ->).
  destruct (deliver_frame mid t w) as (-> & -> & -> & _ & _ & -> & ->).
  repeat split.
Qed.

Lemma forAwaitChunks_run (mid : string) (chunks : list Chunk.t)
    (fullText : string) (w : World) :
  forAwaitChunks (onChunk mid) chunks fullText w
  = (Returned (fullText +:+ Spec.joinAll (map chunkText chunks)),
     delivered mid (map chunkText chunks) w).
Proof.
  revert fullText w. induction chunks as [|c cs IH]; intros fullText w.
  - cbn. now rewrite append_nil_r.
  - cbn [forAwaitChunks]. unfold bind. rewrite onChunk_run, IH.
    cbn. now rewrite append_assoc.
Qed.

End Runs.

Section GatewayRuns.

Variable env : Env.

Lemma getAIClient_configured (key : string) (w : World) :
  API_KEY env = Some key -> Js.truthy key = true ->
  getAIClient env w = (Returned key, w).
Proof. intros Hk Ht. unfold getAIClient. now rewrite Hk, Ht. Qed.

Lemma getAIClient_missing (w : World) :
  Spec.noCredential env ->
  getAIClient env w
  = (Thrown (Js.new_Error "API Key is not configured in the environment."), w).
Proof. intros [H | H]; unfold getAIClient; now rewrite H. Qed.

(** A chat stream with a configured key: one request goes out, every
    fragment is delivered, and the call returns the whole text or throws
    what the stream threw. *)
Lemma startChatStream_run (key mid : string) (history : list Message.t)
    (newMessage : string) (options : ChatOptions.t) (stream : Stream.t)
    (w : World) :
  API_KEY env = Some key -> Js.truthy key = true ->
  generateContentStream env (chatRequest history newMessage options) = inr stream ->
  startChatStream env history newMessage (onChunk mid) options w
  = (match Stream.failure stream with
     | Some e => Thrown (gatewayError e)
     | None => Returned (Spec.joinAll (map chunkText (Stream.chunks stream)))
     end,
     delivered mid (map chunkText (Stream.chunks stream))
       (withNetworkCall
          (GenerateContentStream (chatRequest history newMessage options)) w)).
Proof.
  intros Hk Ht Hs. unfold startChatStream, bind, tryCatch.
  rewrite (getAIClient_configured key) by assumption.
  unfold ai_models_generateContentStream. rewrite Hs.
  rewrite forAwaitChunks_run. cbn.
  destruct (Stream.failure stream); reflexivity.
Qed.

Lemma startChatStream_refused (history : list Message.t) (newMessage : string)
    (onFragment : string -> M unit) (options : ChatOptions.t) (e : Js.Error)
    (key : string) (w : World) :
  API_KEY env = Some key -> Js.truthy key = true ->
  generateContentStream env (chatRequest history newMessage options) = inl e ->
  startChatStream env history newMessage onFragment options w
  = (Thrown (gatewayError e),
     withNetworkCall
       (GenerateContentStream (chatRequest history newMessage options)) w).
Proof.
  intros Hk Ht Hs. unfold startChatStream, bind, tryCatch.
  rewrite (getAIClient_configured key) by assumption.
  unfold ai_models_generateContentStream. now rewrite Hs.
Qed.

End GatewayRuns.

Section ImageTaskRuns.

Variable env : Env.

Lemma processImageTask_run (key prompt : string)
    (imageData : option ImageData.t) (response : Response.t) (w : World) :
  API_KEY env = Some key -> Js.truthy key = true ->
  generateContent env (imageTaskRequest prompt imageData) = inr response ->
  processImageTask env prompt imageData w
  = (Returned (ImageTaskResult.mk
                 (Js.orElse (scanResponse response).1 "Here is your edited image.")
                 (scanResponse response).2),
     withNetworkCall (GenerateContent (imageTaskRequest prompt imageData)) w).
Proof.
  intros Hk Ht Hr. unfold processImageTask, bind, tryCatch.
  rewrite (getAIClient_configured env key) by assumption.
  unfold ai_models_generateContent. now rewrite Hr.
Qed.

Lemma processImageTask_refused (key prompt : string)
    (imageData : option ImageData.t) (e : Js.Error) (w : World) :
  API_KEY env = Some key -> Js.truthy key = true ->
  generateContent env (imageTaskRequest prompt imageData) = inl e ->
  processImageTask env prompt imageData w
  = (Thrown e,
     withNetworkCall (GenerateContent (imageTaskRequest prompt imageData)) w).
Proof.
  intros Hk Ht Hr. unfold processImageTask, bind, tryCatch.
  rewrite (getAIClient_configured env key) by assumption.
  unfold ai_models_generateContent. now rewrite Hr.
Qed.

(** The loop over the parts, from any accumulator: texts of the parts
    without inline data are appended, the last inline data is kept. *)
Lemma scanParts_general (ps : list Part.t) (text : string)
    (img : option ImageData.t) :
  fold_left scanPart ps (text, img)
  = (text +:+ Spec.joinAll
                (omap (fun p => match Part.inlineData p with
                                | Some _ => None
                                | None => Part.text p
                                end) ps),
     match last (Spec.inlineDataParts ps) with
     | Some d => Some d
     | None => img
     end).
Proof.
  revert text img. induction ps as [|p ps IH]; intros text img.
  - cbn. now rewrite append_nil_r.
  - cbn [fold_left]. unfold scanPart at 2. cbn [fst snd].
    unfold Spec.inlineDataParts in *. cbn [omap list_omap].
    destruct (Part.inlineData p) as [d|] eqn:Ed.
    + rewrite IH. f_equal. destruct d as [dd dm]. cbn [ImageData.data ImageData.mimeType].
      destruct (omap Part.inlineData ps) as [|x xs] eqn:Eo; [reflexivity |].
      rewrite last_cons_cons.
      destruct (last (x :: xs)) eqn:El; [reflexivity |].
      apply last_None in El. discriminate El.
    + destruct (Part.text p) as [t|] eqn:Et.
      * destruct (Js.truthy t) eqn:Ett; rewrite IH; f_equal.
        -- cbn [Spec.joinAll fold_right]. apply append_assoc.
        -- unfold Js.truthy in Ett. apply negb_false_iff in Ett.
           apply String.eqb_eq in Ett. subst t. reflexivity.
      * now rewrite IH.
Qed.

End ImageTaskRuns.

Section HandlerRuns.

Variable env : Env.

Lemma beginSubmission_run (content : string) (image : option ImageData.t)
    (w : World) :
  beginSubmission env content image w
  = (Returned (Submission.mk (messages w) (isThinking w)
                 (userMessageOf env content image w)),
     submitted env content image w).
Proof.
  unfold submitted, exec, beginSubmission. run_primitives. rewrite setMessages_run. reflexivity.
Qed.

Lemma submitted_fields (content : string) (image : option ImageData.t)
    (w : World) :
  let w1 := submitted env content image w in
  messages w1 = messages w ++ [userMessageOf env content image w]
  /\ transcripts w1
     = transcripts w ++ [messages w ++ [userMessageOf env content image w]]
  /\ clockReads w1 = S (S (clockReads w))
  /\ network w1 = network w
  /\ prompts w1 = prompts w
  /\ isThinking w1 = isThinking w.
Proof.
  unfold submitted, exec, beginSubmission. run_primitives. rewrite setMessages_run. cbn. repeat split.
Qed.

Lemma removelast_snoc {A} (l : list A) (x : A) : removelast (l ++ [x]) = l.
Proof. apply removelast_last. Qed.

(** The [try] block on the chat-stream path, key configured, the provider
    answering with a stream. *)
Lemma tryBlock_chat_run (content : string) (image : option ImageData.t)
    (key : string) (stream : Stream.t) (w : World) :
  route content image (isThinking w) = ChatStreamPath ->
  API_KEY env = Some key -> Js.truthy key = true ->
  generateContentStream env (chatRequestOf content image w) = inr stream ->
  tryBlock env content image
    (Submission.mk (messages w) (isThinking w) (userMessageOf env content image w))
    (submitted env content image w)
  = (match Stream.failure stream with
     | Some e => Thrown (gatewayError e)
     | None => Returned tt
     end,
     delivered (modelMessageIdOf env w) (map chunkText (Stream.chunks stream))
       (streamOpened env content image w)).
Proof.
  intros Hr Hk Ht Hs.
  destruct (submitted_fields content image w) as (Hm & _ & Hc & _).
  unfold tryBlock. cbn [Submission.thinking Submission.snapshot Submission.userMessage].
  rewrite Hr.
  assert (Hbody :
    (t1 <- Date_now env ;;
     chatStreamPath env content image (isThinking w) (messages w)
       (userMessageOf env content image w) (Js.Number_toString (t1 + 1)))
      (submitted env content image w)
    = (match Stream.failure stream with
       | Some e => Thrown (gatewayError e)
       | None => Returned tt
       end,
       delivered (modelMessageIdOf env w) (map chunkText (Stream.chunks stream))
         (streamOpened env content image w))).
  { unfold bind at 1. unfold Date_now at 1. cbn beta iota. rewrite Hc.
    fold (modelMessageIdOf env w).
    unfold chatStreamPath, bind, modify, new_Date_now, bind, Date_now, ret,
      setIsStreaming, setIsLoading, modify.
    cbn -[setMessages startChatStream]. rewrite Hc.
    rewrite setMessages_run. cbn -[startChatStream].
    rewrite removelast_snoc.
    erewrite startChatStream_run by eassumption.
    unfold streamOpened, placeholderOf, chatRequestOf. cbn.
    destruct (Stream.failure stream); reflexivity. }
  destruct image; exact Hbody.
Qed.

End HandlerRuns.

Section HandlerFailures.

Variable env : Env.

(** The [try] block on the chat-stream path when the provider refuses the
    request: the placeholder is already in the transcript. *)
Lemma tryBlock_chat_refused (content : string) (image : option ImageData.t)
    (key : string) (e : Js.Error) (w : World) :
  route content image (isThinking w) = ChatStreamPath ->
  API_KEY env = Some key -> Js.truthy key = true ->
  generateContentStream env (chatRequestOf content image w) = inl e ->
  tryBlock env content image
    (Submission.mk (messages w) (isThinking w) (userMessageOf env content image w))
    (submitted env content image w)
  = (Thrown (gatewayError e), streamOpened env content image w).
Proof.
  intros Hr Hk Ht Hs.
  destruct (submitted_fields env content image w) as (Hm & _ & Hc & _).
  unfold tryBlock. cbn [Submission.thinking Submission.snapshot Submission.userMessage].
  rewrite Hr.
  assert (Hbody :
    (t1 <- Date_now env ;;
     chatStreamPath env content image (isThinking w) (messages w)
       (userMessageOf env content image w) (Js.Number_toString (t1 + 1)))
      (submitted env content image w)
    = (Thrown (gatewayError e), streamOpened env content image w)).
  { unfold bind at 1. unfold Date_now at 1. cbn beta iota. rewrite Hc.
    fold (modelMessageIdOf env w).
    unfold chatStreamPath, bind, modify, new_Date_now, bind, Date_now, ret,
      setIsStreaming, setIsLoading, modify.
    cbn -[setMessages startChatStream]. rewrite Hc.
    rewrite setMessages_run. cbn -[startChatStream].
    rewrite removelast_snoc.
    erewrite startChatStream_refused by eassumption.
    reflexivity. }
  destruct image; exact Hbody.
Qed.

(** The [try] block on the image-edit path when the provider refuses the
    request: nothing has been added after the user's message. *)
Lemma tryBlock_edit_refused (content : string) (img : ImageData.t)
    (key : string) (e : Js.Error) (w : World) :
  route content (Some img) (isThinking w) = ImageEditPath ->
  API_KEY env = Some key -> Js.truthy key = true ->
  generateContent env
    (imageTaskRequest (Js.orElse content "Process this image") (Some img))
  = inl e ->
  exists wf,
    tryBlock env content (Some img)
      (Submission.mk (messages w) (isThinking w)
         (userMessageOf env content (Some img) w))
      (submitted env content (Some img) w)
    = (Thrown e, wf)
    /\ messages wf = messages (submitted env content (Some img) w).
Proof.
  intros Hr Hk Ht Hs. unfold tryBlock.
  cbn [Submission.thinking Submission.snapshot Submission.userMessage].
  rewrite Hr. unfold bind at 1. unfold Date_now at 1. cbn beta iota.
  unfold imageEditPath, bind.
  erewrite processImageTask_refused by eassumption.
  eexists. split; reflexivity.
Qed.

End HandlerFailures.

Section GatewayCalls.

Variable env : Env.

Lemma setMessages_network (update : list Message.t -> list Message.t) (w : World) :
  network (exec (setMessages update) w) = network w.
Proof. unfold exec. now rewrite setMessages_run. Qed.

Lemma catchBlock_network (err : Js.Error) (w : World) :
  network (exec (catchBlock env err) w) = network w.
Proof.
  unfold exec, catchBlock. run_primitives. now rewrite setMessages_run.
Qed.

(** The handler makes the calls its [try] block makes, and no other. *)
Lemma handleSendMessage_network (content : string) (image : option ImageData.t)
    (w : World) :
  network (exec (handleSendMessage env content image) w)
  = network (exec (tryBlock env content image
                     (Submission.mk (messages w) (isThinking w)
                        (userMessageOf env content image w)))
                  (submitted env content image w)).
Proof.
  unfold exec at 1. unfold handleSendMessage, bind.
  rewrite beginSubmission_run. unfold tryFinally, tryCatch, exec.
  destruct (tryBlock env content image _ _) as [[[] | err] wf]; cbn [snd].
  - reflexivity.
  - pose proof (catchBlock_network err wf) as Hc. unfold exec in Hc.
    destruct (catchBlock env err wf) as [[[] | e'] wc]; cbn [snd] in *; exact Hc.
Qed.

(** With a configured key a submission makes exactly one call to the
    provider: an image task on the image-edit path, a chat stream on the
    chat-stream path. *)
Lemma submission_calls_gateway_of_route (content : string)
    (image : option ImageData.t) (key : string) (w : World) :
  API_KEY env = Some key -> Js.truthy key = true ->
  network (exec (handleSendMessage env content image) w)
  = network w
    ++ [match route content image (isThinking w) with
        | ImageEditPath =>
            GenerateContent
              (imageTaskRequest (Js.orElse content "Process this image") image)
        | ChatStreamPath =>
            GenerateContentStream (chatRequestOf content image w)
        end].
Proof.
  intros Hk Ht. rewrite handleSendMessage_network.
  destruct (submitted_fields env content image w) as (_ & _ & _ & Hn & _).
  destruct (route content image (isThinking w)) eqn:Hr.
  - assert (Himg : exists img, image = Some img).
    { unfold route, isEditRequest in Hr. destruct image as [img|]; [now exists img |].
      discriminate Hr. }
    destruct Himg as [img ->].
    unfold exec, tryBlock.
    cbn [Submission.thinking Submission.snapshot Submission.userMessage].
    rewrite Hr. unfold bind at 1. unfold Date_now at 1. cbn beta iota.
    unfold imageEditPath, bind.
    destruct (generateContent env
                (imageTaskRequest (Js.orElse content "Process this image") (Some img)))
      as [e | response] eqn:Hg.
    + erewrite processImageTask_refused by eassumption. cbn. now rewrite Hn.
    + erewrite processImageTask_run by eassumption.
      unfold new_Date_now, bind, Date_now, ret. cbn -[setMessages].
      rewrite setMessages_run. cbn. now rewrite Hn.
  - destruct (generateContentStream env (chatRequestOf content image w))
      as [e | stream] eqn:Hg.
    + unfold exec.
      rewrite (tryBlock_chat_refused env content image key e w) by assumption.
      unfold streamOpened. cbn. now rewrite Hn.
    + unfold exec.
      rewrite (tryBlock_chat_run env content image key stream w) by assumption.
      cbn [snd].
      destruct (delivered_frame (modelMessageIdOf env w)
                  (map chunkText (Stream.chunks stream))
                  (streamOpened env content image w)) as (-> & _).
      unfold streamOpened. cbn. now rewrite Hn.
Qed.

End GatewayCalls.

(** ** The chat-stream path *)

Section Streaming.

Variable env : Env.

Lemma streamOpened_fields (content : string) (image : option ImageData.t)
    (w : World) :
  let w2 := streamOpened env content image w in
  messages w2
  = messages w ++ [userMessageOf env content image w; placeholderOf env w ""]
  /\ transcripts w2
     = transcripts w
       ++ [messages w ++ [userMessageOf env content image w];
           messages w ++ [userMessageOf env content image w; placeholderOf env w ""]]
  /\ streamContent w2 = "".
Proof.
  destruct (submitted_fields env content image w) as (Hm & Htr & _).
  unfold streamOpened. cbn. rewrite Hm, Htr, <- !app_assoc. repeat split.
Qed.

Lemma overwriteContent_placeholder (text : string) (w : World)
    (earlier : list Message.t) (user : Message.t) :
  overwriteContent (modelMessageIdOf env w) text
    (earlier ++ [user; placeholderOf env w ""])
  = overwriteContent (modelMessageIdOf env w) text (earlier ++ [user])
    ++ [placeholderOf env w text].
Proof.
  unfold overwriteContent. rewrite !map_app. cbn [map].
  rewrite <- app_assoc. cbn [app]. do 3 f_equal.
  cbn [placeholderOf Message.id]. now rewrite String.eqb_refl.
Qed.

(** The run of the handler on the chat-stream path when the stream ends
    without an error. *)
Lemma handleSendMessage_chat_run (content : string) (image : option ImageData.t)
    (key : string) (chunks : list Chunk.t) (w : World) :
  route content image (isThinking w) = ChatStreamPath ->
  API_KEY env = Some key -> Js.truthy key = true ->
  generateContentStream env (chatRequestOf content image w)
  = inr (Stream.mk chunks None) ->
  handleSendMessage env content image w
  = (Returned tt,
     withIsStreaming false
       (withIsLoading false
          (delivered (modelMessageIdOf env w) (map chunkText chunks)
             (streamOpened env content image w)))).
Proof.
  intros Hr Hk Ht Hs. unfold handleSendMessage, bind.
  rewrite beginSubmission_run. unfold tryFinally, tryCatch.
  rewrite (tryBlock_chat_run env content image key (Stream.mk chunks None) w)
    by assumption.
  reflexivity.
Qed.

End Streaming.

(** C2. On the chat-stream path, when the stream ends without an error:
    the transcript recorded after the n-th fragment has the placeholder as
    its last entry, holding the concatenation of the first n fragments in
    arrival order; when the handler returns, the submission has added
    exactly two entries to the transcript, the user's message and one MODEL
    message, the placeholder, whose content is the concatenation of all the
    fragments. *)
Theorem streaming_accumulation (env : Env) (content : string)
    (image : option ImageData.t) (key : string) (chunks : list Chunk.t)
    (w : World) :
  route content image (isThinking w) = ChatStreamPath ->
  API_KEY env = Some key -> Js.truthy key = true ->
  generateContentStream env (chatRequestOf content image w)
  = inr (Stream.mk chunks None) ->
  let fragments := map chunkText chunks in
  let w' := exec (handleSendMessage env content image) w in
  (forall n, (1 <= n <= length fragments)%nat ->
     exists T,
       transcripts w' !! (length (transcripts w) + 1 + n)%nat = Some T
       /\ length T = (length (messages w) + 2)%nat
       /\ last T = Some (placeholderOf env w (Spec.joinAll (take n fragments))))
  /\ (exists earlier user,
        messages w'
        = earlier ++ [user; placeholderOf env w (Spec.joinAll fragments)]
        /\ length earlier = length (messages w)
        /\ Message.role user = USER)
  /\ outcome (handleSendMessage env content image) w = Returned tt.
Proof.
  intros Hr Hk Ht Hs fragments w'. subst w'. unfold exec, outcome.
  rewrite (handleSendMessage_chat_run env content image key chunks w)
    by assumption.
  cbn [fst snd]. fold fragments.
  destruct (streamOpened_fields env content image w) as (Hm & Htr & Hsc).
  set (mid := modelMessageIdOf env w) in *.
  set (u := userMessageOf env content image w) in *.
  split; [| split; [| reflexivity]].
  - intros n [Hn1 Hn2].
    change (transcripts (withIsStreaming false (withIsLoading false
              (delivered mid fragments (streamOpened env content image w)))))
      with (transcripts (delivered mid fragments (streamOpened env content image w))).
    rewrite delivered_transcripts, Htr, Hsc, Hm.
    exists (overwriteContent mid (Spec.joinAll (take n fragments))
              (messages w ++ [u; placeholderOf env w ""])).
    split; [| split].
    + rewrite lookup_app_r; rewrite length_app; cbn [length]; [| lia].
      replace (length (transcripts w) + 1 + n - (length (transcripts w) + 2))%nat
        with (n - 1)%nat by lia.
      rewrite list_lookup_fmap, lookup_seq_lt by lia.
      replace (1 + (n - 1))%nat with n by lia. reflexivity.
    + rewrite overwriteContent_length, length_app. reflexivity.
    + unfold mid. rewrite overwriteContent_placeholder. apply last_snoc.
  - change (messages (withIsStreaming false (withIsLoading false
              (delivered mid fragments (streamOpened env content image w)))))
      with (messages (delivered mid fragments (streamOpened env content image w))).
    rewrite delivered_messages, Hm, Hsc.
    destruct fragments as [|t ts] eqn:E.
    + exists (messages w), u. repeat split.
    + rewrite <- E. unfold mid. rewrite overwriteContent_placeholder.
      rewrite overwriteContent_app. cbn [overwriteContent map].
      eexists _, _. split; [rewrite <- app_assoc; reflexivity |].
      split; [apply overwriteContent_length |].
      destruct (String.eqb (Message.id u) (modelMessageIdOf env w)); reflexivity.
Qed.

(** The fragments "Hel", "lo, ", "world" sent after one earlier exchange. *)
Lemma streaming_accumulation_witness :
  let w := Example.worldWith Example.earlier in
  let fragments := ["Hel"; "lo, "; "world"] in
  let w' := exec (handleSendMessage Example.env "hello" None) w in
  (forall n, (1 <= n <= 3)%nat ->
     exists T,
       transcripts w' !! (1 + 1 + n)%nat = Some T
       /\ length T = 4%nat
       /\ last T = Some (placeholderOf Example.env w (Spec.joinAll (take n fragments))))
  /\ (exists earlier user,
        messages w'
        = earlier ++ [user; placeholderOf Example.env w "Hello, world"]
        /\ length earlier = 2%nat
        /\ Message.role user = USER)
  /\ outcome (handleSendMessage Example.env "hello" None) w = Returned tt.
Proof.
  exact (streaming_accumulation Example.env "hello" None "test-key"
           (Stream.chunks Example.helloStream)
           (Example.worldWith Example.earlier)
           eq_refl eq_refl eq_refl eq_refl).
Defined.

(** The same run, computed: the contents of the transcript as each
    fragment arrives. *)
Example streaming_hello_world :
  map (map Message.content)
      (transcripts (exec (handleSendMessage Example.env "hello" None)
                         (initialWorld ∅)))
  = [["hello"];
     ["hello"; ""];
     ["hello"; "Hel"];
     ["hello"; "Hello, "];
     ["hello"; "Hello, world"]]
  /\ map Message.role
       (messages (exec (handleSendMessage Example.env "hello" None)
                       (initialWorld ∅)))
     = [USER; MODEL].
Proof. split; vm_compute; reflexivity. Qed.

Section FreshId.

Variable env : Env.

Lemma overwriteContent_fresh (mid text : string) (l : list Message.t) :
  Forall (fun m => Message.id m <> mid) l -> overwriteContent mid text l = l.
Proof.
  induction 1 as [|m l Hm _ IH]; [reflexivity |].
  cbn [overwriteContent map]. fold (overwriteContent mid text l). rewrite IH.
  apply String.eqb_neq in Hm. now rewrite Hm.
Qed.

(** When the id of the placeholder is not the id of an earlier message nor
    of the user's message, the exchange is appended to a transcript that is
    otherwise as it was. *)
Lemma streaming_appends_exchange (content : string)
    (image : option ImageData.t) (key : string) (chunks : list Chunk.t)
    (w : World) :
  route content image (isThinking w) = ChatStreamPath ->
  API_KEY env = Some key -> Js.truthy key = true ->
  generateContentStream env (chatRequestOf content image w)
  = inr (Stream.mk chunks None) ->
  Forall (fun m => Message.id m <> modelMessageIdOf env w) (messages w) ->
  clock env (clockReads w) <> clock env (S (S (clockReads w))) + 1 ->
  messages (exec (handleSendMessage env content image) w)
  = messages w
    ++ [userMessageOf env content image w;
        placeholderOf env w (Spec.joinAll (map chunkText chunks))].
Proof.
  intros Hr Hk Ht Hs Hfresh Hclock. unfold exec.
  rewrite (handleSendMessage_chat_run env content image key chunks w)
    by assumption.
  cbn [snd].
  change (messages (withIsStreaming false (withIsLoading false ?x)))
    with (messages x).
  destruct (streamOpened_fields env content image w) as (Hm & _ & Hsc).
  rewrite delivered_messages, Hm, Hsc.
  destruct (map chunkText chunks) as [|t ts] eqn:E; [reflexivity |].
  rewrite <- E, append_nil_l, overwriteContent_placeholder.
  rewrite overwriteContent_fresh; [now rewrite <- app_assoc |].
  apply Forall_app. split; [exact Hfresh |].
  constructor; [| constructor].
  cbn [userMessageOf Message.id]. unfold modelMessageIdOf, Js.Number_toString.
  intros Heq. apply pretty_Z_inj in Heq. contradiction.
Qed.

End FreshId.

(** ** The model gateway *)

Section Gateway.

Lemma onePayload_texts (ps : list Part.t) :
  Forall Spec.onePayload ps ->
  omap (fun p => match Part.inlineData p with
                 | Some _ => None
                 | None => Part.text p
                 end) ps
  = Spec.textParts ps.
Proof.
  unfold Spec.textParts. induction 1 as [|p ps Hp _ IH]; [reflexivity |].
  cbn [omap list_omap]. rewrite IH.
  destruct Hp as [Hp | Hp]; rewrite Hp; [| reflexivity].
  now destruct (Part.inlineData p).
Qed.

Lemma orElse_decide (s d : string) :
  Js.orElse s d = if decide (s = "") then d else s.
Proof.
  unfold Js.orElse, Js.truthy. destruct (String.eqb_spec s "") as [-> | Hne].
  - reflexivity.
  - now destruct (decide (s = "")).
Qed.

Lemma forAwaitChunks_network (onFragment : string -> M unit)
    (chunks : list Chunk.t) (fullText : string) (w : World) :
  Spec.makesNoCall onFragment ->
  network (exec (forAwaitChunks onFragment chunks fullText) w) = network w.
Proof.
  intros Hq. revert fullText w.
  induction chunks as [|c cs IH]; intros fullText w; [reflexivity |].
  unfold exec in *. cbn [forAwaitChunks]. unfold bind.
  specialize (Hq (chunkText c) w). unfold exec in Hq.
  destruct (onFragment (chunkText c) w) as [[[] | e] w1]; cbn [snd] in *.
  - now rewrite IH.
  - exact Hq.
Qed.

(** With a configured key, a chat stream makes exactly one call to the
    provider, with the request built from its arguments. *)
Lemma startChatStream_network (env : Env) (key : string)
    (history : list Message.t) (newMessage : string)
    (onFragment : string -> M unit) (options : ChatOptions.t) (w : World) :
  API_KEY env = Some key -> Js.truthy key = true ->
  Spec.makesNoCall onFragment ->
  network (exec (startChatStream env history newMessage onFragment options) w)
  = network w ++ [GenerateContentStream (chatRequest history newMessage options)].
Proof.
  intros Hk Ht Hq. unfold exec, startChatStream, bind, tryCatch.
  rewrite (getAIClient_configured env key) by assumption.
  unfold ai_models_generateContentStream.
  destruct (generateContentStream env _) as [e | stream]; [reflexivity |].
  pose proof (forAwaitChunks_network onFragment (Stream.chunks stream) ""
                (withNetworkCall
                   (GenerateContentStream (chatRequest history newMessage options)) w)
                Hq) as Hn.
  unfold exec in Hn.
  destruct (forAwaitChunks onFragment (Stream.chunks stream) "" _)
    as [[full | e] w1]; cbn [snd] in Hn.
  - destruct (Stream.failure stream); exact Hn.
  - exact Hn.
Qed.

(** The fragment callback of the application makes no call. *)
Lemma onChunk_makesNoCall (modelMessageId : string) :
  Spec.makesNoCall (onChunk modelMessageId).
Proof. intros text w. apply (deliver_frame modelMessageId text w). Qed.

End Gateway.

(** C5. With a configured key and a provider that answers, [processImageTask]
    returns as text the concatenation, in order, of the text parts of the
    first candidate's content, or the caption "Here is your edited image."
    when that concatenation is empty, and as image the last inline-data part,
    or none when there is none; with no candidates it returns the caption and
    no image. The parts are taken as the provider builds them, each with one
    kind of payload. *)
Theorem processImageTask_result (env : Env) (key prompt : string)
    (imageData : option ImageData.t) (response : Response.t) (w : World) :
  API_KEY env = Some key -> Js.truthy key = true ->
  generateContent env (imageTaskRequest prompt imageData) = inr response ->
  let parts := default [] (responseParts response) in
  Forall Spec.onePayload parts ->
  let text := Spec.joinAll (Spec.textParts parts) in
  outcome (processImageTask env prompt imageData) w
  = Returned (ImageTaskResult.mk
                (if decide (text = "") then Spec.caption else text)
                (last (Spec.inlineDataParts parts)))
  /\ (Response.candidates response = None \/ Response.candidates response = Some []
      -> outcome (processImageTask env prompt imageData) w
         = Returned (ImageTaskResult.mk Spec.caption None)).
Proof.
  intros Hk Ht Hr parts Hone text. unfold outcome.
  rewrite (processImageTask_run env key prompt imageData response w) by assumption.
  cbn [fst]. rewrite orElse_decide. split.
  - unfold scanResponse. subst text parts.
    destruct (responseParts response) as [ps|]; cbn [default] in *.
    + rewrite scanParts_general, onePayload_texts by assumption.
      cbn [fst snd]. rewrite append_nil_l. change (id ps) with ps.
      now destruct (last (Spec.inlineDataParts ps)).
    + reflexivity.
  - intros Hc. unfold scanResponse, responseParts.
    destruct Hc as [-> | ->]; reflexivity.
Qed.

(** A run of the theorem above: a response of two text parts and two images. *)
Lemma processImageTask_result_witness :
  outcome (processImageTask Example.env "make it sepia" (Some Example.picture))
          (initialWorld ∅)
  = Returned (ImageTaskResult.mk "Done: sepia applied."
                (Some (ImageData.mk "BBBB" "image/png"))).
Proof.
  refine (proj1 (processImageTask_result Example.env "test-key" "make it sepia"
                   (Some Example.picture) Example.edited (initialWorld ∅)
                   eq_refl eq_refl eq_refl _)).
  unfold Example.edited, Example.editedParts, responseParts. cbn.
  repeat (constructor; [first [left; reflexivity | right; reflexivity] |]).
  constructor.
Defined.

(** C6. The request a chat stream sends names the reasoning model exactly
    when the thinking option is true or an image is attached, and the fast
    model otherwise. *)
Theorem chat_model_selection (env : Env) (key : string)
    (history : list Message.t) (newMessage : string)
    (onFragment : string -> M unit) (options : ChatOptions.t) (w : World) :
  API_KEY env = Some key -> Js.truthy key = true ->
  Spec.makesNoCall onFragment ->
  let reasoning :=
    ChatOptions.thinking options = Some true
    \/ exists img, ChatOptions.image options = Some img in
  exists request,
    network (exec (startChatStream env history newMessage onFragment options) w)
    = network w ++ [GenerateContentStream request]
    /\ (Request.model request = "gemini-3-pro-preview" <-> reasoning)
    /\ (Request.model request = "gemini-3-flash-preview" <-> ~ reasoning).
Proof.
  intros Hk Ht Hq reasoning.
  exists (chatRequest history newMessage options).
  split; [now apply (startChatStream_network env key) |].
  subst reasoning. cbn [chatRequest Request.model]. unfold chatModel.
  set (b := _ || _).
  assert (Hb : (ChatOptions.thinking options = Some true
                \/ exists img, ChatOptions.image options = Some img)
               <-> b = true).
  { subst b. destruct (ChatOptions.thinking options) as [[|]|],
                      (ChatOptions.image options) as [img|]; cbn; split;
      try reflexivity; try (intros _; left; reflexivity);
      try (intros _; right; now exists img);
      intros H; try discriminate H; destruct H as [H | [x H]]; discriminate H. }
  rewrite Hb. destruct b; repeat split; try reflexivity; try discriminate;
    intros H; try discriminate H; try (intros H'; discriminate H');
    now elim H.
Qed.

Lemma chat_model_selection_witness :
  exists request,
    network (exec (startChatStream Example.env Example.earlier "And now?"
                     (fun _ => ret tt) (ChatOptions.mk (Some false) None))
                  (initialWorld ∅))
    = network (initialWorld ∅) ++ [GenerateContentStream request]
    /\ (Request.model request = "gemini-3-pro-preview"
        <-> (Some false = Some true \/ exists img, @None ImageData.t = Some img))
    /\ (Request.model request = "gemini-3-flash-preview"
        <-> ~ (Some false = Some true \/ exists img, @None ImageData.t = Some img)).
Proof.
  apply (chat_model_selection Example.env "test-key" Example.earlier "And now?"
           (fun _ => ret tt) (ChatOptions.mk (Some false) None) (initialWorld ∅)
           eq_refl eq_refl).
  intros text w. reflexivity.
Defined.

(** C9. Without a credential both gateway operations throw the error
    "API Key is not configured in the environment." and leave the world as
    it was: no call to the provider is made and no fragment is delivered. *)
Theorem missing_credential_fails_fast (env : Env) (w : World) :
  Spec.noCredential env ->
  let configurationError :=
    Js.new_Error "API Key is not configured in the environment." in
  (forall history newMessage onFragment options,
     startChatStream env history newMessage onFragment options w
     = (Thrown configurationError, w))
  /\ (forall prompt imageData,
        processImageTask env prompt imageData w = (Thrown configurationError, w))
  /\ exists said, Js.message configurationError = Some said
                  /\ Js.includes said "Key is not configured" = true.
Proof.
  intros Hno err. split; [| split].
  - intros. unfold startChatStream, bind.
    now rewrite (getAIClient_missing env w Hno).
  - intros. unfold processImageTask, bind.
    now rewrite (getAIClient_missing env w Hno).
  - eexists. split; reflexivity.
Qed.

Lemma missing_credential_fails_fast_witness :
  startChatStream Example.envWithoutKey Example.earlier "And now?"
    (onChunk "1700000000003") (ChatOptions.mk (Some false) None)
    (Example.worldWith Example.earlier)
  = (Thrown (Js.new_Error "API Key is not configured in the environment."),
     Example.worldWith Example.earlier).
Proof.
  exact (proj1 (missing_credential_fails_fast Example.envWithoutKey
                  (Example.worldWith Example.earlier) (or_introl eq_refl))
           Example.earlier "And now?" (onChunk "1700000000003")
           (ChatOptions.mk (Some false) None)).
Defined.

(** C10. In the request a chat stream sends, each message of the history
    is one content made of a single text part holding the message's content,
    whatever image the message has; no content of the history carries an
    image, and the content of the new turn carries one exactly when an image
    is given in the options. *)
Theorem history_sent_as_text (env : Env) (key : string)
    (history : list Message.t) (newMessage : string)
    (onFragment : string -> M unit) (options : ChatOptions.t) (w : World) :
  API_KEY env = Some key -> Js.truthy key = true ->
  Spec.makesNoCall onFragment ->
  exists request,
    network (exec (startChatStream env history newMessage onFragment options) w)
    = network w ++ [GenerateContentStream request]
    /\ length (Request.contents request) = S (length history)
    /\ (forall i msg, history !! i = Some msg ->
          Request.contents request !! i
          = Some (Content.mk (Some (Spec.providerRole (Message.role msg)))
                             (Some [Part.ofText (Message.content msg)])))
    /\ (forall i c, Request.contents request !! i = Some c ->
          Spec.carriesImage c -> i = length history)
    /\ (exists turn, Request.contents request !! length history = Some turn
          /\ (Spec.carriesImage turn
              <-> exists img, ChatOptions.image options = Some img)).
Proof.
  intros Hk Ht Hq. exists (chatRequest history newMessage options).
  split; [now apply (startChatStream_network env key) |].
  cbn [chatRequest Request.contents]. unfold formattedHistory.
  assert (Hhist : forall i msg, history !! i = Some msg ->
            (map (fun m => Content.mk
                    (Some (match Message.role m with USER => "user" | MODEL => "model" end))
                    (Some [Part.ofText (Message.content m)])) history
             ++ [Content.mk (Some "user") (Some (newTurnParts newMessage options))]) !! i
            = Some (Content.mk (Some (Spec.providerRole (Message.role msg)))
                               (Some [Part.ofText (Message.content msg)]))).
  { intros i msg Hi. rewrite lookup_app_l.
    - rewrite list_lookup_fmap, Hi. cbn. now destruct (Message.role msg).
    - rewrite length_map. now apply lookup_lt_Some in Hi. }
  split; [| split; [exact Hhist | split]].
  - rewrite length_app, length_map. cbn. lia.
  - intros i c Hi (ps & p & Hps & Hin & Himg).
    destruct (lt_eq_lt_dec i (length history)) as [[Hlt | Heq] | Hgt];
      [| exact Heq |].
    + apply lookup_lt_is_Some_2 in Hlt. destruct Hlt as [msg Hmsg].
      rewrite (Hhist i msg Hmsg) in Hi. injection Hi as <-.
      cbn in Hps. injection Hps as <-. destruct Hin as [<- | []].
      now elim Himg.
    + apply lookup_lt_Some in Hi. rewrite length_app, length_map in Hi.
      cbn in Hi. lia.
  - eexists. split.
    + rewrite lookup_app_r; rewrite length_map; [| lia].
      now rewrite Nat.sub_diag.
    + unfold Spec.carriesImage, newTurnParts. cbn [Content.parts].
      destruct (ChatOptions.image options) as [img|]; split.
      * intros _. now exists img.
      * intros _. eexists _, _. split; [reflexivity |].
        split; [left; reflexivity | discriminate].
      * intros (ps & p & Hps & Hin & Himg). injection Hps as <-.
        destruct Hin as [<- | []]. now elim Himg.
      * intros (img & Himg). discriminate.
Qed.

Lemma history_sent_as_text_witness :
  exists request,
    network (exec (startChatStream Example.env Example.earlier "And now?"
                     (fun _ => ret tt) (ChatOptions.mk (Some false) None))
                  (initialWorld ∅))
    = [GenerateContentStream request]
    /\ Request.contents request !! 0%nat
       = Some (Content.mk (Some "user") (Some [Part.ofText "What is in this image?"])).
Proof.
  destruct (history_sent_as_text Example.env "test-key" Example.earlier "And now?"
              (fun _ => ret tt) (ChatOptions.mk (Some false) None) (initialWorld ∅)
              eq_refl eq_refl (fun _ _ => eq_refl))
    as (request & Hnet & _ & Hhist & _).
  exists request. split; [exact Hnet |].
  exact (Hhist 0%nat _ eq_refl).
Defined.

(** ** Failures of the gateway *)

Section Failures.

Variable env : Env.

Lemma catchBlock_run (err : Js.Error) (w : World) :
  exists w',
    catchBlock env err w = (Returned tt, w')
    /\ messages w' = reconcileError (errorMessageOf env err w) (messages w).
Proof.
  unfold catchBlock. run_primitives. rewrite setMessages_run. eexists. split; reflexivity.
Qed.

(** The run of the handler when its [try] block throws. *)
Lemma handleSendMessage_failure (content : string) (image : option ImageData.t)
    (err : Js.Error) (w wf : World) :
  tryBlock env content image
    (Submission.mk (messages w) (isThinking w) (userMessageOf env content image w))
    (submitted env content image w)
  = (Thrown err, wf) ->
  outcome (handleSendMessage env content image) w = Returned tt
  /\ messages (exec (handleSendMessage env content image) w)
     = reconcileError (errorMessageOf env err wf) (messages wf).
Proof.
  intros Htry. unfold outcome, exec, handleSendMessage, bind.
  rewrite beginSubmission_run. unfold tryFinally, tryCatch. rewrite Htry.
  destruct (catchBlock_run err wf) as (w' & -> & Hm).
  unfold finallyBlock, bind, setIsLoading, setIsStreaming, modify. cbn.
  split; [reflexivity | exact Hm].
Qed.

Lemma endsWithEmptyModelMessage_dec (ms : list Message.t) :
  match last ms with
  | Some lastMsg =>
      Role_eqb (Message.role lastMsg) MODEL
      && String.eqb (Message.content lastMsg) ""
  | None => false
  end = true
  <-> Spec.endsWithEmptyModelMessage ms.
Proof.
  unfold Spec.endsWithEmptyModelMessage. destruct (last ms) as [m|].
  - rewrite andb_true_iff, String.eqb_eq. split.
    + intros [Hr Hc]. exists m. repeat split; [| exact Hc].
      now destruct (Message.role m).
    + intros (m' & [= <-] & -> & ->). now split.
  - split; [discriminate |]. intros (m' & [=] & _).
Qed.

Lemma reconcileError_replaces (e : Message.t) (prev : list Message.t) :
  Spec.endsWithEmptyModelMessage prev ->
  reconcileError e prev = removelast prev ++ [e]
  /\ length (reconcileError e prev) = length prev.
Proof.
  intros H. pose proof H as (m & Hl & _).
  apply endsWithEmptyModelMessage_dec in H. unfold reconcileError.
  rewrite Hl in *. rewrite H. split; [reflexivity |].
  apply last_Some in Hl. destruct Hl as [l' ->].
  rewrite removelast_last, !length_app. reflexivity.
Qed.

Lemma reconcileError_appends (e : Message.t) (prev : list Message.t) :
  ~ Spec.endsWithEmptyModelMessage prev ->
  reconcileError e prev = prev ++ [e]
  /\ length (reconcileError e prev) = S (length prev).
Proof.
  intros H. rewrite <- endsWithEmptyModelMessage_dec in H.
  apply not_true_is_false in H. unfold reconcileError.
  assert (Hr : reconcileError e prev = prev ++ [e]).
  { unfold reconcileError. destruct (last prev); [now rewrite H | reflexivity]. }
  fold (reconcileError e prev). rewrite Hr, length_app. cbn. split; [reflexivity | lia].
Qed.

Lemma errorContent_said (err : Js.Error) (said : string) :
  Js.message err = Some said -> said <> "" ->
  errorContent err = "**Error:** " +:+ said.
Proof.
  intros Hm Hne. unfold errorContent, Js.orDefault. rewrite Hm, orElse_decide.
  now destruct (decide (said = "")).
Qed.

Lemma errorContent_fallback (err : Js.Error) :
  Js.message err = None \/ Js.message err = Some "" ->
  errorContent err
  = "**Error:** I'm having trouble processing that request. Please try again.".
Proof. intros [H | H]; unfold errorContent; now rewrite H. Qed.

End Failures.

(** C3, as the code has it. When the [try] block of a submission throws
    [err] (the gateway call failed), an error message with role MODEL is
    produced; its content is "**Error:** " followed by the error's message
    when that message is not empty, and by the sentence "I'm having trouble
    processing that request. Please try again." when the error has no
    message or an empty one. If the last entry of the transcript is a MODEL
    message with empty content, the error message replaces it and the number
    of messages is what it was at the failure; otherwise the error message is
    appended and the number grows by one. *)
Theorem error_reconciliation (env : Env) (content : string)
    (image : option ImageData.t) (err : Js.Error) (w wf : World) :
  tryBlock env content image
    (Submission.mk (messages w) (isThinking w) (userMessageOf env content image w))
    (submitted env content image w)
  = (Thrown err, wf) ->
  let w' := exec (handleSendMessage env content image) w in
  exists errorMessage,
    Message.role errorMessage = MODEL
    /\ (forall said, Js.message err = Some said -> said <> "" ->
          Message.content errorMessage = "**Error:** " +:+ said)
    /\ (Js.message err = None \/ Js.message err = Some "" ->
          Message.content errorMessage
          = "**Error:** I'm having trouble processing that request. Please try again.")
    /\ (Spec.endsWithEmptyModelMessage (messages wf) ->
          messages w' = removelast (messages wf) ++ [errorMessage]
          /\ length (messages w') = length (messages wf))
    /\ (~ Spec.endsWithEmptyModelMessage (messages wf) ->
          messages w' = messages wf ++ [errorMessage]
          /\ length (messages w') = S (length (messages wf))).
Proof.
  intros Htry w'. subst w'.
  destruct (handleSendMessage_failure env content image err w wf Htry) as [_ ->].
  exists (errorMessageOf env err wf). split; [reflexivity |].
  split; [apply errorContent_said |].
  split; [apply errorContent_fallback |].
  split; [apply reconcileError_replaces | apply reconcileError_appends].
Qed.

(** A refused chat request: the provider answers "quota exceeded". *)
Lemma error_reconciliation_witness :
  exists errorMessage,
    Message.content errorMessage = "**Error:** quota exceeded"
    /\ messages (exec (handleSendMessage
                         (Example.envFailing (Js.new_Error "quota exceeded"))
                         "hello" None)
                      (Example.worldWith Example.earlier))
       = Example.earlier
         ++ [userMessageOf Example.env "hello" None (Example.worldWith Example.earlier);
             errorMessage].
Proof.
  set (env := Example.envFailing (Js.new_Error "quota exceeded")).
  set (w := Example.worldWith Example.earlier).
  assert (Htry :
    tryBlock env "hello" None
      (Submission.mk (messages w) (isThinking w) (userMessageOf env "hello" None w))
      (submitted env "hello" None w)
    = (Thrown (Js.new_Error "quota exceeded"), streamOpened env "hello" None w))
    by (vm_compute; reflexivity).
  destruct (error_reconciliation env "hello" None (Js.new_Error "quota exceeded")
              w (streamOpened env "hello" None w) Htry)
    as (errorMessage & _ & Hsaid & _ & Hreplace & _).
  exists errorMessage. split.
  - apply (Hsaid "quota exceeded"); [reflexivity | discriminate].
  - assert (Hend : Spec.endsWithEmptyModelMessage (messages (streamOpened env "hello" None w))).
    { eexists. repeat split; vm_compute; reflexivity. }
    destruct (Hreplace Hend) as [-> _]. vm_compute. reflexivity.
Defined.

(** C3 as stated fails for an error whose message is empty: the content of
    the error message is not "**Error:** " followed by that message. *)
Lemma error_content_counterexample :
  let err := Js.mkError (Some "") in
  let env := Example.envFailing err in
  let w := Example.worldWith Example.earlier in
  outcome (tryBlock env "hello" None
             (Submission.mk (messages w) (isThinking w)
                (userMessageOf env "hello" None w)))
          (submitted env "hello" None w)
  = Thrown err
  /\ Message.content <$> last (messages (exec (handleSendMessage env "hello" None) w))
     = Some "**Error:** I'm having trouble processing that request. Please try again."
  /\ Message.content <$> last (messages (exec (handleSendMessage env "hello" None) w))
     <> Some ("**Error:** " +:+ "").
Proof.
  cbv zeta. split; [vm_compute; reflexivity |].
  assert (H : Message.content
                <$> last (messages (exec (handleSendMessage
                                            (Example.envFailing (Js.mkError (Some "")))
                                            "hello" None)
                                         (Example.worldWith Example.earlier)))
              = Some "**Error:** I'm having trouble processing that request. Please try again.")
    by (vm_compute; reflexivity).
  split; [exact H |]. rewrite H. discriminate.
Qed.

Section FailureCases.

Variable env : Env.

(** A chat request refused before any fragment: the error message takes
    the place of the placeholder, and the transcript is as long as it was
    when the call failed. *)
Lemma chat_failure_replaces_placeholder (content : string)
    (image : option ImageData.t) (key : string) (e : Js.Error) (w : World) :
  route content image (isThinking w) = ChatStreamPath ->
  API_KEY env = Some key -> Js.truthy key = true ->
  generateContentStream env (chatRequestOf content image w) = inl e ->
  let wf := streamOpened env content image w in
  let w' := exec (handleSendMessage env content image) w in
  messages w'
  = messages w ++ [userMessageOf env content image w;
                   errorMessageOf env (gatewayError e) wf]
  /\ length (messages w') = length (messages wf).
Proof.
  intros Hr Hk Ht Hs wf w'. subst w'.
  destruct (handleSendMessage_failure env content image (gatewayError e) w wf)
    as [_ ->].
  { now apply (tryBlock_chat_refused env content image key). }
  destruct (streamOpened_fields env content image w) as (Hm & _).
  fold wf in Hm.
  assert (Hend : Spec.endsWithEmptyModelMessage (messages wf)).
  { exists (placeholderOf env w ""). rewrite Hm.
    change [userMessageOf env content image w; placeholderOf env w ""]
      with ([userMessageOf env content image w] ++ [placeholderOf env w ""]).
    rewrite app_assoc, last_snoc. repeat split. }
  destruct (reconcileError_replaces (errorMessageOf env (gatewayError e) wf)
              (messages wf) Hend) as [-> Hlen].
  rewrite Hm at 1.
  change [userMessageOf env content image w; placeholderOf env w ""]
    with ([userMessageOf env content image w] ++ [placeholderOf env w ""]).
  rewrite app_assoc, removelast_last, <- app_assoc. split; [reflexivity |].
  exact Hlen.
Qed.

(** A refused image task: the error message is appended after the user's
    message. *)
Lemma edit_failure_appends (content : string) (img : ImageData.t)
    (key : string) (e : Js.Error) (w : World) :
  route content (Some img) (isThinking w) = ImageEditPath ->
  API_KEY env = Some key -> Js.truthy key = true ->
  generateContent env
    (imageTaskRequest (Js.orElse content "Process this image") (Some img))
  = inl e ->
  let w1 := submitted env content (Some img) w in
  let w' := exec (handleSendMessage env content (Some img)) w in
  exists errorMessage,
    Message.content errorMessage = errorContent e
    /\ messages w'
       = messages w ++ [userMessageOf env content (Some img) w; errorMessage]
    /\ length (messages w') = S (length (messages w1)).
Proof.
  intros Hr Hk Ht Hs w1 w'. subst w'.
  destruct (tryBlock_edit_refused env content img key e w Hr Hk Ht Hs)
    as (wf & Htry & Hmf).
  destruct (handleSendMessage_failure env content (Some img) e w wf Htry)
    as [_ ->].
  destruct (submitted_fields env content (Some img) w) as (Hm & _).
  fold w1 in Hm, Hmf. rewrite Hmf, Hm.
  assert (Hend : ~ Spec.endsWithEmptyModelMessage
                     (messages w ++ [userMessageOf env content (Some img) w])).
  { intros (m & Hl & Hrole & _). rewrite last_snoc in Hl.
    injection Hl as <-. discriminate Hrole. }
  destruct (reconcileError_appends (errorMessageOf env e wf) _ Hend) as [-> Hlen].
  exists (errorMessageOf env e wf). split; [reflexivity |].
  split; [now rewrite <- app_assoc |].
  rewrite !length_app. cbn. lia.
Qed.

End FailureCases.

(** ** Frame of a fragment update, and "new chat" *)

(** C8. The update made for a fragment leaves the length and the order of
    the transcript as they are, and every entry whose id is not the
    placeholder's id unchanged; an entry it does change keeps its id, role,
    timestamp and image. *)
Theorem fragment_update_frame (modelMessageId text : string) (w : World) :
  let w' := exec (onChunk modelMessageId text) w in
  length (messages w') = length (messages w)
  /\ map Message.id (messages w') = map Message.id (messages w)
  /\ forall i msg,
       messages w !! i = Some msg ->
       (Message.id msg <> modelMessageId -> messages w' !! i = Some msg)
       /\ exists msg',
            messages w' !! i = Some msg'
            /\ Message.id msg' = Message.id msg
            /\ Message.role msg' = Message.role msg
            /\ Message.timestamp msg' = Message.timestamp msg
            /\ Message.image msg' = Message.image msg.
Proof.
  cbv zeta. fold (deliver modelMessageId w text). rewrite deliver_messages.
  unfold overwriteContent. split; [apply length_map | split].
  - rewrite map_map. apply map_ext. intros m.
    now destruct (String.eqb (Message.id m) modelMessageId).
  - intros i msg Hi. rewrite list_lookup_fmap, Hi. cbn [fmap option_fmap option_map].
    split.
    + intros Hne. apply String.eqb_neq in Hne. now rewrite Hne.
    + eexists. split; [reflexivity |].
      now destruct (String.eqb (Message.id msg) modelMessageId).
Qed.

(** C7. "New chat" on an empty transcript changes nothing: no prompt is
    shown, the transcript stays empty and the storage is untouched. On a
    transcript that is not empty the prompt is shown; when the user
    confirms, the transcript is emptied and the persisted entry is deleted,
    the other keys of the storage being kept; when the user declines,
    nothing but the prompt has happened. *)
Theorem new_chat (env : Env) (w : World) :
  let prompt := "Start a new chat? Current history will be cleared." in
  let w' := exec (handleNewChat env) w in
  (messages w = [] -> handleNewChat env w = (Returned tt, w))
  /\ (messages w <> [] -> confirm env prompt = true ->
        messages w' = []
        /\ localStorage w' !! STORAGE_KEY = None
        /\ (forall k, k <> STORAGE_KEY -> localStorage w' !! k = localStorage w !! k)
        /\ prompts w' = prompts w ++ [prompt])
  /\ (messages w <> [] -> confirm env prompt = false -> w' = withPrompt prompt w).
Proof.
  cbv zeta. unfold exec, handleNewChat, bind, get, window_confirm.
  cbn -[setMessages]. destruct (messages w) as [|m ms] eqn:Em.
  - split; [reflexivity | split; intros H; now elim H].
  - split; [discriminate |]. cbn [length Nat.eqb].
    split; intros _ Hc; rewrite Hc.
    + rewrite setMessages_run. unfold setError, localStorage_removeItem, modify.
      cbn. unfold persisted. cbn. split; [reflexivity |].
      split; [apply lookup_delete_eq |].
      split; [| reflexivity]. intros k Hk. now rewrite lookup_delete_ne.
    + reflexivity.
Qed.

(** "New chat" after an exchange, the user confirming; and on the empty
    transcript of a fresh start. *)
Example new_chat_runs :
  (let w' := exec (handleNewChat Example.env) (Example.worldWith Example.earlier) in
   messages w' = [] /\ localStorage w' !! STORAGE_KEY = None
   /\ length (prompts w') = 1%nat)
  /\ exec (handleNewChat Example.env) (initialWorld ∅) = initialWorld ∅.
Proof. split; [| reflexivity]. vm_compute. repeat split. Qed.

(** ** The timestamps of the transcript are points in time

    An invariant of the transcripts the program builds, by a rule for each
    way of composing computations. *)

Section ProgramLogic.

Context {A B : Type}.
Variable I : World -> Prop.

Lemma keeps_ret (R : A -> Prop) (a : A) : R a -> keeps I R (ret a).
Proof. intros Ha w Hw. split; [exact Hw |]. now intros a' [= <-]. Qed.

Lemma keeps_throw (R : A -> Prop) (e : Js.Error) : keeps I R (throw e).
Proof. intros w Hw. split; [exact Hw | discriminate]. Qed.

Lemma keeps_get (f : World -> A) : keeps I (fun _ => True) (get f).
Proof. intros w Hw. now split. Qed.

Lemma keeps_bind (R : A -> Prop) (R' : B -> Prop) (m : M A) (k : A -> M B) :
  keeps I R m -> (forall a, R a -> keeps I R' (k a)) -> keeps I R' (bind m k).
Proof.
  intros Hm Hk w Hw. destruct (Hm w Hw) as [Hi Hr].
  unfold exec, outcome, bind in *. destruct (m w) as [[a | e] w1]; cbn in *.
  - apply (Hk a (Hr a eq_refl) w1 Hi).
  - split; [exact Hi | discriminate].
Qed.

Lemma keeps_weaken (R R' : A -> Prop) (m : M A) :
  (forall a, R a -> R' a) -> keeps I R m -> keeps I R' m.
Proof.
  intros Himp Hm w Hw. destruct (Hm w Hw) as [Hi Hr].
  split; [exact Hi |]. intros a Ha. apply Himp, Hr, Ha.
Qed.

Lemma keeps_tryCatch (R : A -> Prop) (body : M A) (handler : Js.Error -> M A) :
  keeps I R body -> (forall e, keeps I R (handler e)) ->
  keeps I R (tryCatch body handler).
Proof.
  intros Hb Hh w Hw. destruct (Hb w Hw) as [Hi Hr].
  unfold exec, outcome, tryCatch in *. destruct (body w) as [[a | e] w1]; cbn in *.
  - split; [exact Hi | exact Hr].
  - apply (Hh e w1 Hi).
Qed.

Lemma keeps_tryFinally (R : A -> Prop) (body : M A) (cleanup : M unit) :
  keeps I R body -> keeps I (fun _ => True) cleanup ->
  keeps I R (tryFinally body cleanup).
Proof.
  intros Hb Hc w Hw. destruct (Hb w Hw) as [Hi Hr].
  unfold exec, outcome, tryFinally in *. destruct (body w) as [r w1]; cbn in *.
  destruct (Hc w1 Hi) as [Hi2 _]. unfold exec in Hi2.
  destruct (cleanup w1) as [[[] | e] w2]; cbn in *.
  - split; [exact Hi2 | exact Hr].
  - split; [exact Hi2 | discriminate].
Qed.

End ProgramLogic.

Section TimestampInvariant.

Variable env : Env.

(** The clock shows times a [Date] can hold. *)
Hypothesis clock_in_range :
  forall n, - DateTime.maxTime <= clock env n <= DateTime.maxTime.

Lemma keeps_state (f : World -> World) :
  (forall w, messages (f w) = messages w) ->
  keeps timestampsValid (fun _ : unit => True) (modify f).
Proof.
  intros Hf w Hw. split; [| now intros].
  unfold timestampsValid, exec, modify. cbn. now rewrite Hf.
Qed.

Lemma keeps_setMessages (update : list Message.t -> list Message.t) :
  (forall ms, Forall Spec.timestamped ms -> Forall Spec.timestamped (update ms)) ->
  keeps timestampsValid (fun _ : unit => True) (setMessages update).
Proof.
  intros Hu w Hw. split; [| now intros].
  unfold timestampsValid, exec. rewrite setMessages_run. cbn. now apply Hu.
Qed.

Lemma keeps_Date_now :
  keeps timestampsValid
    (fun t => - DateTime.maxTime <= t <= DateTime.maxTime) (Date_now env).
Proof.
  intros w Hw. split; [exact Hw |]. intros t [= <-]. apply clock_in_range.
Qed.

Lemma keeps_new_Date_now :
  keeps timestampsValid Spec.pointInTime (new_Date_now env).
Proof.
  unfold new_Date_now. eapply keeps_bind; [apply keeps_Date_now |].
  intros t Ht. now apply keeps_ret.
Qed.

Lemma append_valid (m : Message.t) (ms : list Message.t) :
  Spec.pointInTime (Message.timestamp m) ->
  Forall Spec.timestamped ms -> Forall Spec.timestamped (ms ++ [m]).
Proof. intros Hm Hms. apply Forall_app. split; [exact Hms | now constructor]. Qed.

Lemma overwriteContent_valid (mid text : string) (ms : list Message.t) :
  Forall Spec.timestamped ms -> Forall Spec.timestamped (overwriteContent mid text ms).
Proof.
  intros Hms. unfold overwriteContent. apply Forall_fmap.
  eapply Forall_impl; [exact Hms |]. intros m Hm. cbn.
  now destruct (String.eqb (Message.id m) mid).
Qed.

Lemma reconcileError_valid (e : Message.t) (ms : list Message.t) :
  Spec.pointInTime (Message.timestamp e) ->
  Forall Spec.timestamped ms -> Forall Spec.timestamped (reconcileError e ms).
Proof.
  intros He Hms. unfold reconcileError.
  assert (Hr : Forall Spec.timestamped (removelast ms ++ [e])).
  { apply append_valid; [exact He |].
    destruct (last ms) as [m|] eqn:El.
    - apply last_Some in El. destruct El as [l' ->].
      rewrite removelast_last. now apply Forall_app in Hms.
    - apply last_None in El. now subst. }
  destruct (last ms) as [m|]; [destruct (_ && _) |];
    first [exact Hr | now apply append_valid].
Qed.

Lemma keeps_onChunk (mid text : string) :
  keeps timestampsValid (fun _ => True) (onChunk mid text).
Proof.
  unfold onChunk.
  eapply keeps_bind; [apply keeps_state; reflexivity |]. intros _ _.
  eapply keeps_bind; [apply keeps_get |]. intros current _.
  apply keeps_setMessages, overwriteContent_valid.
Qed.

Lemma keeps_forAwaitChunks (mid : string) (chunks : list Chunk.t)
    (fullText : string) :
  keeps timestampsValid (fun _ => True) (forAwaitChunks (onChunk mid) chunks fullText).
Proof.
  revert fullText. induction chunks as [|c cs IH]; intros fullText.
  - now apply keeps_ret.
  - cbn [forAwaitChunks].
    eapply keeps_bind; [apply keeps_onChunk |]. intros _ _. apply IH.
Qed.

Lemma keeps_getAIClient : keeps timestampsValid (fun _ => True) (getAIClient env).
Proof.
  unfold getAIClient. destruct (API_KEY env) as [key|];
    [destruct (Js.truthy key) |];
    first [now apply keeps_ret | apply keeps_throw].
Qed.

Lemma keeps_startChatStream (history : list Message.t) (newMessage mid : string)
    (options : ChatOptions.t) :
  keeps timestampsValid (fun _ => True)
    (startChatStream env history newMessage (onChunk mid) options).
Proof.
  unfold startChatStream.
  eapply keeps_bind; [apply keeps_getAIClient |]. intros _ _.
  apply keeps_tryCatch; [| intros e; apply keeps_throw].
  eapply keeps_bind with (R := (fun _ => True)).
  - intros w Hw. split; [| now intros].
    unfold exec, ai_models_generateContentStream.
    now destruct (generateContentStream env _).
  - intros stream _.
    eapply keeps_bind; [apply keeps_forAwaitChunks |]. intros fullText _.
    destruct (Stream.failure stream); [apply keeps_throw | now apply keeps_ret].
Qed.

Lemma keeps_processImageTask (prompt : string) (imageData : option ImageData.t) :
  keeps timestampsValid (fun _ => True) (processImageTask env prompt imageData).
Proof.
  unfold processImageTask.
  eapply keeps_bind; [apply keeps_getAIClient |]. intros _ _.
  apply keeps_tryCatch; [| intros e; apply keeps_throw].
  eapply keeps_bind with (R := (fun _ => True)).
  - intros w Hw. split; [| now intros].
    unfold exec, ai_models_generateContent.
    now destruct (generateContent env _).
  - intros response _. now apply keeps_ret.
Qed.

Lemma keeps_tryBlock (content : string) (image : option ImageData.t)
    (sub : Submission.t) :
  keeps timestampsValid (fun _ => True) (tryBlock env content image sub).
Proof.
  unfold tryBlock. eapply keeps_bind; [apply keeps_Date_now |]. intros t1 _.
  assert (Hchat : keeps timestampsValid (fun _ => True)
            (chatStreamPath env content image (Submission.thinking sub)
               (Submission.snapshot sub) (Submission.userMessage sub)
               (Js.Number_toString (t1 + 1)))).
  { unfold chatStreamPath.
    eapply keeps_bind; [apply keeps_state; reflexivity |]. intros _ _.
    eapply keeps_bind; [apply keeps_new_Date_now |]. intros now Hnow.
    eapply keeps_bind;
      [apply keeps_setMessages; intros ms; now apply append_valid |].
    intros _ _.
    eapply keeps_bind; [apply keeps_state; reflexivity |]. intros _ _.
    eapply keeps_bind; [apply keeps_state; reflexivity |]. intros _ _.
    eapply keeps_bind; [apply keeps_startChatStream |]. intros _ _.
    now apply keeps_ret. }
  destruct (route content image (Submission.thinking sub)), image as [img|];
    try exact Hchat.
  unfold imageEditPath.
  eapply keeps_bind; [apply keeps_processImageTask |]. intros response _.
  eapply keeps_bind; [apply keeps_new_Date_now |]. intros now Hnow.
  apply keeps_setMessages. intros ms. now apply append_valid.
Qed.

Lemma keeps_catchBlock (err : Js.Error) :
  keeps timestampsValid (fun _ => True) (catchBlock env err).
Proof.
  unfold catchBlock.
  eapply keeps_bind; [apply keeps_state; reflexivity |]. intros _ _.
  eapply keeps_bind; [apply keeps_Date_now |]. intros t _.
  eapply keeps_bind; [apply keeps_new_Date_now |]. intros now Hnow.
  apply keeps_setMessages. intros ms. now apply reconcileError_valid.
Qed.

(** A submission leaves a transcript whose timestamps are points in time,
    whatever the provider does. *)
Lemma handleSendMessage_timestamps (content : string)
    (image : option ImageData.t) :
  keeps timestampsValid (fun _ => True) (handleSendMessage env content image).
Proof.
  unfold handleSendMessage.
  eapply keeps_bind with (R := (fun _ => True)).
  - unfold beginSubmission.
    eapply keeps_bind; [apply keeps_get |]. intros snapshot _.
    eapply keeps_bind; [apply keeps_get |]. intros thinking _.
    eapply keeps_bind; [apply keeps_state; reflexivity |]. intros _ _.
    eapply keeps_bind; [apply keeps_Date_now |]. intros t _.
    eapply keeps_bind; [apply keeps_new_Date_now |]. intros now Hnow.
    eapply keeps_bind;
      [apply keeps_setMessages; intros ms; now apply append_valid |].
    intros _ _.
    eapply keeps_bind; [apply keeps_state; reflexivity |]. intros _ _.
    now apply keeps_ret.
  - intros sub _. apply keeps_tryFinally.
    + apply keeps_tryCatch; [apply keeps_tryBlock | apply keeps_catchBlock].
    + unfold finallyBlock.
      eapply keeps_bind; [apply keeps_state; reflexivity |]. intros _ _.
      apply keeps_state. reflexivity.
Qed.

Lemma handleNewChat_timestamps :
  keeps timestampsValid (fun _ => True) (handleNewChat env).
Proof.
  unfold handleNewChat.
  eapply keeps_bind; [apply keeps_get |]. intros ms _.
  destruct (Nat.eqb (length ms) 0); [now apply keeps_ret |].
  eapply keeps_bind with (R := (fun _ => True)).
  - intros w Hw. now split.
  - intros confirmed _. destruct confirmed; [| now apply keeps_ret].
    eapply keeps_bind;
      [apply keeps_setMessages; intros; constructor |]. intros _ _.
    eapply keeps_bind; [apply keeps_state; reflexivity |]. intros _ _.
    apply keeps_state. reflexivity.
Qed.

End TimestampInvariant.

(** ** Dates: the ISO text of a time value parses back to it *)

Section Digits.

Import DateTime.

Lemma readDigit_digitChar (d : Z) :
  0 <= d <= 9 -> readDigit (digitChar d) = Some d.
Proof.
  intros H.
  assert (Hd : d = 0 \/ d = 1 \/ d = 2 \/ d = 3 \/ d = 4
               \/ d = 5 \/ d = 6 \/ d = 7 \/ d = 8 \/ d = 9) by lia.
  repeat (destruct Hd as [-> | Hd]; [reflexivity |]). now subst.
Qed.

Lemma readNumber_padded (width : nat) (n acc : Z) (rest : string) :
  0 <= n ->
  readNumber width acc (padded width n +:+ rest)
  = Some (acc * 10 ^ Z.of_nat width + n mod 10 ^ Z.of_nat width, rest).
Proof.
  intros Hn. revert acc. induction width as [|w IH]; intros acc.
  - cbn [readNumber padded]. rewrite append_nil_l. do 2 f_equal.
    change (10 ^ Z.of_nat 0) with 1. rewrite Z.mod_1_r. lia.
  - cbn [readNumber padded]. rewrite append_cons.
    rewrite readDigit_digitChar
      by (pose proof (Z.mod_pos_bound (n / 10 ^ Z.of_nat w) 10); lia).
    cbn [mbind option_bind]. rewrite IH. do 2 f_equal.
    rewrite Nat2Z.inj_succ, Z.pow_succ_r by lia.
    rewrite (Z.mul_comm 10), Z.rem_mul_r by lia. lia.
Qed.

Lemma readNumber_padded_exact (width : nat) (n : Z) (rest : string) :
  0 <= n < 10 ^ Z.of_nat width ->
  readNumber width 0 (padded width n +:+ rest) = Some (n, rest).
Proof.
  intros H. rewrite readNumber_padded by lia.
  now rewrite Z.mod_small by lia.
Qed.

End Digits.

Section Calendar.

Import DateTime.

Lemma DayFromYear_next (y : Z) :
  DayFromYear (y + 1) = DayFromYear y + DaysInYear y.
Proof.
  unfold DayFromYear, DaysInYear, isLeapYear.
  destruct (Z.eqb_spec (y mod 4) 0), (Z.eqb_spec (y mod 100) 0),
    (Z.eqb_spec (y mod 400) 0); cbn [andb orb negb];
    Z.div_mod_to_equations; lia.
Qed.

(** The year found for a day number is the year the day falls in. *)
Lemma YearFromDay_bracket (d : Z) :
  DayFromYear (YearFromDay d) <= d < DayFromYear (YearFromDay d + 1).
Proof.
  unfold YearFromDay. set (y := 1970 + d * 400 / 146097).
  assert (Hy : 146097 * (y - 1970) <= d * 400 < 146097 * (y - 1970) + 146097).
  { subst y. Z.div_mod_to_equations. lia. }
  clearbody y.
  destruct (Z.ltb_spec d (DayFromYear y)) as [H1 | H1];
    [| destruct (Z.leb_spec (DayFromYear (y + 1)) d) as [H2 | H2]];
    unfold DayFromYear in *; Z.div_mod_to_equations; lia.
Qed.

Lemma YearFromTime_range (t : Z) :
  - maxTime <= t <= maxTime ->
  -271821 <= YearFromTime t <= 275760.
Proof.
  intros Ht. unfold YearFromTime.
  pose proof (YearFromDay_bracket (Day t)) as Hb.
  assert (Hd : -100000000 <= Day t <= 100000000).
  { unfold Day, msPerDay, maxTime in *. Z.div_mod_to_equations. lia. }
  set (y := YearFromDay (Day t)) in *. clearbody y.
  unfold DayFromYear in Hb. Z.div_mod_to_equations. lia.
Qed.

Lemma DayWithinYear_range (t : Z) :
  0 <= DayWithinYear t < DaysInYear (YearFromTime t).
Proof.
  unfold DayWithinYear, YearFromTime.
  pose proof (YearFromDay_bracket (Day t)) as Hb.
  rewrite DayFromYear_next in Hb. lia.
Qed.

(** The month found for a day of the year contains that day. *)
Lemma monthOfDay_bracket (leap : bool) (d : Z) :
  0 <= d < monthStart leap 12 ->
  0 <= monthOfDay leap d <= 11
  /\ monthStart leap (monthOfDay leap d) <= d
  /\ d < monthStart leap (monthOfDay leap d + 1).
Proof.
  intros Hd. unfold monthOfDay.
  repeat match goal with
         | |- context [if ?a <? ?b then _ else _] =>
             destruct (Z.ltb_spec a b)
         end;
    destruct leap; cbn in *;
    repeat match goal with
           | |- context [monthStart ?l ?m] =>
               let v := eval vm_compute in (monthStart l m) in
               change (monthStart l m) with v
           end;
    lia.
Qed.

Lemma monthStart_12 (y : Z) : monthStart (isLeapYear y) 12 = DaysInYear y.
Proof. unfold DaysInYear. now destruct (isLeapYear y). Qed.

Lemma MonthFromTime_range (t : Z) : 0 <= MonthFromTime t <= 11.
Proof.
  unfold MonthFromTime. apply monthOfDay_bracket.
  rewrite monthStart_12. apply DayWithinYear_range.
Qed.

Lemma DateFromTime_range (t : Z) :
  1 <= DateFromTime t <= daysInMonth (YearFromTime t) (MonthFromTime t + 1).
Proof.
  unfold DateFromTime, daysInMonth, MonthFromTime.
  pose proof (DayWithinYear_range t) as Hd. rewrite <- monthStart_12 in Hd.
  destruct (monthOfDay_bracket (isLeapYear (YearFromTime t)) (DayWithinYear t) Hd)
    as (_ & H1 & H2).
  replace (monthOfDay (isLeapYear (YearFromTime t)) (DayWithinYear t) + 1 - 1)
    with (monthOfDay (isLeapYear (YearFromTime t)) (DayWithinYear t)) by lia.
  lia.
Qed.

Lemma daysInMonth_le_31 (y m : Z) : 1 <= m <= 12 -> daysInMonth y m <= 31.
Proof.
  intros Hm. unfold daysInMonth.
  assert (H : m = 1 \/ m = 2 \/ m = 3 \/ m = 4 \/ m = 5 \/ m = 6 \/ m = 7
              \/ m = 8 \/ m = 9 \/ m = 10 \/ m = 11 \/ m = 12) by lia.
  repeat (destruct H as [H | H]);
    subst m; destruct (isLeapYear y); vm_compute; discriminate.
Qed.

(** The date of a time value, put back together, is its day number. *)
Lemma MakeDay_FromTime (t : Z) :
  MakeDay (YearFromTime t) (MonthFromTime t) (DateFromTime t) = Day t.
Proof.
  pose proof (MonthFromTime_range t) as Hm. unfold MakeDay.
  rewrite Z.div_small, Z.mod_small, Z.add_0_r by lia.
  unfold DateFromTime, DayWithinYear. lia.
Qed.

(** The time of day of a time value, put back together. *)
Lemma MakeTime_FromTime (t : Z) :
  MakeTime (HourFromTime t) (MinFromTime t) (SecFromTime t) (msFromTime t)
  = TimeWithinDay t.
Proof.
  unfold MakeTime, HourFromTime, MinFromTime, SecFromTime, msFromTime,
    TimeWithinDay, msPerHour, msPerMinute, msPerSecond, msPerDay.
  Z.div_mod_to_equations. lia.
Qed.

Lemma MakeDate_FromTime (t : Z) :
  MakeDate (MakeDay (YearFromTime t) (MonthFromTime t) (DateFromTime t))
           (MakeTime (HourFromTime t) (MinFromTime t) (SecFromTime t)
                     (msFromTime t))
  = t.
Proof.
  rewrite MakeDay_FromTime, MakeTime_FromTime.
  unfold MakeDate, Day, TimeWithinDay, msPerDay.
  Z.div_mod_to_equations. lia.
Qed.

End Calendar.

Section IsoText.

Import DateTime.

Lemma readYear_digits (d : Z) (s : string) :
  0 <= d <= 9 ->
  readYear (String (digitChar d) s) = readNumber 4 0 (String (digitChar d) s).
Proof.
  intros H.
  assert (Hd : d = 0 \/ d = 1 \/ d = 2 \/ d = 3 \/ d = 4
               \/ d = 5 \/ d = 6 \/ d = 7 \/ d = 8 \/ d = 9) by lia.
  repeat (destruct Hd as [Hd | Hd]); subst d; reflexivity.
Qed.

Lemma readYear_yearText (y : Z) (rest : string) :
  -999999 <= y <= 999999 ->
  readYear (yearText y +:+ rest) = Some (y, rest).
Proof.
  intros Hy. unfold yearText.
  destruct (Z.leb_spec 0 y) as [H0 | H0];
    [destruct (Z.leb_spec y 9999) as [H1 | H1] |]; cbn [andb].
  - change (padded 4 y) with (String (digitChar ((y / 10 ^ 3) mod 10)) (padded 3 y)).
    rewrite append_cons, readYear_digits
      by (pose proof (Z.mod_pos_bound (y / 10 ^ 3) 10); lia).
    rewrite <- append_cons.
    change (String (digitChar ((y / 10 ^ 3) mod 10)) (padded 3 y)) with (padded 4 y).
    apply readNumber_padded_exact. cbn. lia.
  - rewrite append_assoc, append_cons, append_nil_l. cbn [readYear].
    rewrite Z.abs_eq by lia. apply readNumber_padded_exact. cbn. lia.
  - rewrite append_assoc, append_cons, append_nil_l. cbn [readYear].
    rewrite readNumber_padded_exact by (cbn; lia).
    cbn [mbind option_bind].
    destruct (Z.eqb_spec (Z.abs y) 0) as [E | E]; [lia |].
    do 2 f_equal. lia.
Qed.

Lemma expect_here (c : ascii) (rest : string) :
  expect c (String c rest) = Some rest.
Proof. cbn. now rewrite Ascii.eqb_refl. Qed.

(** The ISO text of a time value a [Date] can hold parses back to it. *)
Lemma parseISO_toISOString (t : Z) :
  - maxTime <= t <= maxTime -> parseISO (toISOString t) = Some t.
Proof.
  intros Ht.
  pose proof (YearFromTime_range t Ht) as Hy.
  pose proof (MonthFromTime_range t) as Hm.
  pose proof (DateFromTime_range t) as Hd.
  pose proof (daysInMonth_le_31 (YearFromTime t) (MonthFromTime t + 1)) as Hd31.
  assert (Hh : 0 <= HourFromTime t <= 23)
    by (unfold HourFromTime; pose proof (Z.mod_pos_bound (t / msPerHour) 24); lia).
  assert (Hmi : 0 <= MinFromTime t <= 59)
    by (unfold MinFromTime; pose proof (Z.mod_pos_bound (t / msPerMinute) 60); lia).
  assert (Hs : 0 <= SecFromTime t <= 59)
    by (unfold SecFromTime; pose proof (Z.mod_pos_bound (t / msPerSecond) 60); lia).
  assert (Hms : 0 <= msFromTime t <= 999)
    by (unfold msFromTime, msPerSecond; pose proof (Z.mod_pos_bound t 1000); lia).
  unfold parseISO, toISOString.
  rewrite readYear_yearText by lia. cbn [mbind option_bind].
  repeat (rewrite ?append_cons, ?append_nil_l, ?expect_here;
          cbn [mbind option_bind];
          rewrite ?readNumber_padded_exact by (cbn; lia);
          cbn [mbind option_bind]).
  rewrite !(proj2 (Z.leb_le _ _)) by lia. cbn [andb String.eqb].
  replace (MonthFromTime t + 1 - 1) with (MonthFromTime t) by lia.
  now rewrite MakeDate_FromTime.
Qed.

Lemma TimeClip_in_range (t : Z) :
  - maxTime <= t <= maxTime -> TimeClip t = TimeValue t.
Proof.
  intros Ht. unfold TimeClip.
  destruct (Z.ltb_spec maxTime (Z.abs t)); [lia | reflexivity].
Qed.

(** [new Date(d.toISOString())] is [d], for a date that is a point in
    time, whatever the implementation does with other texts. *)
Lemma parse_toISOString (legacy : string -> Date) (t : Z) :
  - maxTime <= t <= maxTime ->
  DateTime.parse legacy (toISOString t) = TimeValue t.
Proof.
  intros Ht. unfold DateTime.parse.
  now rewrite parseISO_toISOString, TimeClip_in_range.
Qed.

End IsoText.

(** ** Persisting the transcript and loading it again *)

Section Persistence.

Lemma hydrateMessage_toJSON (legacy : string -> Date) (m : Message.t) :
  Spec.pointInTime (Message.timestamp m) ->
  Json.hydrateMessage legacy (Json.Message_toJSON m) = Some m.
Proof.
  destruct m as [i r c ts im]. cbn [Message.timestamp]. intros Hts.
  destruct ts as [t|]; [| contradiction]. cbn [Spec.pointInTime] in Hts.
  unfold Json.hydrateMessage, Json.Message_toJSON.
  cbn [Message.id Message.role Message.content Message.timestamp Message.image].
  destruct im as [[d mt]|], r;
    cbn -[DateTime.parse DateTime.toISOString];
    now rewrite parse_toISOString.
Qed.

Lemma hydrateMessages_stringify (legacy : string -> Date) (ms : list Message.t) :
  Forall Spec.timestamped ms ->
  Json.hydrateMessages legacy (JArray (map Json.Message_toJSON ms)) = Some ms.
Proof.
  intros Hms. cbn [Json.hydrateMessages]. apply mapM_Some.
  apply Forall2_fmap_l, Forall_Forall2_diag.
  eapply Forall_impl; [exact Hms |]. intros m Hm.
  now apply hydrateMessage_toJSON.
Qed.

Lemma persistEffect_storage (w : World) :
  messages w <> [] ->
  localStorage (exec persistEffect w)
  = <[STORAGE_KEY := Json.stringify (messages w)]> (localStorage w).
Proof.
  intros Hne. unfold exec, persistEffect, bind, get. cbn.
  destruct (messages w) as [|m ms]; [now elim Hne | reflexivity].
Qed.

(** The hydrate effect on a storage that holds a persisted transcript. *)
Lemma hydrateEffect_loads (env : Env) (ms : list Message.t)
    (storage : gmap string StoredText) :
  storage !! STORAGE_KEY = Some (Json.stringify ms) ->
  Forall Spec.timestamped ms ->
  messages (exec (hydrateEffect env) (initialWorld storage)) = ms.
Proof.
  intros Hst Hms. unfold exec, hydrateEffect, bind, localStorage_getItem, get.
  cbn -[setMessages Json.hydrateMessages]. rewrite Hst.
  cbn -[setMessages Json.hydrateMessages]. unfold tryCatch.
  rewrite hydrateMessages_stringify by assumption.
  now rewrite setMessages_run.
Qed.

End Persistence.

(** C4. A transcript that is not empty, its timestamps being points in
    time (as they are in every transcript the program builds, see
    [handleSendMessage_timestamps]), is persisted by the persist effect; an
    application started on the storage so written loads exactly that
    transcript: the same messages in the same order, each with its id, role,
    content, image and timestamp (a time value is a whole number of
    milliseconds, which its ISO text holds in full). *)
Theorem persist_reload_roundtrip (env : Env) (w : World) :
  messages w <> [] ->
  timestampsValid w ->
  let stored := localStorage (exec persistEffect w) in
  messages (exec (hydrateEffect env) (initialWorld stored)) = messages w.
Proof.
  intros Hne Hms stored. apply hydrateEffect_loads; [| exact Hms].
  subst stored. rewrite persistEffect_storage by exact Hne.
  apply lookup_insert_eq.
Qed.

Lemma persist_reload_roundtrip_witness :
  messages (exec (hydrateEffect Example.env)
                 (initialWorld
                    (localStorage
                       (exec persistEffect (Example.worldWith Example.earlier)))))
  = Example.earlier.
Proof.
  apply (persist_reload_roundtrip Example.env (Example.worldWith Example.earlier)).
  - discriminate.
  - repeat constructor; vm_compute; discriminate.
Defined.

(** What is stored for a message, and what comes back. A timestamp that is
    the invalid date is stored as null and comes back as the epoch: outside
    the points in time the round trip does not hold. *)
Example stored_form :
  Json.Message_toJSON
    (Message.mk "1700000000000" USER "hello" (TimeValue 1700000000123) None)
  = JObject [("id", JString "1700000000000"); ("role", JString "user");
             ("content", JString "hello");
             ("timestamp", JString "2023-11-14T22:13:20.123Z")].
Proof. vm_compute. reflexivity. Qed.

Remark invalid_timestamp_reloads_as_epoch (env : Env) :
  let m := Message.mk "1" USER "x" InvalidDate None in
  messages (exec (hydrateEffect env)
                 (initialWorld
                    (localStorage (exec persistEffect (Example.worldWith [m])))))
  = [Message.mk "1" USER "x" (TimeValue 0) None].
Proof. vm_compute. reflexivity. Qed.

(** ** More runs of the handler, and what a submission leaves alone *)

Section MoreRuns.

Variable env : Env.

Lemma submitted_state (content : string) (image : option ImageData.t)
    (w : World) :
  let w1 := submitted env content image w in
  error w1 = None
  /\ isLoading w1 = true
  /\ isStreaming w1 = isStreaming w
  /\ localStorage w1
     = persisted (messages w ++ [userMessageOf env content image w])
                 (localStorage w).
Proof.
  unfold submitted, exec, beginSubmission. run_primitives.
  rewrite setMessages_run. cbn. repeat split.
Qed.

(** The [try] block on the image-edit path when the provider answers. *)
Lemma tryBlock_edit_run (content : string) (img : ImageData.t)
    (key : string) (response : Response.t) (w : World) :
  route content (Some img) (isThinking w) = ImageEditPath ->
  API_KEY env = Some key -> Js.truthy key = true ->
  generateContent env
    (imageTaskRequest (Js.orElse content "Process this image") (Some img))
  = inr response ->
  exists wf,
    tryBlock env content (Some img)
      (Submission.mk (messages w) (isThinking w)
         (userMessageOf env content (Some img) w))
      (submitted env content (Some img) w)
    = (Returned tt, wf)
    /\ messages wf
       = messages w
         ++ [userMessageOf env content (Some img) w;
             Message.mk (modelMessageIdOf env w) MODEL
               (Js.orElse (scanResponse response).1 "Here is your edited image.")
               (TimeValue (clock env (S (S (S (clockReads w))))))
               (match (scanResponse response).2 with
                | Some fi =>
                    Some (ImageData.mk
                            (applyWatermark env (ImageData.data fi)
                               (ImageData.mimeType fi))
                            (ImageData.mimeType fi))
                | None => None
                end)].
Proof.
  intros Hr Hk Ht Hs.
  destruct (submitted_fields env content (Some img) w) as (Hm & _ & Hc & _).
  unfold tryBlock.
  cbn [Submission.thinking Submission.snapshot Submission.userMessage].
  rewrite Hr. unfold bind at 1. unfold Date_now at 1. cbn beta iota.
  rewrite Hc. fold (modelMessageIdOf env w).
  unfold imageEditPath, bind.
  erewrite processImageTask_run by eassumption.
  unfold new_Date_now, bind, Date_now, ret. cbn -[setMessages].
  rewrite setMessages_run. eexists. split; [reflexivity |].
  cbn. rewrite Hc, Hm, <- app_assoc. reflexivity.
Qed.

(** The [try] block without a credential: the gateway throws before any
    call; on the chat-stream path the placeholder is already there. *)
Lemma tryBlock_without_key (content : string) (image : option ImageData.t)
    (w : World) :
  Spec.noCredential env ->
  exists wf,
    tryBlock env content image
      (Submission.mk (messages w) (isThinking w)
         (userMessageOf env content image w))
      (submitted env content image w)
    = (Thrown (Js.new_Error "API Key is not configured in the environment."), wf)
    /\ network wf = network w
    /\ (messages wf = messages w ++ [userMessageOf env content image w]
        \/ messages wf
           = messages w ++ [userMessageOf env content image w;
                            placeholderOf env w ""]).
Proof.
  intros Hno.
  destruct (submitted_fields env content image w) as (Hm & _ & Hc & Hn & _).
  unfold tryBlock.
  cbn [Submission.thinking Submission.snapshot Submission.userMessage].
  assert (Hchat : exists wf,
    (t1 <- Date_now env ;;
     chatStreamPath env content image (isThinking w) (messages w)
       (userMessageOf env content image w) (Js.Number_toString (t1 + 1)))
      (submitted env content image w)
    = (Thrown (Js.new_Error "API Key is not configured in the environment."), wf)
    /\ network wf = network w
    /\ (messages wf = messages w ++ [userMessageOf env content image w]
        \/ messages wf
           = messages w ++ [userMessageOf env content image w;
                            placeholderOf env w ""])).
  { unfold bind at 1. unfold Date_now at 1. cbn beta iota. rewrite Hc.
    fold (modelMessageIdOf env w).
    unfold chatStreamPath, bind, modify, new_Date_now, bind, Date_now, ret,
      setIsStreaming, setIsLoading, modify.
    cbn -[setMessages startChatStream]. rewrite Hc.
    rewrite setMessages_run. cbn -[startChatStream].
    unfold startChatStream, bind. rewrite (getAIClient_missing env _ Hno).
    eexists. split; [reflexivity |]. cbn. rewrite Hn, Hm, <- app_assoc.
    split; [reflexivity | right; reflexivity]. }
  destruct (route content image (isThinking w)), image as [img|];
    try exact Hchat.
  unfold bind at 1. unfold Date_now at 1. cbn beta iota.
  unfold imageEditPath, bind, processImageTask, bind.
  rewrite (getAIClient_missing env _ Hno).
  eexists. split; [reflexivity |]. cbn. rewrite Hn, Hm.
  split; [reflexivity | left; reflexivity].
Qed.

End MoreRuns.

(** Invariants of the world that the [try] block keeps: any property kept
    by the updates the block makes, where an update of the transcript is
    one that leaves a transcript with entries non-empty. *)
Section KeptByTry.

Variable env : Env.
Variable I : World -> Prop.

Hypothesis I_setMessages :
  forall update w, (forall ms, ms <> [] -> update ms <> []) ->
    I w -> I (exec (setMessages update) w).
Hypothesis I_isLoading : forall b w, I w -> I (withIsLoading b w).
Hypothesis I_isStreaming : forall b w, I w -> I (withIsStreaming b w).
Hypothesis I_streamContent : forall s w, I w -> I (withStreamContent s w).
Hypothesis I_clockRead : forall w, I w -> I (withClockRead w).
Hypothesis I_networkCall : forall c w, I w -> I (withNetworkCall c w).

Lemma kept_modify (f : World -> World) :
  (forall w, I w -> I (f w)) -> keeps I (fun _ : unit => True) (modify f).
Proof. intros Hf w Hw. split; [apply Hf, Hw | now intros]. Qed.

Lemma kept_setMessages (update : list Message.t -> list Message.t) :
  (forall ms, ms <> [] -> update ms <> []) ->
  keeps I (fun _ : unit => True) (setMessages update).
Proof. intros Hu w Hw. split; [now apply I_setMessages | now intros]. Qed.

Lemma kept_Date_now : keeps I (fun _ : Z => True) (Date_now env).
Proof. intros w Hw. split; [apply I_clockRead, Hw | now intros]. Qed.

Lemma kept_new_Date_now : keeps I (fun _ : Date => True) (new_Date_now env).
Proof.
  unfold new_Date_now. eapply keeps_bind; [apply kept_Date_now |].
  intros t _. now apply keeps_ret.
Qed.

Lemma append_nonempty {T} (x : T) (l : list T) : l ++ [x] <> [].
Proof. now destruct l. Qed.

Lemma overwriteContent_nonempty (mid text : string) (ms : list Message.t) :
  ms <> [] -> overwriteContent mid text ms <> [].
Proof. now destruct ms. Qed.

Lemma reconcileError_nonempty (e : Message.t) (ms : list Message.t) :
  reconcileError e ms <> [].
Proof.
  unfold reconcileError.
  destruct (last ms); [destruct (_ && _) |]; apply append_nonempty.
Qed.

Lemma kept_onChunk (mid text : string) :
  keeps I (fun _ : unit => True) (onChunk mid text).
Proof.
  unfold onChunk.
  eapply keeps_bind; [apply kept_modify; intros; now apply I_streamContent |].
  intros _ _. eapply keeps_bind; [apply keeps_get |]. intros current _.
  apply kept_setMessages, overwriteContent_nonempty.
Qed.

Lemma kept_forAwaitChunks (mid : string) (chunks : list Chunk.t)
    (fullText : string) :
  keeps I (fun _ : string => True) (forAwaitChunks (onChunk mid) chunks fullText).
Proof.
  revert fullText. induction chunks as [|c cs IH]; intros fullText.
  - now apply keeps_ret.
  - cbn [forAwaitChunks].
    eapply keeps_bind; [apply kept_onChunk |]. intros _ _. apply IH.
Qed.

Lemma kept_getAIClient : keeps I (fun _ : string => True) (getAIClient env).
Proof.
  unfold getAIClient. destruct (API_KEY env) as [key|];
    [destruct (Js.truthy key) |];
    first [now apply keeps_ret | apply keeps_throw].
Qed.

Lemma kept_startChatStream (history : list Message.t) (newMessage mid : string)
    (options : ChatOptions.t) :
  keeps I (fun _ : string => True)
    (startChatStream env history newMessage (onChunk mid) options).
Proof.
  unfold startChatStream.
  eapply keeps_bind; [apply kept_getAIClient |]. intros _ _.
  apply keeps_tryCatch; [| intros e; apply keeps_throw].
  eapply keeps_bind with (R := fun _ => True).
  - intros w Hw. split; [| now intros].
    unfold exec, ai_models_generateContentStream.
    destruct (generateContentStream env _); now apply I_networkCall.
  - intros stream _.
    eapply keeps_bind; [apply kept_forAwaitChunks |]. intros fullText _.
    destruct (Stream.failure stream); [apply keeps_throw | now apply keeps_ret].
Qed.

Lemma kept_processImageTask (prompt : string) (imageData : option ImageData.t) :
  keeps I (fun _ : ImageTaskResult.t => True)
    (processImageTask env prompt imageData).
Proof.
  unfold processImageTask.
  eapply keeps_bind; [apply kept_getAIClient |]. intros _ _.
  apply keeps_tryCatch; [| intros e; apply keeps_throw].
  eapply keeps_bind with (R := fun _ => True).
  - intros w Hw. split; [| now intros].
    unfold exec, ai_models_generateContent.
    destruct (generateContent env _); now apply I_networkCall.
  - intros response _. now apply keeps_ret.
Qed.

Lemma kept_tryBlock (content : string) (image : option ImageData.t)
    (sub : Submission.t) :
  keeps I (fun _ : unit => True) (tryBlock env content image sub).
Proof.
  unfold tryBlock. eapply keeps_bind; [apply kept_Date_now |]. intros t1 _.
  assert (Hchat : keeps I (fun _ : unit => True)
            (chatStreamPath env content image (Submission.thinking sub)
               (Submission.snapshot sub) (Submission.userMessage sub)
               (Js.Number_toString (t1 + 1)))).
  { unfold chatStreamPath.
    eapply keeps_bind; [apply kept_modify; intros; now apply I_streamContent |].
    intros _ _.
    eapply keeps_bind; [apply kept_new_Date_now |]. intros now _.
    eapply keeps_bind;
      [apply kept_setMessages; intros ms _; apply append_nonempty |].
    intros _ _.
    eapply keeps_bind; [apply kept_modify; intros; now apply I_isStreaming |].
    intros _ _.
    eapply keeps_bind; [apply kept_modify; intros; now apply I_isLoading |].
    intros _ _.
    eapply keeps_bind; [apply kept_startChatStream |]. intros _ _.
    now apply keeps_ret. }
  destruct (route content image (Submission.thinking sub)), image as [img|];
    try exact Hchat.
  unfold imageEditPath.
  eapply keeps_bind; [apply kept_processImageTask |]. intros response _.
  eapply keeps_bind; [apply kept_new_Date_now |]. intros now _.
  apply kept_setMessages. intros ms _. apply append_nonempty.
Qed.

Lemma kept_finallyBlock : keeps I (fun _ : unit => True) finallyBlock.
Proof.
  unfold finallyBlock.
  eapply keeps_bind; [apply kept_modify; intros; now apply I_isLoading |].
  intros _ _. apply kept_modify. intros. now apply I_isStreaming.
Qed.

(** With the update of the error banner kept too, the [catch] block keeps
    the invariant. *)
Hypothesis I_error : forall e w, I w -> I (withError e w).

Lemma kept_catchBlock (err : Js.Error) :
  keeps I (fun _ : unit => True) (catchBlock env err).
Proof.
  unfold catchBlock.
  eapply keeps_bind; [apply kept_modify; intros; now apply I_error |].
  intros _ _.
  eapply keeps_bind; [apply kept_Date_now |]. intros t _.
  eapply keeps_bind; [apply kept_new_Date_now |]. intros now _.
  apply kept_setMessages. intros ms _. apply reconcileError_nonempty.
Qed.

End KeptByTry.

(** ** Every outcome of a submission *)

Section Outcomes.

Variable env : Env.

Lemma catchBlock_state (err : Js.Error) (w : World) :
  outcome (catchBlock env err) w = Returned tt
  /\ error (exec (catchBlock env err) w)
     = Some (Js.orDefault (Js.message err) "An unexpected error occurred.")
  /\ network (exec (catchBlock env err) w) = network w.
Proof.
  unfold outcome, exec, catchBlock. run_primitives.
  rewrite setMessages_run. repeat split.
Qed.

Lemma setMessages_error (update : list Message.t -> list Message.t) (w : World) :
  error (exec (setMessages update) w) = error w.
Proof. unfold exec. now rewrite setMessages_run. Qed.

(** The [try] block leaves the error banner as it is. *)
Lemma tryBlock_error (content : string) (image : option ImageData.t)
    (sub : Submission.t) (w : World) (banner : option string) :
  error w = banner -> error (exec (tryBlock env content image sub) w) = banner.
Proof.
  intros Hw.
  refine (proj1 (kept_tryBlock env (fun w => error w = banner) _ _ _ _ _ _
                   content image sub w Hw)); try (intros; assumption).
  intros update w0 _ H0. now rewrite setMessages_error.
Qed.

End Outcomes.


(** X2. The error banner after a submission: it is cleared when the [try]
    block returned, whatever it held before, and holds the error's message,
    or "An unexpected error occurred." for an error without one, when the
    block threw. *)
Theorem error_banner_after_submission (env : Env) (content : string)
    (image : option ImageData.t) (w : World) :
  error (exec (handleSendMessage env content image) w)
  = match outcome (tryBlock env content image
                     (Submission.mk (messages w) (isThinking w)
                        (userMessageOf env content image w)))
                  (submitted env content image w) with
    | Returned _ => None
    | Thrown err =>
        Some (Js.orDefault (Js.message err) "An unexpected error occurred.")
    end.
Proof.
  destruct (submitted_state env content image w) as (He & _).
  pose proof (tryBlock_error env content image
                (Submission.mk (messages w) (isThinking w)
                   (userMessageOf env content image w))
                (submitted env content image w) None He) as Ht.
  unfold outcome, exec in *. unfold handleSendMessage, bind.
  rewrite beginSubmission_run. unfold tryFinally, tryCatch.
  destruct (tryBlock env content image _ _) as [[[] | err] wf]; cbn [fst snd] in *.
  - unfold finallyBlock. run_primitives. exact Ht.
  - destruct (catchBlock_state env err wf) as (Ho & Hb & _).
    unfold outcome, exec in Ho, Hb.
    destruct (catchBlock env err wf) as [r wc]. cbn in Ho, Hb. subst r.
    unfold finallyBlock. run_primitives. exact Hb.
Qed.

(** X3. A stream that fails after it has delivered text: the partial reply
    stays in the transcript and the error message is appended after it; when
    no text was delivered the error message takes the placeholder's place. *)
Theorem stream_failure_keeps_partial_reply (env : Env) (content : string)
    (image : option ImageData.t) (key : string) (chunks : list Chunk.t)
    (e : Js.Error) (w : World) :
  route content image (isThinking w) = ChatStreamPath ->
  API_KEY env = Some key -> Js.truthy key = true ->
  generateContentStream env (chatRequestOf content image w)
  = inr (Stream.mk chunks (Some e)) ->
  let partial := Spec.joinAll (map chunkText chunks) in
  let w' := exec (handleSendMessage env content image) w in
  exists earlier user errorMessage,
    length earlier = length (messages w)
    /\ Message.role user = USER
    /\ Message.role errorMessage = MODEL
    /\ Message.content errorMessage = errorContent (gatewayError e)
    /\ (partial <> "" ->
          messages w'
          = earlier ++ [user; placeholderOf env w partial; errorMessage])
    /\ (partial = "" -> messages w' = earlier ++ [user; errorMessage]).
Proof.
  intros Hr Hk Ht Hs partial w'. subst w'.
  set (mid := modelMessageIdOf env w).
  set (wf := delivered mid (map chunkText chunks) (streamOpened env content image w)).
  destruct (handleSendMessage_failure env content image (gatewayError e) w wf)
    as [_ ->].
  { now rewrite (tryBlock_chat_run env content image key
                   (Stream.mk chunks (Some e)) w). }
  destruct (streamOpened_fields env content image w) as (Hm & _ & Hsc).
  assert (Hwf : exists earlier user,
             messages wf = (earlier ++ [user]) ++ [placeholderOf env w partial]
             /\ length earlier = length (messages w)
             /\ Message.role user = USER).
  { unfold wf. rewrite delivered_messages, Hm, Hsc. fold partial.
    destruct (map chunkText chunks) as [|t ts] eqn:E.
    - exists (messages w), (userMessageOf env content image w).
      subst partial. cbn. rewrite <- app_assoc. repeat split.
    - rewrite append_nil_l. unfold mid. rewrite overwriteContent_placeholder.
      rewrite overwriteContent_app. cbn [overwriteContent map].
      eexists _, _. split; [reflexivity |].
      split; [apply overwriteContent_length |].
      destruct (String.eqb _ _); reflexivity. }
  destruct Hwf as (earlier & user & Hmf & Hlen & Hrole).
  exists earlier, user, (errorMessageOf env (gatewayError e) wf).
  split; [exact Hlen |]. split; [exact Hrole |].
  split; [reflexivity |]. split; [reflexivity |]. split.
  - intros Hne.
    assert (Hend : ~ Spec.endsWithEmptyModelMessage (messages wf)).
    { intros (m & Hl & _ & Hc). rewrite Hmf, last_snoc in Hl.
      injection Hl as <-. contradiction. }
    destruct (reconcileError_appends (errorMessageOf env (gatewayError e) wf)
                _ Hend) as [-> _].
    rewrite Hmf, <- !app_assoc. reflexivity.
  - intros He.
    assert (Hend : Spec.endsWithEmptyModelMessage (messages wf)).
    { exists (placeholderOf env w partial). rewrite Hmf, last_snoc.
      repeat split. exact He. }
    destruct (reconcileError_replaces (errorMessageOf env (gatewayError e) wf)
                _ Hend) as [-> _].
    rewrite Hmf, removelast_last, <- app_assoc. reflexivity.
Qed.

Lemma stream_failure_keeps_partial_reply_witness :
  exists earlier user errorMessage,
    messages (exec (handleSendMessage
                      (Scenario.envInterrupted (Js.new_Error "connection reset"))
                      "hello" None)
                   (Example.worldWith Example.earlier))
    = earlier ++ [user;
                  placeholderOf Example.env (Example.worldWith Example.earlier)
                    "Hello";
                  errorMessage]
    /\ Message.content errorMessage = "**Error:** connection reset".
Proof.
  destruct (stream_failure_keeps_partial_reply
              (Scenario.envInterrupted (Js.new_Error "connection reset"))
              "hello" None "test-key"
              [Chunk.mk (Some "Hel"); Chunk.mk (Some "lo")]
              (Js.new_Error "connection reset")
              (Example.worldWith Example.earlier)
              eq_refl eq_refl eq_refl eq_refl)
    as (earlier & user & errorMessage & _ & _ & _ & Hc & Hkept & _).
  exists earlier, user, errorMessage. split.
  - apply Hkept. discriminate.
  - rewrite Hc. reflexivity.
Defined.

Section ShownErrors.

Variable env : Env.

Lemma reconcileError_last (e : Message.t) (ms : list Message.t) :
  last (reconcileError e ms) = Some e.
Proof.
  unfold reconcileError.
  destruct (last ms); [destruct (_ && _) |]; apply last_snoc.
Qed.

(** The last entry of the transcript after a submission whose [try] block
    threw is the error message. *)
Lemma failure_last_message (content : string) (image : option ImageData.t)
    (err : Js.Error) (w wf : World) :
  tryBlock env content image
    (Submission.mk (messages w) (isThinking w) (userMessageOf env content image w))
    (submitted env content image w)
  = (Thrown err, wf) ->
  last (messages (exec (handleSendMessage env content image) w))
  = Some (errorMessageOf env err wf).
Proof.
  intros Htry.
  destruct (handleSendMessage_failure env content image err w wf Htry) as [_ ->].
  apply reconcileError_last.
Qed.

End ShownErrors.

(** X4. On the chat-stream path, a provider error whose message contains
    "entity was not found" is not shown as it is: the transcript ends with
    "**Error:** The API configuration seems invalid. Please check your
    project settings.". *)
Theorem chat_error_entity_not_found (env : Env) (content : string)
    (image : option ImageData.t) (key said : string) (e : Js.Error) (w : World) :
  route content image (isThinking w) = ChatStreamPath ->
  API_KEY env = Some key -> Js.truthy key = true ->
  generateContentStream env (chatRequestOf content image w) = inl e ->
  Js.message e = Some said ->
  Js.includes said "entity was not found" = true ->
  Message.content
    <$> last (messages (exec (handleSendMessage env content image) w))
  = Some "**Error:** The API configuration seems invalid. Please check your project settings.".
Proof.
  intros Hr Hk Ht Hs Hm Hin.
  rewrite (failure_last_message env content image (gatewayError e) w
             (streamOpened env content image w)).
  - cbn. unfold gatewayError. now rewrite Hm, Hin.
  - now apply (tryBlock_chat_refused env content image key).
Qed.

Lemma chat_error_entity_not_found_witness :
  Message.content
    <$> last (messages
                (exec (handleSendMessage
                         (Example.envFailing
                            (Js.new_Error "Requested entity was not found."))
                         "hello" None)
                      (Example.worldWith Example.earlier)))
  = Some "**Error:** The API configuration seems invalid. Please check your project settings.".
Proof.
  exact (chat_error_entity_not_found
           (Example.envFailing (Js.new_Error "Requested entity was not found."))
           "hello" None "test-key" "Requested entity was not found."
           (Js.new_Error "Requested entity was not found.")
           (Example.worldWith Example.earlier)
           eq_refl eq_refl eq_refl eq_refl eq_refl eq_refl).
Defined.

(** X5. On the image-edit path the provider's error is shown as it is,
    even when its message contains "entity was not found": the transcript
    ends with "**Error:** " followed by that message. *)
Theorem edit_error_shown_verbatim (env : Env) (content : string)
    (img : ImageData.t) (key said : string) (e : Js.Error) (w : World) :
  route content (Some img) (isThinking w) = ImageEditPath ->
  API_KEY env = Some key -> Js.truthy key = true ->
  generateContent env
    (imageTaskRequest (Js.orElse content "Process this image") (Some img))
  = inl e ->
  Js.message e = Some said -> said <> "" ->
  Message.content
    <$> last (messages (exec (handleSendMessage env content (Some img)) w))
  = Some ("**Error:** " +:+ said).
Proof.
  intros Hr Hk Ht Hs Hm Hne.
  destruct (tryBlock_edit_refused env content img key e w Hr Hk Ht Hs)
    as (wf & Htry & _).
  rewrite (failure_last_message env content (Some img) e w wf Htry).
  cbn. now rewrite (errorContent_said e said).
Qed.

Lemma edit_error_shown_verbatim_witness :
  Message.content
    <$> last (messages
                (exec (handleSendMessage
                         (Example.envFailing
                            (Js.new_Error "Requested entity was not found."))
                         "make it sepia" (Some Example.picture))
                      (Example.worldWith Example.earlier)))
  = Some ("**Error:** " +:+ "Requested entity was not found.").
Proof.
  apply (edit_error_shown_verbatim
           (Example.envFailing (Js.new_Error "Requested entity was not found."))
           "make it sepia" Example.picture "test-key"
           "Requested entity was not found."
           (Js.new_Error "Requested entity was not found.")
           (Example.worldWith Example.earlier));
    first [reflexivity | discriminate].
Defined.

(** X6. Without a credential a submission makes no call to the provider on
    either path, and the transcript gains the user's message followed by one
    MODEL message reading "**Error:** API Key is not configured in the
    environment."; no empty placeholder is left. *)
Theorem submission_without_key (env : Env) (content : string)
    (image : option ImageData.t) (w : World) :
  Spec.noCredential env ->
  let w' := exec (handleSendMessage env content image) w in
  network w' = network w
  /\ exists errorMessage,
       messages w'
       = messages w ++ [userMessageOf env content image w; errorMessage]
       /\ Message.role errorMessage = MODEL
       /\ Message.content errorMessage
          = "**Error:** API Key is not configured in the environment.".
Proof.
  intros Hno w'. subst w'.
  destruct (tryBlock_without_key env content image w Hno)
    as (wf & Htry & Hnet & Hmf).
  split.
  - rewrite handleSendMessage_network. unfold exec. now rewrite Htry.
  - destruct (handleSendMessage_failure env content image _ w wf Htry) as [_ ->].
    exists (errorMessageOf env
              (Js.new_Error "API Key is not configured in the environment.") wf).
    split; [| split; reflexivity].
    destruct Hmf as [Hmf | Hmf].
    + assert (Hend : ~ Spec.endsWithEmptyModelMessage (messages wf)).
      { intros (m & Hl & Hrole & _). rewrite Hmf, last_snoc in Hl.
        injection Hl as <-. discriminate Hrole. }
      destruct (reconcileError_appends
                  (errorMessageOf env
                     (Js.new_Error "API Key is not configured in the environment.") wf)
                  _ Hend) as [-> _].
      rewrite Hmf, <- app_assoc. reflexivity.
    + assert (Hmf' : messages wf
                     = (messages w ++ [userMessageOf env content image w])
                       ++ [placeholderOf env w ""])
        by (now rewrite Hmf, <- app_assoc).
      assert (Hend : Spec.endsWithEmptyModelMessage (messages wf)).
      { exists (placeholderOf env w ""). rewrite Hmf', last_snoc. repeat split. }
      destruct (reconcileError_replaces
                  (errorMessageOf env
                     (Js.new_Error "API Key is not configured in the environment.") wf)
                  _ Hend) as [-> _].
      rewrite Hmf', removelast_last, <- app_assoc. reflexivity.
Qed.

Lemma submission_without_key_witness :
  network (exec (handleSendMessage Example.envWithoutKey "hello" None)
                (Example.worldWith Example.earlier))
  = []
  /\ exists errorMessage,
       messages (exec (handleSendMessage Example.envWithoutKey "hello" None)
                      (Example.worldWith Example.earlier))
       = Example.earlier
         ++ [userMessageOf Example.envWithoutKey "hello" None
               (Example.worldWith Example.earlier);
             errorMessage]
       /\ Message.role errorMessage = MODEL
       /\ Message.content errorMessage
          = "**Error:** API Key is not configured in the environment.".
Proof.
  exact (submission_without_key Example.envWithoutKey "hello" None
           (Example.worldWith Example.earlier) (or_introl eq_refl)).
Defined.

(** ** What each path sends and leaves *)

Section Paths.

Variable env : Env.

Lemma editIntent_nonempty (content : string) :
  RegExp.test editIntent content = true -> content <> "".
Proof. intros H ->. discriminate H. Qed.

Lemma route_edit_content (content : string) (image : option ImageData.t)
    (thinking : bool) :
  route content image thinking = ImageEditPath ->
  content <> "" /\ exists img, image = Some img.
Proof.
  unfold route, isEditRequest. intros H. destruct image as [img|]; [| discriminate H].
  split; [| now exists img].
  apply editIntent_nonempty.
  destruct thinking, (RegExp.test editIntent content); cbn in H;
    first [reflexivity | discriminate H].
Qed.

Lemma orElse_nonempty (s d : string) : s <> "" -> Js.orElse s d = s.
Proof. intros H. rewrite orElse_decide. now destruct (decide (s = "")). Qed.

(** The run of the handler when its [try] block returns. *)
Lemma handleSendMessage_success (content : string) (image : option ImageData.t)
    (w wf : World) :
  tryBlock env content image
    (Submission.mk (messages w) (isThinking w) (userMessageOf env content image w))
    (submitted env content image w)
  = (Returned tt, wf) ->
  messages (exec (handleSendMessage env content image) w) = messages wf.
Proof.
  intros Htry. unfold exec, handleSendMessage, bind.
  rewrite beginSubmission_run. unfold tryFinally, tryCatch. rewrite Htry.
  unfold finallyBlock. run_primitives. reflexivity.
Qed.

End Paths.

(** X7. On the image-edit path the text is never empty, so neither default
    is used: the user's message holds the text as typed, and the one call
    made is an image task whose prompt is that text, never "Process this
    image". *)
Theorem edit_path_sends_text_as_typed (env : Env) (content : string)
    (image : option ImageData.t) (key : string) (w : World) :
  route content image (isThinking w) = ImageEditPath ->
  API_KEY env = Some key -> Js.truthy key = true ->
  content <> ""
  /\ Message.content (userMessageOf env content image w) = content
  /\ network (exec (handleSendMessage env content image) w)
     = network w ++ [GenerateContent (imageTaskRequest content image)].
Proof.
  intros Hr Hk Ht.
  destruct (route_edit_content content image (isThinking w) Hr) as [Hne _].
  split; [exact Hne |]. split.
  - cbn. now apply orElse_nonempty.
  - rewrite (submission_calls_gateway_of_route env content image key w Hk Ht), Hr.
    now rewrite orElse_nonempty.
Qed.

Lemma edit_path_sends_text_as_typed_witness :
  network (exec (handleSendMessage Example.env "make it sepia"
                   (Some Example.picture))
                (Example.worldWith Example.earlier))
  = [GenerateContent (imageTaskRequest "make it sepia" (Some Example.picture))].
Proof.
  exact (proj2 (proj2 (edit_path_sends_text_as_typed Example.env "make it sepia"
                         (Some Example.picture) "test-key"
                         (Example.worldWith Example.earlier)
                         eq_refl eq_refl eq_refl))).
Defined.

(** X8. An image submitted without text takes the chat-stream path, in
    either mode: the user's message reads "Analyze this image", and the one
    call made is a chat stream to the reasoning model whose new turn is the
    image followed by the text "Analyze the uploaded content". *)
Theorem image_without_text (env : Env) (img : ImageData.t) (key : string)
    (w : World) :
  API_KEY env = Some key -> Js.truthy key = true ->
  route "" (Some img) (isThinking w) = ChatStreamPath
  /\ Message.content (userMessageOf env "" (Some img) w) = "Analyze this image"
  /\ exists request,
       network (exec (handleSendMessage env "" (Some img)) w)
       = network w ++ [GenerateContentStream request]
       /\ Request.model request = "gemini-3-pro-preview"
       /\ last (Request.contents request)
          = Some (Content.mk (Some "user")
                    (Some [Part.ofInlineData img;
                           Part.ofText "Analyze the uploaded content"])).
Proof.
  intros Hk Ht.
  assert (Hr : route "" (Some img) (isThinking w) = ChatStreamPath).
  { unfold route, isEditRequest. now destruct (isThinking w). }
  split; [exact Hr |]. split; [reflexivity |].
  exists (chatRequestOf "" (Some img) w). split.
  - now rewrite (submission_calls_gateway_of_route env "" (Some img) key w Hk Ht), Hr.
  - split.
    + cbn. unfold chatModel. cbn. now destruct (isThinking w).
    + unfold chatRequestOf, chatRequest. cbn [Request.contents].
      rewrite last_snoc. unfold newTurnParts. cbn. now destruct img.
Qed.

Lemma image_without_text_witness :
  route "" (Some Example.picture) false = ChatStreamPath
  /\ Message.content
       (userMessageOf Example.env "" (Some Example.picture)
          (Example.worldWith Example.earlier))
     = "Analyze this image".
Proof.
  destruct (image_without_text Example.env Example.picture "test-key"
              (Example.worldWith Example.earlier) eq_refl eq_refl)
    as (Hr & Hc & _).
  split; [exact Hr | exact Hc].
Defined.

(** X9. In thinking mode no submission reaches the image model, whatever
    its text and image: the one call made is a chat stream to the reasoning
    model with a thinking budget of 32768. *)
Theorem thinking_mode_call (env : Env) (content : string)
    (image : option ImageData.t) (key : string) (w : World) :
  isThinking w = true ->
  API_KEY env = Some key -> Js.truthy key = true ->
  exists request config,
    network (exec (handleSendMessage env content image) w)
    = network w ++ [GenerateContentStream request]
    /\ Request.model request = "gemini-3-pro-preview"
    /\ Request.config request = Some config
    /\ Config.thinkingConfig config = Some 32768.
Proof.
  intros Hth Hk Ht.
  assert (Hr : route content image (isThinking w) = ChatStreamPath).
  { rewrite Hth. unfold route, isEditRequest. now destruct image. }
  exists (chatRequestOf content image w),
         (chatConfig (ChatOptions.mk (Some (isThinking w)) image)).
  split.
  - now rewrite (submission_calls_gateway_of_route env content image key w Hk Ht), Hr.
  - unfold chatRequestOf, chatRequest, chatModel, chatConfig. cbn.
    rewrite Hth. repeat split.
Qed.

Lemma thinking_mode_call_witness :
  exists request config,
    network (exec (handleSendMessage Example.env "make it sepia"
                     (Some Example.picture))
                  (exec toggleThinking (Example.worldWith Example.earlier)))
    = [GenerateContentStream request]
    /\ Request.model request = "gemini-3-pro-preview"
    /\ Request.config request = Some config
    /\ Config.thinkingConfig config = Some 32768.
Proof.
  exact (thinking_mode_call Example.env "make it sepia" (Some Example.picture)
           "test-key" (exec toggleThinking (Example.worldWith Example.earlier))
           eq_refl eq_refl eq_refl).
Defined.

(** X10. An image task that succeeds appends, after the user's message,
    one MODEL message holding the text the gateway returned; an image the
    gateway returned is attached with its data passed through the watermark
    and its mime type kept, and without one the message has no image. *)
Theorem edit_path_appends_watermarked (env : Env) (content : string)
    (img : ImageData.t) (key : string) (response : Response.t)
    (result : ImageTaskResult.t) (w : World) :
  route content (Some img) (isThinking w) = ImageEditPath ->
  API_KEY env = Some key -> Js.truthy key = true ->
  generateContent env (imageTaskRequest content (Some img)) = inr response ->
  outcome (processImageTask env content (Some img)) w = Returned result ->
  exists modelMessage,
    messages (exec (handleSendMessage env content (Some img)) w)
    = messages w ++ [userMessageOf env content (Some img) w; modelMessage]
    /\ Message.role modelMessage = MODEL
    /\ Message.content modelMessage = ImageTaskResult.text result
    /\ Message.image modelMessage
       = (fun returned =>
            ImageData.mk
              (applyWatermark env (ImageData.data returned)
                 (ImageData.mimeType returned))
              (ImageData.mimeType returned))
         <$> ImageTaskResult.image result.
Proof.
  intros Hr Hk Ht Hs Hres.
  destruct (route_edit_content content (Some img) (isThinking w) Hr) as [Hne _].
  assert (Hs' : generateContent env
                  (imageTaskRequest (Js.orElse content "Process this image") (Some img))
                = inr response) by (now rewrite orElse_nonempty).
  destruct (tryBlock_edit_run env content img key response w Hr Hk Ht Hs')
    as (wf & Htry & Hmf).
  rewrite (handleSendMessage_success env content (Some img) w wf Htry), Hmf.
  unfold outcome in Hres.
  rewrite (processImageTask_run env key content (Some img) response w Hk Ht Hs)
    in Hres.
  injection Hres as <-. eexists. split; [reflexivity |].
  cbn. repeat split.
Qed.

Lemma edit_path_appends_watermarked_witness :
  exists modelMessage,
    messages (exec (handleSendMessage Scenario.envSteady "make it sepia"
                      (Some Example.picture))
                   (Example.worldWith Example.earlier))
    = Example.earlier
      ++ [userMessageOf Scenario.envSteady "make it sepia" (Some Example.picture)
            (Example.worldWith Example.earlier);
          modelMessage]
    /\ Message.content modelMessage = "Done: sepia applied."
    /\ Message.image modelMessage
       = Some (ImageData.mk "BBBB+mark" "image/png").
Proof.
  destruct (edit_path_appends_watermarked Scenario.envSteady "make it sepia"
              Example.picture "test-key" Example.edited
              (ImageTaskResult.mk "Done: sepia applied."
                 (Some (ImageData.mk "BBBB" "image/png")))
              (Example.worldWith Example.earlier)
              eq_refl eq_refl eq_refl eq_refl eq_refl)
    as (modelMessage & Hm & _ & Hc & Hi).
  exists modelMessage. split; [exact Hm |]. split; [exact Hc | exact Hi].
Defined.

(** ** The storage follows the transcript *)

Section Stored.

Variable env : Env.

Lemma persisted_lookup (ms : list Message.t) (storage : gmap string StoredText) :
  ms <> [] -> persisted ms storage !! STORAGE_KEY = Some (Json.stringify ms).
Proof.
  intros Hne. unfold persisted. destruct ms as [|m ms]; [now elim Hne |].
  cbn. apply lookup_insert_eq.
Qed.

Lemma stored_setMessages (update : list Message.t -> list Message.t) (w : World) :
  (forall ms, ms <> [] -> update ms <> []) ->
  stored w -> stored (exec (setMessages update) w).
Proof.
  intros Hu [Hne _]. unfold stored, exec. rewrite setMessages_run. cbn.
  split; [now apply Hu | apply persisted_lookup; now apply Hu].
Qed.

Lemma submitted_stored (content : string) (image : option ImageData.t)
    (w : World) :
  stored (submitted env content image w).
Proof.
  destruct (submitted_fields env content image w) as (Hm & _).
  destruct (submitted_state env content image w) as (_ & _ & _ & Hst).
  unfold stored. rewrite Hm, Hst.
  split; [apply append_nonempty | apply persisted_lookup, append_nonempty].
Qed.

(** After a submission the storage holds the transcript, whatever happened. *)
Lemma handleSendMessage_stored (content : string) (image : option ImageData.t)
    (w : World) :
  stored (exec (handleSendMessage env content image) w).
Proof.
  pose proof (submitted_stored content image w) as H1.
  assert (Hrest : keeps stored (fun _ : unit => True)
            (tryFinally
               (tryCatch
                  (tryBlock env content image
                     (Submission.mk (messages w) (isThinking w)
                        (userMessageOf env content image w)))
                  (catchBlock env))
               finallyBlock)).
  { apply keeps_tryFinally;
      [apply keeps_tryCatch; [apply kept_tryBlock | intros e; apply kept_catchBlock]
      | apply kept_finallyBlock];
      first [exact stored_setMessages | intros; assumption]. }
  destruct (Hrest _ H1) as [Hfin _].
  unfold exec in *. unfold handleSendMessage, bind.
  now rewrite beginSubmission_run.
Qed.

End Stored.

(** X11. Persistence across a submission: whatever the provider does, after
    a submission the stored entry is the serialisation of the transcript as
    it then is, and an application started on that storage loads exactly
    that transcript, provided the clock shows times a [Date] can hold and the
    timestamps already in the transcript are points in time. *)
Theorem restart_after_submission (env : Env) (content : string)
    (image : option ImageData.t) (w : World) :
  (forall n, - DateTime.maxTime <= clock env n <= DateTime.maxTime) ->
  timestampsValid w ->
  let w' := exec (handleSendMessage env content image) w in
  localStorage w' !! STORAGE_KEY = Some (Json.stringify (messages w'))
  /\ messages (exec (hydrateEffect env) (initialWorld (localStorage w')))
     = messages w'.
Proof.
  intros Hclock Hvalid w'.
  destruct (handleSendMessage_stored env content image w) as [_ Hst].
  fold w' in Hst. split; [exact Hst |].
  apply hydrateEffect_loads; [exact Hst |].
  apply (handleSendMessage_timestamps env Hclock content image w Hvalid).
Qed.

Lemma restart_after_submission_witness :
  let w' := exec (handleSendMessage Scenario.envSteady "hello" None)
                 (Example.worldWith Example.earlier) in
  localStorage w' !! STORAGE_KEY = Some (Json.stringify (messages w'))
  /\ messages (exec (hydrateEffect Scenario.envSteady)
                    (initialWorld (localStorage w')))
     = messages w'.
Proof.
  apply (restart_after_submission Scenario.envSteady "hello" None
           (Example.worldWith Example.earlier)).
  - intros n. unfold DateTime.maxTime. cbn [clock Scenario.envSteady]. lia.
  - repeat constructor; vm_compute; discriminate.
Defined.

(** X12. "New chat" and a restart: once the user has confirmed, an
    application started on the storage shows an empty transcript; when the
    user declines, or the transcript was empty, the storage is what it
    was. *)
Theorem new_chat_then_restart (env : Env) (w : World) :
  let prompt := "Start a new chat? Current history will be cleared." in
  let w' := exec (handleNewChat env) w in
  (messages w <> [] -> confirm env prompt = true ->
     messages (exec (hydrateEffect env) (initialWorld (localStorage w'))) = [])
  /\ (messages w = [] \/ confirm env prompt = false ->
        localStorage w' = localStorage w).
Proof.
  cbv zeta. unfold exec at 2 3. unfold handleNewChat, bind, get, window_confirm.
  cbn -[setMessages hydrateEffect]. destruct (messages w) as [|m ms] eqn:Em.
  - split; [intros H; now elim H | reflexivity].
  - cbn [length Nat.eqb]. split.
    + intros _ Hc. rewrite Hc. rewrite setMessages_run.
      unfold setError, localStorage_removeItem, modify.
      cbn -[hydrateEffect]. unfold exec, hydrateEffect, bind, localStorage_getItem, get.
      cbn -[setMessages]. unfold persisted. cbn -[setMessages].
      now rewrite lookup_delete_eq.
    + intros [H | Hc]; [discriminate H |]. now rewrite Hc.
Qed.

Lemma new_chat_then_restart_witness :
  messages (exec (hydrateEffect Example.env)
              (initialWorld
                 (localStorage
                    (exec (handleNewChat Example.env)
                          (Example.worldWith Example.earlier)))))
  = [].
Proof.
  apply (proj1 (new_chat_then_restart Example.env
                  (Example.worldWith Example.earlier))).
  - discriminate.
  - reflexivity.
Defined.

(** ** More of the gateway *)

(** X13. A chat stream that ends normally returns the concatenation of the
    texts of its chunks, a chunk without text counting as the empty text;
    the fragment callback of the application has then accumulated exactly
    that text, and has updated the transcript once per chunk. *)
Theorem startChatStream_returns_full_text (env : Env) (key mid : string)
    (history : list Message.t) (newMessage : string)
    (options : ChatOptions.t) (chunks : list Chunk.t) (w : World) :
  API_KEY env = Some key -> Js.truthy key = true ->
  generateContentStream env (chatRequest history newMessage options)
  = inr (Stream.mk chunks None) ->
  let run := startChatStream env history newMessage (onChunk mid) options in
  let fullText := Spec.joinAll (map chunkText chunks) in
  outcome run w = Returned fullText
  /\ streamContent (exec run w) = streamContent w +:+ fullText
  /\ length (transcripts (exec run w))
     = (length (transcripts w) + length chunks)%nat.
Proof.
  intros Hk Ht Hs run fullText. subst run. unfold outcome, exec.
  rewrite (startChatStream_run env key mid history newMessage options
             (Stream.mk chunks None) w Hk Ht Hs).
  cbn [fst snd Stream.failure Stream.chunks]. split; [reflexivity |].
  rewrite delivered_streamContent, delivered_transcripts.
  split; [reflexivity |].
  now rewrite length_app, !length_map, length_seq.
Qed.

Lemma startChatStream_returns_full_text_witness :
  outcome (startChatStream Example.env Example.earlier "hello"
             (onChunk "1700000000003") (ChatOptions.mk (Some false) None))
          (Example.worldWith Example.earlier)
  = Returned "Hello, world".
Proof.
  exact (proj1 (startChatStream_returns_full_text Example.env "test-key"
                  "1700000000003" Example.earlier "hello"
                  (ChatOptions.mk (Some false) None)
                  (Stream.chunks Example.helloStream)
                  (Example.worldWith Example.earlier)
                  eq_refl eq_refl eq_refl)).
Defined.

(** X14. The request of a chat stream carries a thinking budget, of 32768,
    exactly when the thinking option is true; an attached image alone
    selects the reasoning model without a budget. The system instruction
    and the sampling parameters do not depend on the options. *)
Theorem thinking_budget (env : Env) (key : string)
    (history : list Message.t) (newMessage : string)
    (onFragment : string -> M unit) (options : ChatOptions.t) (w : World) :
  API_KEY env = Some key -> Js.truthy key = true ->
  Spec.makesNoCall onFragment ->
  exists request config,
    network (exec (startChatStream env history newMessage onFragment options) w)
    = network w ++ [GenerateContentStream request]
    /\ Request.config request = Some config
    /\ (Config.thinkingConfig config = Some 32768
        <-> ChatOptions.thinking options = Some true)
    /\ (Config.thinkingConfig config = None
        <-> ChatOptions.thinking options <> Some true)
    /\ (Config.temperature config, Config.topP config, Config.topK config)
       = ((7, 10), (95, 100), 64).
Proof.
  intros Hk Ht Hq.
  exists (chatRequest history newMessage options), (chatConfig options).
  split; [now apply (startChatStream_network env key) |].
  split; [reflexivity |]. unfold chatConfig. cbn [Config.thinkingConfig].
  destruct (ChatOptions.thinking options) as [[|]|]; repeat split;
    try reflexivity; try discriminate; try congruence.
Qed.

Lemma thinking_budget_witness :
  exists request config,
    network (exec (startChatStream Example.env [] "Look"
                     (fun _ => ret tt)
                     (ChatOptions.mk None (Some Example.picture)))
                  (initialWorld ∅))
    = [GenerateContentStream request]
    /\ Request.model request = "gemini-3-pro-preview"
    /\ Request.config request = Some config
    /\ Config.thinkingConfig config = None.
Proof.
  destruct (thinking_budget Example.env "test-key" [] "Look" (fun _ => ret tt)
              (ChatOptions.mk None (Some Example.picture)) (initialWorld ∅)
              eq_refl eq_refl (fun _ _ => eq_refl))
    as (request & config & Hn & Hc & _ & Hnone & _).
  exists request, config. split; [exact Hn |].
  split; [| split; [exact Hc | apply Hnone; discriminate]].
  cbn in Hn. injection Hn as <-. reflexivity.
Defined.

Section AnyParts.

Lemma texts_withoutInlineData (ps : list Part.t) :
  omap (fun p => match Part.inlineData p with
                 | Some _ => None
                 | None => Part.text p
                 end) ps
  = Spec.textParts (withoutInlineData ps).
Proof.
  unfold Spec.textParts, withoutInlineData.
  induction ps as [|p ps IH]; [reflexivity |].
  cbn [omap list_omap List.filter]. rewrite IH.
  destruct (Part.inlineData p); reflexivity.
Qed.

End AnyParts.

(** X15. For any parts in the first candidate, [processImageTask] uses the
    text of a part only when the part carries no inline data: the text
    returned is the concatenation of the texts of those parts, or the
    caption when that is empty, and the image is the last inline data. Parts
    of further candidates are not read. *)
Theorem processImageTask_any_parts (env : Env) (key prompt : string)
    (imageData : option ImageData.t) (first : Candidate.t)
    (others : list Candidate.t) (role : option string) (parts : list Part.t)
    (w : World) :
  API_KEY env = Some key -> Js.truthy key = true ->
  generateContent env (imageTaskRequest prompt imageData)
  = inr (Response.mk (Some (first :: others))) ->
  Candidate.content first = Some (Content.mk role (Some parts)) ->
  let text := Spec.joinAll (Spec.textParts (withoutInlineData parts)) in
  outcome (processImageTask env prompt imageData) w
  = Returned (ImageTaskResult.mk
                (if decide (text = "") then Spec.caption else text)
                (last (Spec.inlineDataParts parts))).
Proof.
  intros Hk Ht Hr Hc text. unfold outcome.
  rewrite (processImageTask_run env key prompt imageData _ w Hk Ht Hr).
  cbn [fst]. rewrite orElse_decide.
  unfold scanResponse, responseParts. cbn. rewrite Hc. cbn.
  rewrite scanParts_general, texts_withoutInlineData. cbn [fst snd].
  rewrite append_nil_l. fold text.
  now destruct (last (Spec.inlineDataParts parts)).
Qed.

Lemma processImageTask_any_parts_witness :
  outcome (processImageTask Scenario.envCaptioned "make it sepia"
             (Some Example.picture))
          (initialWorld ∅)
  = Returned (ImageTaskResult.mk "Done." (Some Example.picture)).
Proof.
  exact (processImageTask_any_parts Scenario.envCaptioned "test-key"
           "make it sepia" (Some Example.picture)
           (Candidate.mk
              (Some (Content.mk None
                       (Some [Part.mk (Some "a caption") (Some Example.picture);
                              Part.ofText "Done."]))))
           [Candidate.mk (Some (Content.mk None (Some [Part.ofText "ignored"])))]
           None
           [Part.mk (Some "a caption") (Some Example.picture); Part.ofText "Done."]
           (initialWorld ∅)
           eq_refl eq_refl eq_refl eq_refl).
Defined.

(** ** The draft and the display of a message *)

(** X16. The submit button and [handleSubmit] agree: the button is enabled
    exactly when a submit sends a message, and a submit while it is disabled
    (blank text without an image, or the application busy) sends nothing and
    leaves the draft as it is. *)
Theorem submit_enabled_iff_sends (p : ChatInput.Platform) (isLoading : bool)
    (st : ChatInput.t) :
  (ChatInput.submitDisabled p isLoading st = false
   <-> exists sent, (ChatInput.handleSubmit p isLoading st).2 = Some sent)
  /\ (ChatInput.submitDisabled p isLoading st = true
      -> ChatInput.handleSubmit p isLoading st = (st, None)).
Proof.
  unfold ChatInput.submitDisabled, ChatInput.handleSubmit.
  destruct (Js.truthy (ChatInput.trim p (ChatInput.input st))),
    (ChatInput.selectedImage st), isLoading; cbn;
    (split; [split |]); try discriminate; try reflexivity;
    try (intros [sent H]; discriminate H); intros _; eexists; reflexivity.
Qed.

Section Draft.

Variable env : Env.
Variable p : ChatInput.Platform.

Lemma handleSubmit_sent (busy : bool) (st st' : ChatInput.t) (text : string)
    (image : option ImageData.t) :
  ChatInput.handleSubmit p busy st = (st', Some (text, image)) ->
  busy = false
  /\ text = ChatInput.trim p (ChatInput.input st)
  /\ image = ChatInput.selectedImage st
  /\ (text <> "" \/ exists img, image = Some img)
  /\ ChatInput.input st' = ""
  /\ ChatInput.selectedImage st' = None
  /\ ChatInput.imagePreview st' = None.
Proof.
  unfold ChatInput.handleSubmit.
  destruct (Js.truthy (ChatInput.trim p (ChatInput.input st))) eqn:Et,
    (ChatInput.selectedImage st) as [img|] eqn:Ei, busy; cbn;
    intros [= <- <- <-]; repeat split;
    first [ left; intros E; rewrite E in Et; discriminate Et
          | right; now exists img ].
Qed.

Lemma delivered_flags (mid : string) (texts : list string) (w : World) :
  isLoading (delivered mid texts w) = isLoading w
  /\ isStreaming (delivered mid texts w) = isStreaming w.
Proof.
  revert w. induction texts as [|t ts IH]; intros w; [now split |].
  cbn [delivered fold_left]. unfold delivered in IH.
  destruct (IH (deliver mid w t)) as [-> ->].
  destruct (deliver_frame mid t w) as (_ & _ & _ & -> & -> & _). now split.
Qed.

End Draft.

(** X17. A message sent from the draft is never empty: when [handleSubmit]
    sends, the application is not busy, what it passes is the trimmed text
    and the selected image, and the user's message the handler appends has
    content, the text when there is one and "Analyze this image" when only
    an image was sent. *)
Theorem draft_message_never_empty (env : Env) (p : ChatInput.Platform)
    (st st' : ChatInput.t) (text : string) (image : option ImageData.t)
    (w : World) :
  ChatInput.handleSubmit p (isLoading w || isStreaming w) st
  = (st', Some (text, image)) ->
  submitDraft env p st w = (st', exec (handleSendMessage env text image) w)
  /\ exists user,
       last (messages (exec (beginSubmission env text image) w)) = Some user
       /\ Message.role user = USER
       /\ Message.content user <> ""
       /\ (text <> "" -> Message.content user = text)
       /\ (text = "" -> Message.content user = "Analyze this image").
Proof.
  intros Hs. split; [unfold submitDraft; now rewrite Hs |].
  destruct (handleSubmit_sent p _ st st' text image Hs)
    as (_ & _ & _ & Hsome & _).
  exists (userMessageOf env text image w).
  destruct (submitted_fields env text image w) as (Hm & _).
  unfold submitted in Hm. rewrite Hm, last_snoc.
  split; [reflexivity |]. split; [reflexivity |].
  cbn [userMessageOf Message.content]. rewrite orElse_decide.
  destruct (decide (text = "")) as [-> | Hne].
  - destruct Hsome as [H | [img ->]]; [now elim H |].
    repeat split; [discriminate | intros H; now elim H].
  - repeat split; [exact Hne | intros H; contradiction].
Qed.

Lemma draft_message_never_empty_witness :
  exists user,
    last (messages (exec (beginSubmission Example.env "make it brighter"
                            (Some Example.picture))
                         (Example.worldWith Example.earlier)))
    = Some user
    /\ Message.content user = "make it brighter".
Proof.
  destruct (draft_message_never_empty Example.env Scenario.browser
              Scenario.draft
              (ChatInput.mk "" true None None [ChatInput.Start; ChatInput.Stop])
              "make it brighter" (Some Example.picture)
              (Example.worldWith Example.earlier) eq_refl)
    as (_ & user & Hl & _ & _ & Ht & _).
  exists user. split; [exact Hl | apply Ht; discriminate].
Defined.

(** X18. While a submission is in flight a submit from the draft does
    nothing: in the world reached when the user's message has been appended,
    and in every world reached while the fragments of the reply arrive, the
    draft and the world are left as they are. *)
Theorem no_submit_while_in_flight (env : Env) (p : ChatInput.Platform)
    (st : ChatInput.t) (content : string) (image : option ImageData.t)
    (texts : list string) (w : World) :
  let w1 := submitted env content image w in
  let w2 := delivered (modelMessageIdOf env w) texts
              (streamOpened env content image w) in
  submitDraft env p st w1 = (st, w1) /\ submitDraft env p st w2 = (st, w2).
Proof.
  cbv zeta. unfold submitDraft, ChatInput.handleSubmit.
  destruct (submitted_state env content image w) as (_ & -> & _).
  destruct (delivered_flags (modelMessageIdOf env w) texts
              (streamOpened env content image w)) as [-> ->].
  cbn [streamOpened isLoading isStreaming withNetworkCall withIsLoading
       withIsStreaming orb].
  rewrite !andb_false_r. now split.
Qed.

(** X19. A second submit right after a send sends nothing: the send has
    emptied the draft, so the same press twice gives one message (the trim
    of the empty text being empty). *)
Theorem double_submit_sends_once (p : ChatInput.Platform) (busy busy' : bool)
    (st st' : ChatInput.t) (sent : string * option ImageData.t) :
  ChatInput.trim p "" = "" ->
  ChatInput.handleSubmit p busy st = (st', Some sent) ->
  ChatInput.handleSubmit p busy' st' = (st', None).
Proof.
  intros Htrim Hs. destruct sent as [text image].
  destruct (handleSubmit_sent p busy st st' text image Hs)
    as (_ & _ & _ & _ & Hi & Him & _).
  unfold ChatInput.handleSubmit. now rewrite Hi, Him, Htrim.
Qed.

Lemma double_submit_sends_once_witness :
  ChatInput.handleSubmit Scenario.browser false
    (ChatInput.handleSubmit Scenario.browser false Scenario.draft).1
  = ((ChatInput.handleSubmit Scenario.browser false Scenario.draft).1, None).
Proof.
  exact (double_submit_sends_once Scenario.browser false false Scenario.draft
           (ChatInput.mk "" true None None [ChatInput.Start; ChatInput.Stop])
           ("make it brighter", Some Example.picture) eq_refl eq_refl).
Defined.

Section Dictation.

Lemma collectFinal_spoken (rs : list ChatInput.SpeechResult.t) (acc : string) :
  ChatInput.collectFinal rs acc
  = acc +:+ Spec.joinAll
              (map ChatInput.SpeechResult.transcript
                   (List.filter ChatInput.SpeechResult.isFinal rs)).
Proof.
  revert acc. induction rs as [|r rs IH]; intros acc.
  - cbn. now rewrite append_nil_r.
  - cbn [ChatInput.collectFinal List.filter]. rewrite IH.
    destruct (ChatInput.SpeechResult.isFinal r); [| reflexivity].
    cbn [map Spec.joinAll fold_right]. apply append_assoc.
Qed.

End Dictation.

(** X20. Dictation: of an event only the final results from [resultIndex]
    on are used. When they carry no text (only interim results, say) the
    draft is left as it is; otherwise their transcripts, in order, are put
    after the trimmed draft and one space, or replace a draft that trims to
    nothing; nothing else of the draft changes. *)
Theorem dictation_merges_final_results (p : ChatInput.Platform)
    (event : ChatInput.SpeechEvent.t) (st : ChatInput.t) :
  let spoken :=
    Spec.joinAll
      (map ChatInput.SpeechResult.transcript
           (List.filter ChatInput.SpeechResult.isFinal
              (drop (ChatInput.SpeechEvent.resultIndex event)
                    (ChatInput.SpeechEvent.results event)))) in
  let trimmed := ChatInput.trim p (ChatInput.input st) in
  (spoken = "" -> ChatInput.onresult p event st = st)
  /\ (spoken <> "" ->
        ChatInput.onresult p event st
        = ChatInput.mk
            (if decide (trimmed = "") then spoken
             else trimmed +:+ " " +:+ spoken)
            (ChatInput.isListening st) (ChatInput.selectedImage st)
            (ChatInput.imagePreview st) (ChatInput.recognitionCalls st)).
Proof.
  cbv zeta. unfold ChatInput.onresult.
  rewrite collectFinal_spoken, append_nil_l.
  set (spoken := Spec.joinAll _). clearbody spoken.
  unfold ChatInput.setInput, Js.truthy.
  destruct (String.eqb_spec spoken "") as [E | E]; cbn [negb].
  - split; [reflexivity | intros H; contradiction].
  - split; [intros H; contradiction | intros _].
    destruct (String.eqb_spec (ChatInput.trim p (ChatInput.input st)) "")
      as [Et | Et]; cbn [negb];
      destruct (decide (ChatInput.trim p (ChatInput.input st) = "")) as [Ed | Ed];
      first [reflexivity | contradiction].
Qed.

Section DataUrls.

Lemma splitAtCommas_commaFree (s : string) :
  commaFree s -> ChatInput.splitAtCommas s = [s].
Proof.
  unfold commaFree. induction s as [|c s IH]; intros H; [reflexivity |].
  cbn [ChatInput.splitAtCommas]. cbn [list_ascii_of_string In] in H.
  destruct (Ascii.eqb_spec c ",") as [-> | Hc]; [elim H; now left |].
  rewrite IH; [reflexivity |]. intros Hin. apply H. now right.
Qed.

Lemma splitAtCommas_first (a b : string) :
  commaFree a ->
  ChatInput.splitAtCommas (a +:+ "," +:+ b) = a :: ChatInput.splitAtCommas b.
Proof.
  unfold commaFree. induction a as [|c a IH]; intros H; [reflexivity |].
  rewrite append_cons. cbn [ChatInput.splitAtCommas].
  cbn [list_ascii_of_string In] in H.
  destruct (Ascii.eqb_spec c ",") as [-> | Hc]; [elim H; now left |].
  rewrite IH; [reflexivity |]. intros Hin. apply H. now right.
Qed.

Lemma commaFree_append (a b : string) :
  commaFree a -> commaFree b -> commaFree (a +:+ b).
Proof.
  unfold commaFree. induction a as [|c a IH]; intros Ha Hb; [exact Hb |].
  rewrite append_cons. cbn [list_ascii_of_string In] in *.
  intros [Hc | Hin]; [apply Ha; now left |].
  apply IH; [| exact Hb | exact Hin]. intros H. apply Ha. now right.
Qed.

End DataUrls.

(** X21. An image attached and then displayed: when the file is read as
    the address "data:" + type + ";base64," + payload, type and payload
    without a comma, the draft holds the payload with the file's type and
    shows the address as its preview, and a message carrying that image is
    displayed from the very same address. *)
Theorem attached_image_is_displayed (mime payload : string)
    (others : list ChatInput.File.t) (st : ChatInput.t) :
  commaFree mime -> commaFree payload ->
  let address := "data:" +:+ mime +:+ ";base64," +:+ payload in
  exists st',
    ChatInput.handleImageUpload (ChatInput.File.mk mime (Some address) :: others) st
    = Some st'
    /\ ChatInput.selectedImage st' = Some (ImageData.mk payload mime)
    /\ ChatInput.imagePreview st' = Some address
    /\ ChatInput.input st' = ChatInput.input st
    /\ forall i r c ts,
         ChatMessage.imageUrl (Message.mk i r c ts (ChatInput.selectedImage st'))
         = ChatInput.imagePreview st'.
Proof.
  intros Hm Hp address.
  assert (Hsplit : ChatInput.splitAtCommas address
                   = ("data:" +:+ mime +:+ ";base64") :: [payload]).
  { subst address.
    replace ("data:" +:+ mime +:+ ";base64," +:+ payload)
      with (("data:" +:+ mime +:+ ";base64") +:+ "," +:+ payload).
    - rewrite splitAtCommas_first, splitAtCommas_commaFree; [reflexivity | exact Hp |].
      apply (commaFree_append "data:"); [| apply commaFree_append; [exact Hm |]];
        unfold commaFree; cbn; intros H;
        repeat (destruct H as [H | H]; [discriminate H |]); exact H.
    - rewrite !append_assoc. reflexivity. }
  unfold ChatInput.handleImageUpload. cbn [head ChatInput.File.result].
  rewrite Hsplit. cbn. eexists. split; [reflexivity |]. repeat split.
Qed.

Lemma attached_image_is_displayed_witness :
  exists st',
    ChatInput.handleImageUpload
      [ChatInput.File.mk "image/png" (Some "data:image/png;base64,iVBORw0KGgo=")]
      ChatInput.initial
    = Some st'
    /\ ChatInput.selectedImage st' = Some Example.picture.
Proof.
  destruct (attached_image_is_displayed "image/png" "iVBORw0KGgo=" []
              ChatInput.initial)
    as (st' & Hu & Hs & _).
  - unfold commaFree. cbn. intros H.
    repeat (destruct H as [H | H]; [discriminate H |]). exact H.
  - unfold commaFree. cbn. intros H.
    repeat (destruct H as [H | H]; [discriminate H |]). exact H.
  - exists st'. split; [exact Hu | exact Hs].
Defined.

(** ** A submission only appends *)

Section AppendOnly.

Variable env : Env.




End AppendOnly.



(** X23. A stored text that is not JSON is not fatal and is not removed:
    the application starts with an empty transcript and the storage as it
    was; the first submission then replaces the entry by the serialisation
    of the transcript. *)
Theorem corrupt_storage_is_replaced (env : Env) (raw : string)
    (storage : gmap string StoredText) :
  storage !! STORAGE_KEY = Some (Malformed raw) ->
  let w0 := exec (hydrateEffect env) (initialWorld storage) in
  outcome (hydrateEffect env) (initialWorld storage) = Returned tt
  /\ w0 = initialWorld storage
  /\ forall content image,
       let w1 := exec (handleSendMessage env content image) w0 in
       localStorage w1 !! STORAGE_KEY = Some (Json.stringify (messages w1)).
Proof.
  intros Hst.
  assert (Hrun : hydrateEffect env (initialWorld storage)
                 = (Returned tt, initialWorld storage)).
  { unfold hydrateEffect, bind, localStorage_getItem, get.
    cbn -[setMessages]. rewrite Hst. cbn.
    destruct (Js.truthy raw); reflexivity. }
  assert (Hw0 : exec (hydrateEffect env) (initialWorld storage)
                = initialWorld storage) by (unfold exec; now rewrite Hrun).
  cbv zeta. rewrite Hw0. unfold outcome. rewrite Hrun. cbn [fst].
  split; [reflexivity |]. split; [reflexivity |].
  intros content image. apply (handleSendMessage_stored env content image).
Qed.

Lemma corrupt_storage_is_replaced_witness :
  exec (hydrateEffect Example.env)
       (initialWorld (<[STORAGE_KEY := Malformed "[{"]> ∅))
  = initialWorld (<[STORAGE_KEY := Malformed "[{"]> ∅).
Proof.
  exact (proj1 (proj2 (corrupt_storage_is_replaced Example.env "[{"
                         (<[STORAGE_KEY := Malformed "[{"]> ∅)
                         (lookup_insert_eq _ _ _)))).
Defined.
